(** * npm-license-checker: the license resolution pipeline of
    [src/licenseChecker.ts], embedded as executable Rocq definitions.

    The program reads every [*.json] manifest of the directory
    [packageJsons], extracts the dependencies of one kind, asks the npm
    registry for the license of each (through a memo cache and a fixed
    delay), and hands the resolved records to the console and to a CSV file.

    Modelling decisions, once for the whole file.
    - JavaScript values that come from JSON (registry bodies) are [JsVal].
      An object is its member list as [JSON.parse] creates it.
    - Strings are byte strings (UTF-8).  [String.prototype.length] counts
      UTF-16 code units and is computed from the UTF-8 bytes by [js_length].
    - Everything outside the process is a field of [World]: the directory
      listing, the manifests, the registry's answers, the time suspensions
      take, the outcome of [fs.writeFileSync], the [semver] package,
      [Date.prototype.toISOString] and [String.prototype.toLowerCase], whose
      result is that of the Unicode case tables of the engine.
    - The process state is [State]: the cache slot
      [fetchLicenseForPackage.prototype.cache], a millisecond clock, the
      number of requests issued and the trace of observable events.
    - Code that can throw is in the monad [M]: state passing with a
      [Completion] that is either [Normal] or [Throw].  The program awaits
      every asynchronous call before it goes on, so a run is sequential.
    - The build is assumed to down-level [async] functions (TypeScript target
      below ES2017), so that [fetchLicenseForPackage] is an ordinary function
      and owns a [prototype] object: the program keeps its cache there. *)

From Stdlib Require Import ZArith NArith List Bool Ascii String Lia.
From stdpp Require Import base strings gmap list pretty.

Open Scope string_scope.

(** ** Characters and strings *)

Definition char (n : nat) : string := String (ascii_of_nat n) "".

Definition dquote : string := char 34.
Definition newline : string := char 10.
Definition escape : string := char 27.

(** [s.startsWith(p)] *)
Definition startsWith (s p : string) : bool := String.prefix p s.

(** [s.endsWith(p)] *)
Definition endsWith (s p : string) : bool :=
  String.prefix (String.rev p) (String.rev s).

Fixpoint drop_chars (n : nat) (s : string) : string :=
  match n, s with
  | O, _ => s
  | S _, "" => ""
  | S n', String _ s' => drop_chars n' s'
  end.

(** [s.replace(pattern, replacement)] with a string pattern: only the first
    occurrence is replaced. *)
Fixpoint replace_first (pattern replacement s : string) : string :=
  if String.prefix pattern s
  then replacement ++ drop_chars (String.length pattern) s
  else match s with
       | "" => ""
       | String c s' => String c (replace_first pattern replacement s')
       end.

(** [s.replace(/:/g, '.')] *)
Fixpoint replace_colons (s : string) : string :=
  match s with
  | "" => ""
  | String c s' =>
      String (if Ascii.eqb c ":"%char then "."%char else c) (replace_colons s')
  end.

(** [s.length]: the number of UTF-16 code units of a UTF-8 byte string.  Every
    code point counts once (its lead byte), and once more when it lies
    outside the basic plane (lead byte [0xF0] and above: a surrogate pair). *)
Fixpoint js_length (s : string) : nat :=
  match s with
  | "" => 0
  | String c s' =>
      let n := nat_of_ascii c in
      ((if (128 <=? n)%nat && (n <? 192)%nat then 0 else 1)
       + (if (240 <=? n)%nat then 1 else 0)
       + js_length s')%nat
  end.

(** [parts.join(sep)] on strings. *)
Fixpoint join (sep : string) (parts : list string) : string :=
  match parts with
  | [] => ""
  | [p] => p
  | p :: rest => p ++ sep ++ join sep rest
  end.

Definition is_digit (c : ascii) : bool :=
  let n := nat_of_ascii c in (48 <=? n)%nat && (n <=? 57)%nat.

Definition digit_value (c : ascii) : N := N.of_nat (nat_of_ascii c - 48).

Fixpoint digits_value_from (acc : N) (s : string) : N :=
  match s with
  | "" => acc
  | String c s' => digits_value_from (10 * acc + digit_value c)%N s'
  end.

(** The number a string of decimal digits denotes. *)
Definition digits_value (s : string) : N := digits_value_from 0 s.

Fixpoint all_chars (p : ascii -> bool) (s : string) : bool :=
  match s with
  | "" => true
  | String c s' => p c && all_chars p s'
  end.

(** The longest prefix of [s] whose characters satisfy [p], and the rest. *)
Fixpoint span_chars (p : ascii -> bool) (s : string) : string * string :=
  match s with
  | "" => ("", "")
  | String c s' =>
      if p c then let '(a, b) := span_chars p s' in (String c a, b)
      else ("", s)
  end.

(** ** JavaScript values *)

#[local] Set Warnings "-register-all".

Inductive JsVal : Type :=
| JUndefined
| JNull
| JBool (b : bool)
| JNum (n : Z)
| JStr (s : string)
| JArr (elements : list JsVal)
| JObj (members : list (string * JsVal)).

(** [typeof v] *)
Definition typeof (v : JsVal) : string :=
  match v with
  | JUndefined => "undefined"
  | JNull => "object"
  | JBool _ => "boolean"
  | JNum _ => "number"
  | JStr _ => "string"
  | JArr _ => "object"
  | JObj _ => "object"
  end.

Definition is_null (v : JsVal) : bool :=
  match v with JNull => true | _ => false end.

(** ToBoolean: what [if (v)], [!v] and [v || w] test.  A JSON number is never
    NaN. *)
Definition truthy (v : JsVal) : bool :=
  match v with
  | JUndefined | JNull => false
  | JBool b => b
  | JNum n => negb (n =? 0)%Z
  | JStr s => negb (String.eqb s "")
  | JArr _ | JObj _ => true
  end.

(** [a || b] *)
Definition js_or (a b : JsVal) : JsVal := if truthy a then a else b.

(** The value of member [k] of a parsed JSON object: when the text names a
    member twice, [JSON.parse] keeps the later value. *)
Fixpoint member_get {A} (k : string) (members : list (string * A)) : option A :=
  match members with
  | [] => None
  | (k', v) :: rest =>
      match member_get k rest with
      | Some x => Some x
      | None => if String.eqb k k' then Some v else None
      end
  end.

(** [v.k] or [v[k]] for the two property names this program reads from
    registry data, [license] and [type]; no built-in prototype defines them,
    so only an object's own members can answer.  [None] is the [TypeError]
    that reading a property of [undefined] or [null] throws. *)
Definition js_get (v : JsVal) (k : string) : option JsVal :=
  match v with
  | JUndefined | JNull => None
  | JObj members => Some (default JUndefined (member_get k members))
  | _ => Some JUndefined
  end.

(** ToString, as template literals and [Array.prototype.join] apply it;
    [join] turns an [undefined] or [null] element into the empty string.
    A number is an integer and is printed with all its digits, as
    JavaScript prints the integers below [10^21]. *)
Fixpoint js_toString (v : JsVal) : string :=
  match v with
  | JUndefined => "undefined"
  | JNull => "null"
  | JBool true => "true"
  | JBool false => "false"
  | JNum n => pretty n
  | JStr s => s
  | JArr elements =>
      join "," ((fix each (l : list JsVal) : list string :=
                   match l with
                   | [] => []
                   | JUndefined :: l' | JNull :: l' => "" :: each l'
                   | e :: l' => js_toString e :: each l'
                   end) elements)
  | JObj _ => "[object Object]"
  end.

Definition join_element (v : JsVal) : string :=
  match v with
  | JUndefined | JNull => ""
  | _ => js_toString v
  end.

(** ** Objects as [Object.entries] sees them *)

(** An array index: the canonical decimal form of an integer below
    [2^32 - 1].  Property keys of this form are enumerated first. *)
Definition array_index (k : string) : bool :=
  negb (String.eqb k "") && all_chars is_digit k
  && (String.eqb k "0" || negb (startsWith k "0"))
  && (digits_value k <? 4294967295)%N.

(** The distinct member names in the order the members are created ([seen]
    holds the names already created). *)
Fixpoint created_keys {A} (seen : list string) (members : list (string * A))
  : list string :=
  match members with
  | [] => []
  | (k, _) :: rest =>
      if bool_decide (k ∈ seen) then created_keys seen rest
      else k :: created_keys (k :: seen) rest
  end.

Fixpoint insert_index (k : string) (sorted : list string) : list string :=
  match sorted with
  | [] => [k]
  | k' :: rest =>
      if (digits_value k <=? digits_value k')%N then k :: sorted
      else k' :: insert_index k rest
  end.

(** OrdinaryOwnPropertyKeys: array indices in ascending numeric order, then
    the other names in creation order. *)
Definition own_keys {A} (members : list (string * A)) : list string :=
  let ks := created_keys [] members in
  (foldr insert_index [] (List.filter array_index ks)
   ++ List.filter (fun k => negb (array_index k)) ks)%list.

(** [Object.entries(JSON.parse(text))] for an object whose text lists
    [members]. *)
Definition Object_entries {A} (members : list (string * A)) : list (string * A) :=
  omap (fun k => (fun v => (k, v)) <$> member_get k members) (own_keys members).

(** ** The data model of the program *)

Inductive PackageDotJsonDependencyType : Type :=
| Dependencies
| DevDependencies
| PeerDependencies
| OptionalDependencies.

(** The string a [PackageDotJsonDependencyType] is. *)
Definition type_name (type : PackageDotJsonDependencyType) : string :=
  match type with
  | Dependencies => "dependencies"
  | DevDependencies => "devDependencies"
  | PeerDependencies => "peerDependencies"
  | OptionalDependencies => "optionalDependencies"
  end.

(** [packageLicense] is optional: [None] until the pipeline assigns it.  The
    declared type is [string]; what the registry sends is not checked, so the
    field holds a [JsVal]. *)
Record PackageDotJsonDependency : Type := {
  projectName : string;
  packageName : string;
  packageVersion : string;
  packageLicense : option JsVal
}.

Definition set_packageLicense (pkg : PackageDotJsonDependency) (v : JsVal)
  : PackageDotJsonDependency :=
  {| projectName := projectName pkg;
     packageName := packageName pkg;
     packageVersion := packageVersion pkg;
     packageLicense := Some v |}.

(** A parsed manifest, as far as the program reads it: for each dependency
    kind the members of its object, in the order of the JSON text, or [None]
    when the key is missing (or holds a falsy value).  Versions are strings,
    as the program's types declare. *)
Record Manifest : Type := {
  dependencies : option (list (string * string));
  devDependencies : option (list (string * string));
  peerDependencies : option (list (string * string));
  optionalDependencies : option (list (string * string))
}.

(** [packageData[type]] *)
Definition manifest_get (packageData : Manifest)
  (type : PackageDotJsonDependencyType) : option (list (string * string)) :=
  match type with
  | Dependencies => dependencies packageData
  | DevDependencies => devDependencies packageData
  | PeerDependencies => peerDependencies packageData
  | OptionalDependencies => optionalDependencies packageData
  end.

(** ** Exceptions and completions *)

Inductive Exception : Type :=
| TypeError (message : string)
| Error (message : string)
| HostError (message : string).

Inductive Completion (A : Type) : Type :=
| Normal (a : A)
| Throw (e : Exception).
Arguments Normal {A} a.
Arguments Throw {A} e.

(** ** The world outside the process *)

(** What the program reads of an axios response, and of an axios error. *)
Record Response : Type := { status : N; statusText : string }.

Inductive FetchOutcome : Type :=
| Fulfilled (data : JsVal)
| Rejected (response : option Response).

(** An instance of the [SemVer] class of the [semver] package. *)
Record SemVer : Type := {
  major : N;
  minor : N;
  patch : N;
  prerelease : list string;
  version : string
}.

Record World : Type := {
  (** [semver.valid(v)] on a string: the parsed version, or [null]. *)
  semver_valid : string -> option string;
  (** [semver.coerce(v)] on a string: a [SemVer], or [null]. *)
  semver_coerce : string -> option SemVer;
  (** [fs.promises.readdir(dir)] *)
  readdir : string -> Completion (list string);
  (** [JSON.parse(await fs.promises.readFile(path, 'utf-8'))] *)
  readManifest : string -> Completion Manifest;
  (** The outcome of the [n]-th request of the process, sent to [url]. *)
  registry : nat -> string -> FetchOutcome;
  (** The milliseconds the suspension after [n] events takes beyond what was
      asked: a timer fires no earlier than its delay, a request takes time. *)
  overrun : nat -> N;
  (** [new Date(ms).toISOString()] *)
  toISOString : N -> string;
  (** [s.toLowerCase()] *)
  toLowerCase : string -> string;
  (** [fs.writeFileSync(name, content)] after [n] events: it returns, or it
      throws (no permission, no space, a directory of that name). *)
  writeFileSync : nat -> string -> string -> Completion unit
}.

(** ** The process state *)

Inductive Event : Type :=
| Slept (ms : N)
| Requested (url : string) (at_ms : N)
| StdoutWrite (text : string)
| ConsoleWarn (text : string)
| ConsoleTable (rows : list PackageDotJsonDependency)
| FileWritten (name content : string)
| FileWriteFailed (name : string).

Record State : Type := {
  (** [fetchLicenseForPackage.prototype.cache]: [None] while undefined. *)
  cache : option (gmap string JsVal);
  (** Milliseconds since the process started. *)
  clock : N;
  (** Requests issued so far. *)
  requests : nat;
  (** Observable events, the most recent first. *)
  trace : list Event
}.

Definition initial_state : State :=
  {| cache := None; clock := 0; requests := 0; trace := [] |}.

Definition set_cache (c : gmap string JsVal) (st : State) : State :=
  {| cache := Some c; clock := clock st; requests := requests st;
     trace := trace st |}.

Definition emit (e : Event) (st : State) : State :=
  {| cache := cache st; clock := clock st; requests := requests st;
     trace := e :: trace st |}.

Definition advance (ms : N) (st : State) : State :=
  {| cache := cache st; clock := (clock st + ms)%N; requests := requests st;
     trace := trace st |}.

Definition count_request (st : State) : State :=
  {| cache := cache st; clock := clock st; requests := S (requests st);
     trace := trace st |}.

(** ** The monad of the program: state and exceptions *)

Definition M (A : Type) : Type := State -> Completion A * State.

Definition ret {A} (a : A) : M A := fun st => (Normal a, st).

Definition throw {A} (e : Exception) : M A := fun st => (Throw e, st).

Definition bind {A B} (m : M A) (k : A -> M B) : M B :=
  fun st =>
    match m st with
    | (Normal a, st') => k a st'
    | (Throw e, st') => (Throw e, st')
    end.

Notation "x <- m ;; k" := (bind m (fun x => k))
  (at level 100, m at next level, right associativity).
Notation "m ;;; k" := (bind m (fun _ => k))
  (at level 100, right associativity).

(** A host operation that either yields a value or throws. *)
Definition lift {A} (c : Completion A) : M A := fun st => (c, st).

Definition perform (f : State -> State) : M unit := fun st => (Normal tt, f st).

Definition read {A} (f : State -> A) : M A := fun st => (Normal (f st), st).

(** ** The [path] module, as far as the program uses it *)

(** [path.extname(name)] (POSIX) for a directory entry, a name without
    separator: from the last dot on, unless there is no dot, the last dot is
    the first character, or the name is [..]. *)
Definition path_extname (name : string) : string :=
  let '(ext_rev, rest) :=
    span_chars (fun c => negb (Ascii.eqb c "."%char)) (String.rev name) in
  match rest with
  | "" => ""
  | String _ "" => ""
  | String dot _ =>
      if String.eqb name ".." then "" else String dot (String.rev ext_rev)
  end.

(** [path.join(dir, name)] (POSIX) for a directory and one of its entries. *)
Definition path_join (dir name : string) : string := dir ++ "/" ++ name.

(** ** The [semver] package

    A model of node-semver 7 in its default (strict) mode, used to run the
    program on concrete manifests: [SemVer]'s constructor with the [FULL]
    pattern, [valid], and [coerce] with the [COERCE] pattern.  The theorems
    about the program hold for every [World], whatever its [semver]. *)
Module NodeSemver.

Definition MAX_LENGTH : nat := 256.
Definition MAX_SAFE_INTEGER : N := 9007199254740991.
Definition MAX_SAFE_COMPONENT_LENGTH : nat := 16.

Definition utf8 (bytes : list nat) : string :=
  string_of_list_ascii (map ascii_of_nat bytes).

(** The characters [String.prototype.trim] removes, in UTF-8: the white
    space and the line terminators of ASCII (U+0009 to U+000D, U+0020),
    U+00A0, U+1680, U+2000 to U+200A, U+2028, U+2029, U+202F, U+205F,
    U+3000 and U+FEFF. *)
Definition white_space : list string :=
  map utf8
    [[9]; [10]; [11]; [12]; [13]; [32]; [194; 160]; [225; 154; 128];
     [226; 128; 128]; [226; 128; 129]; [226; 128; 130]; [226; 128; 131];
     [226; 128; 132]; [226; 128; 133]; [226; 128; 134]; [226; 128; 135];
     [226; 128; 136]; [226; 128; 137]; [226; 128; 138]; [226; 128; 168];
     [226; 128; 169]; [226; 128; 175]; [226; 129; 159]; [227; 128; 128];
     [239; 187; 191]].

(** [s] without the one of [spaces] at its head, when there is one. *)
Fixpoint skip_space (spaces : list string) (s : string) : option string :=
  match spaces with
  | [] => None
  | space :: rest =>
      if String.prefix space s then Some (drop_chars (String.length space) s)
      else skip_space rest s
  end.

(** [s] without the run of [spaces] at its head; [fuel] bounds the length of
    the run. *)
Fixpoint skip_spaces (spaces : list string) (fuel : nat) (s : string) : string :=
  match fuel with
  | O => s
  | S fuel' =>
      match skip_space spaces s with
      | Some s' => skip_spaces spaces fuel' s'
      | None => s
      end
  end.

Definition trim_start (s : string) : string :=
  skip_spaces white_space (String.length s) s.

(** The bytes of a character of UTF-8 never end another one, so the white
    space at the end is found on the reversed bytes. *)
Definition trim_end (s : string) : string :=
  String.rev
    (skip_spaces (map String.rev white_space) (String.length s) (String.rev s)).

(** [s.trim()] *)
Definition trim (s : string) : string := trim_end (trim_start s).

(** [[a-zA-Z0-9-]] *)
Definition is_letter_dash_number (c : ascii) : bool :=
  let n := nat_of_ascii c in
  is_digit c || ((65 <=? n)%nat && (n <=? 90)%nat)
  || ((97 <=? n)%nat && (n <=? 122)%nat) || (n =? 45)%nat.

(** [s.split('.')] *)
Fixpoint split_dots (s : string) : list string :=
  match s with
  | "" => [""]
  | String c s' =>
      if Ascii.eqb c "."%char then "" :: split_dots s'
      else match split_dots s' with
           | [] => [String c ""]
           | p :: ps => String c p :: ps
           end
  end.

(** A whole identifier that is [0], or digits that do not start with [0]. *)
Definition numeric (id : string) : bool :=
  negb (String.eqb id "") && all_chars is_digit id
  && (String.eqb id "0" || negb (startsWith id "0")).

(** NUMERICIDENTIFIER at the head of [s].  What follows it in [FULL] is
    never a digit, so it is the whole run of digits there. *)
Definition numeric_identifier (s : string) : option (N * string) :=
  let '(ds, rest) := span_chars is_digit s in
  if numeric ds then Some (digits_value ds, rest) else None.

Definition expect (c : ascii) (s : string) : option string :=
  match s with
  | String c' s' => if Ascii.eqb c c' then Some s' else None
  | "" => None
  end.

(** PRERELEASEIDENTIFIER: numeric, or with a letter or a dash in it. *)
Definition prerelease_identifier (id : string) : bool :=
  negb (String.eqb id "") && (numeric id || negb (all_chars is_digit id)).

(** BUILDIDENTIFIER *)
Definition build_identifier (id : string) : bool := negb (String.eqb id "").

(** An optional group at the head of [s], the character [c] followed by
    identifiers with dots between them (PRERELEASE, BUILD): the
    identifiers, split at the dots, and the rest.  What may follow the group
    is neither an identifier character nor a dot, so a group that is there
    takes the whole run. *)
Definition identifiers (c : ascii) (ok : string -> bool) (s : string)
  : option (list string * string) :=
  match s with
  | String c' s' =>
      if Ascii.eqb c c' then
        let '(run, rest) :=
          span_chars (fun x => is_letter_dash_number x || Ascii.eqb x "."%char) s' in
        let ids := split_dots run in
        if forallb ok ids then Some (ids, rest) else None
      else Some ([], s)
  | "" => Some ([], s)
  end.

(** A numeric prerelease identifier becomes a number when it is a safe
    integer, and is printed as one. *)
Definition prerelease_value (id : string) : string :=
  if all_chars is_digit id && (digits_value id <? MAX_SAFE_INTEGER)%N
  then pretty (digits_value id) else id.

(** [format()] *)
Definition format (major minor patch : N) (prerelease : list string) : string :=
  pretty major ++ "." ++ pretty minor ++ "." ++ pretty patch
  ++ match prerelease with
     | [] => ""
     | _ => "-" ++ join "." prerelease
     end.

(** [parse(v)]: [new SemVer(v)], or [null] when the constructor throws. *)
Definition parse (v : string) : option SemVer :=
  if (MAX_LENGTH <? js_length v)%nat then None else
  let s := trim v in
  let s := match s with String "v" s' => s' | _ => s end in
  '(major, s) ← numeric_identifier s;
  s ← expect "." s;
  '(minor, s) ← numeric_identifier s;
  s ← expect "." s;
  '(patch, s) ← numeric_identifier s;
  '(pre, s) ← identifiers "-" prerelease_identifier s;
  '(_, s) ← identifiers "+" build_identifier s;
  if negb (String.eqb s "") then None
  else if (MAX_SAFE_INTEGER <? major)%N || (MAX_SAFE_INTEGER <? minor)%N
          || (MAX_SAFE_INTEGER <? patch)%N then None
  else
    let pre := prerelease_value <$> pre in
    Some {| major := major; minor := minor; patch := patch;
            prerelease := pre; version := format major minor patch pre |}.

(** [semver.valid(v)] *)
Definition valid (v : string) : option string := version <$> parse v.

(** One to sixteen digits at the head of [s], where no digit may follow:
    the whole run of digits, when it is short enough. *)
Definition component (s : string) : option (string * string) :=
  let '(ds, rest) := span_chars is_digit s in
  if String.eqb ds "" || (MAX_SAFE_COMPONENT_LENGTH <? String.length ds)%nat
  then None else Some (ds, rest).

(** A dot and one to sixteen digits. *)
Definition dot_component (s : string) : option (string * string) :=
  match s with
  | String "." s' => component s'
  | _ => None
  end.

(** The first match of [COERCE] in [s]: [boundary] tells that the position
    is the start of the string or follows a character that is no digit. *)
Fixpoint coerce_match (boundary : bool) (s : string) : option (string * string * string) :=
  match s with
  | "" => None
  | String c s' =>
      match (if boundary then component s else None) with
      | Some (major, rest) =>
          match dot_component rest with
          | Some (minor, rest') =>
              match dot_component rest' with
              | Some (patch, _) => Some (major, minor, patch)
              | None => Some (major, minor, "0")
              end
          | None => Some (major, "0", "0")
          end
      | None => coerce_match (negb (is_digit c)) s'
      end
  end.

(** [semver.coerce(v)] *)
Definition coerce (v : string) : option SemVer :=
  '(major, minor, patch) ← coerce_match true v;
  parse (major ++ "." ++ minor ++ "." ++ patch).

End NodeSemver.

(** ** The program, function by function *)

Section Program.

Variable w : World.

(** [sleep(explanation, ms)]: the timer fires after [ms] milliseconds or
    later.  The explanation is ignored. *)
Definition sleep (explanation : string) (ms : N) : M unit :=
  fun st =>
    (Normal tt,
     emit (Slept ms) (advance (ms + overrun w (length (trace st))) st)).

(** [backupConsole(charCount)] *)
Definition backupConsole (charCount : nat) : string :=
  escape ++ "[" ++ pretty charCount ++ "D".

(** [Object.keys(obj)] of a record: [packageLicense] exists once assigned. *)
Definition record_keys (obj : PackageDotJsonDependency) : list string :=
  ["projectName"; "packageName"; "packageVersion"]
  ++ match packageLicense obj with
     | Some _ => ["packageLicense"]
     | None => []
     end.

(** [Object.values(obj)] of a record. *)
Definition record_values (obj : PackageDotJsonDependency) : list JsVal :=
  [JStr (projectName obj); JStr (packageName obj); JStr (packageVersion obj)]
  ++ match packageLicense obj with
     | Some v => [v]
     | None => []
     end.

(** [toCsv(data)]: [Object.keys(data[0])] throws when [data] is empty. *)
Definition toCsv (data : list PackageDotJsonDependency) : Completion string :=
  match data with
  | [] => Throw (TypeError "Cannot convert undefined or null to object")
  | first :: _ =>
      let header := join "," (record_keys first) in
      let rows :=
        join newline
          (map (fun obj => join "," (map join_element (record_values obj))) data) in
      Normal (header ++ newline ++ rows)
  end.

(** [filesafeTimestamp()] *)
Definition filesafeTimestamp : M string :=
  read (fun st => replace_colons (toISOString w (clock st))).

(** Lines 50 to 55 of [fetchLicenseForPackage]: the cache object, created
    in the slot at the first call. *)
Definition ensure_cache : M unit :=
  fun st =>
    match cache st with
    | Some _ => (Normal tt, st)
    | None => (Normal tt, set_cache ∅ st)
    end.

(** [cache[cacheKey]] as a value; a key that holds an [@] is no property of
    [Object.prototype], so a missing entry reads as [undefined]. *)
Definition cache_lookup (st : State) (cacheKey : string) : JsVal :=
  default JUndefined (c ← cache st; c !! cacheKey).

Definition cache_read (cacheKey : string) : M JsVal :=
  read (fun st => cache_lookup st cacheKey).

(** [cache[cacheKey] = v] *)
Definition cache_write (cacheKey : string) (v : JsVal) : M unit :=
  perform (fun st => set_cache (<[cacheKey := v]> (default ∅ (cache st))) st).

(** [axios.get(url)], awaited: fulfilled with the response or rejected. *)
Definition axios_get (url : string) : M FetchOutcome :=
  fun st =>
    (Normal (registry w (requests st) url),
     advance (overrun w (S (length (trace st))))
       (emit (Requested url (clock st)) (count_request st))).

(** The template of line 78; [response] is [undefined] when the error
    carries none (no answer, or an error that is no axios error). *)
Definition error_marker (response : option Response) : string :=
  "[ERROR: "
  ++ match response with Some r => pretty (status r) | None => "undefined" end
  ++ ": "
  ++ match response with Some r => statusText r | None => "undefined" end
  ++ "]".

Definition cacheKey_of (packageName packageVersion : string) : string :=
  packageName ++ "@" ++ packageVersion.

Definition is_local (packageVersion : string) : bool :=
  startsWith (toLowerCase w packageVersion) "file:"
  || startsWith (toLowerCase w packageVersion) "link:".

Definition skipped_marker (packageVersion : string) : string :=
  "[SKIPPED: " ++ packageVersion ++ "]".

Definition registryUrl_of (packageName packageVersion : string) : string :=
  "https://registry.npmjs.org/" ++ packageName ++ "/" ++ packageVersion.

(** [fetchLicenseForPackage(packageName, packageVersion)] *)
Definition fetchLicenseForPackage (packageName packageVersion : string) : M JsVal :=
  ensure_cache ;;;
  let cacheKey := cacheKey_of packageName packageVersion in
  cached <- cache_read cacheKey ;;
  if truthy cached then cache_read cacheKey
  else if is_local packageVersion then
    let packageLicense := JStr (skipped_marker packageVersion) in
    cache_write cacheKey packageLicense ;;;
    ret packageLicense
  else
    sleep "Let's not DoS the npmjs.org registry" 1001 ;;;
    let registryUrl := registryUrl_of packageName packageVersion in
    fetchResponse <- axios_get registryUrl ;;
    match fetchResponse with
    | Fulfilled data =>
        match js_get data "license" with
        | Some license =>
            let packageLicense := js_or license (JStr "[BLANK]") in
            cache_write cacheKey packageLicense ;;;
            ret packageLicense
        | None => ret (JStr (error_marker None))
        end
    | Rejected response => ret (JStr (error_marker response))
    end.

(** [a || b] where [a] is a string or [null]. *)
Definition or_else (a : option string) (b : string) : string :=
  match a with
  | Some s => if String.eqb s "" then b else s
  | None => b
  end.

(** [getCleanNpmPackageVersion(packageJsonVersion)].  [semver.valid] of a
    [SemVer] is its [version], of [null] it is [null]. *)
Definition getCleanNpmPackageVersion (packageJsonVersion : string) : string :=
  or_else (semver_valid w packageJsonVersion)
    (or_else (version <$> semver_coerce w packageJsonVersion)
       packageJsonVersion).

Definition packageFilesDir : string := "packageJsons".

(** The record pushed at lines 111 to 117. *)
Definition dependency_of (filename : string) (entry : string * string)
  : PackageDotJsonDependency :=
  let project := replace_first (path_extname filename) "" filename in
  {| projectName := project;
     packageName := entry.1;
     packageVersion := getCleanNpmPackageVersion entry.2;
     packageLicense := None |}.

Definition missing_kind_warning (type : PackageDotJsonDependencyType)
  (filename : string) : string :=
  "No " ++ dquote ++ type_name type ++ dquote ++ " dependencies listed in "
  ++ dquote ++ filename ++ dquote ++ " package.json.".

(** The loop of lines 99 to 119. *)
Fixpoint read_manifests (type : PackageDotJsonDependencyType)
  (filenames : list string) (allDependencies : list PackageDotJsonDependency)
  : M (list PackageDotJsonDependency) :=
  match filenames with
  | [] => ret allDependencies
  | filename :: rest =>
      let filePath := path_join packageFilesDir filename in
      packageData <- lift (readManifest w filePath) ;;
      match manifest_get packageData type with
      | None =>
          perform (emit (ConsoleWarn (missing_kind_warning type filename))) ;;;
          read_manifests type rest allDependencies
      | Some packageDependencies =>
          read_manifests type rest
            (allDependencies
             ++ map (dependency_of filename) (Object_entries packageDependencies))
      end
  end.

(** [getDependencies(type)] *)
Definition getDependencies (type : PackageDotJsonDependencyType)
  : M (list PackageDotJsonDependency) :=
  names <- lift (readdir w packageFilesDir) ;;
  let filenames := List.filter (fun fn => endsWith fn ".json") names in
  read_manifests type filenames [].

(** [fs.writeFileSync(name, content)]: the file is written, or the call
    throws and the exception leaves [writeCsvFile], which catches nothing. *)
Definition fs_writeFileSync (name content : string) : M unit :=
  fun st =>
    match writeFileSync w (length (trace st)) name content with
    | Normal _ => (Normal tt, emit (FileWritten name content) st)
    | Throw e => (Throw e, emit (FileWriteFailed name) st)
    end.

(** [writeCsvFile(packages, type)] *)
Definition writeCsvFile (packages : list PackageDotJsonDependency)
  (type : PackageDotJsonDependencyType) : M unit :=
  csvContent <- lift (toCsv packages) ;;
  stamp <- filesafeTimestamp ;;
  let csvFilename := "." ++ type_name type ++ "." ++ stamp ++ ".csv" in
  fs_writeFileSync csvFilename csvContent.

Definition checkingDisplayMessage (type : PackageDotJsonDependencyType)
  (pkg : PackageDotJsonDependency) : string :=
  "☐  Checking " ++ projectName pkg ++ "'s " ++ dquote ++ type_name type
  ++ dquote ++ ": " ++ packageName pkg ++ "@" ++ packageVersion pkg ++ "... ".

(** Lines 149 to 157: a license that is an object is replaced by its
    [type], which must be a string. *)
Definition normalize_license (license : JsVal) : M JsVal :=
  if negb (is_null license) && String.eqb (typeof license) "object" then
    match js_get license "type" with
    | Some (JStr type) => ret (JStr type)
    | _ => throw (Error "Unrecognized package license definition.")
    end
  else ret license.

(** The body of the loop of [checkDependencies], lines 142 to 162.  The
    last write calls [startsWith] on the license, which only a string has.
    The source assigns the license to the record in place; the model returns
    the record with its license when the body completes, and no record
    otherwise, for nothing reads the records of a run that threw. *)
Definition resolve_package (type : PackageDotJsonDependencyType)
  (pkg : PackageDotJsonDependency) : M PackageDotJsonDependency :=
  let message := checkingDisplayMessage type pkg in
  perform (emit (StdoutWrite message)) ;;;
  license <- fetchLicenseForPackage (packageName pkg) (packageVersion pkg) ;;
  license <- normalize_license license ;;
  perform (emit (StdoutWrite (backupConsole (js_length message)))) ;;;
  match license with
  | JStr s =>
      let glyph := if startsWith s "[" then "✖" else "✔" in
      perform (emit (StdoutWrite
                 (replace_first "☐" glyph message ++ s ++ "." ++ newline))) ;;;
      ret (set_packageLicense pkg license)
  | _ => throw (TypeError "pkg.packageLicense.startsWith is not a function")
  end.

(** The loop of [checkDependencies] over [packages]; the records are
    updated in place, so the array holds the resolved records afterwards. *)
Fixpoint resolve_packages (type : PackageDotJsonDependencyType)
  (packages : list PackageDotJsonDependency)
  : M (list PackageDotJsonDependency) :=
  match packages with
  | [] => ret []
  | pkg :: rest =>
      pkg' <- resolve_package type pkg ;;
      rest' <- resolve_packages type rest ;;
      ret (pkg' :: rest')
  end.

(** [checkDependencies(type)] *)
Definition checkDependencies (type : PackageDotJsonDependencyType)
  : M (list PackageDotJsonDependency) :=
  packages <- getDependencies type ;;
  packages <- resolve_packages type packages ;;
  perform (emit (ConsoleTable packages)) ;;;
  writeCsvFile packages type ;;;
  ret packages.

(** [init()] *)
Definition init : M unit :=
  checkDependencies Dependencies ;;;
  checkDependencies DevDependencies ;;;
  ret tt.

End Program.

(** ** Vocabulary of the properties *)

(** The property names an empty object inherits from [Object.prototype]. *)
Definition Object_prototype_keys : list string :=
  ["constructor"; "hasOwnProperty"; "isPrototypeOf"; "propertyIsEnumerable";
   "toLocaleString"; "toString"; "valueOf"; "__proto__"; "__defineGetter__";
   "__defineSetter__"; "__lookupGetter__"; "__lookupSetter__"].

(** [s] holds the character [@]. *)
Fixpoint has_at (s : string) : bool :=
  match s with
  | "" => false
  | String c s' => Ascii.eqb c "@"%char || has_at s'
  end.

(** The branch a call of [fetchLicenseForPackage] takes in a state: the
    return of line 60, the return of line 66, the end of the [try] block or
    the [catch] block. *)
Inductive Path : Type :=
| CacheHit
| LocalSkip
| RegistrySuccess
| RegistryFailure.

(** What the [catch] block reads of the failure: the response of an axios
    error, nothing for a [TypeError] of [fetchResponse.data.license]. *)
Definition failure_response (outcome : FetchOutcome) : option Response :=
  match outcome with
  | Fulfilled _ => None
  | Rejected response => response
  end.

(** [fetchResponse.data.license], when the request is fulfilled and the
    property can be read. *)
Definition declared_license (outcome : FetchOutcome) : option JsVal :=
  match outcome with
  | Fulfilled data => js_get data "license"
  | Rejected _ => None
  end.

Definition fetch_path (w : World) (packageName packageVersion : string)
  (st : State) : Path :=
  if truthy (cache_lookup st (cacheKey_of packageName packageVersion)) then CacheHit
  else if is_local w packageVersion then LocalSkip
  else match declared_license
               (registry w (requests st) (registryUrl_of packageName packageVersion)) with
       | Some _ => RegistrySuccess
       | None => RegistryFailure
       end.

(** The state in which the answer of a request arrives: the cache object
    exists, the delay and the request have taken place. *)
Definition after_request (w : World) (url : string) (st : State) : State :=
  (axios_get w url
     (sleep w "Let's not DoS the npmjs.org registry" 1001 (ensure_cache st).2).2).2.

Arguments after_request : simpl never.

(** [st'] is a state of the same process at or after [st]: reached by further
    lookups and by steps that leave the cache alone (console and file
    output, the passing of time). *)
Inductive Later (w : World) (st : State) : State -> Prop :=
| Later_now : Later w st st
| Later_lookup st' packageName packageVersion :
    Later w st st' ->
    Later w st (fetchLicenseForPackage w packageName packageVersion st').2
| Later_other st' st'' :
    Later w st st' -> cache st'' = cache st' -> Later w st st''.

(** [st'] is reached from [st] by lookups of pairs other than
    [(name, version)], with versions that hold no [@], and by steps that
    leave the cache alone. *)
Inductive Elsewhere (w : World) (name version : string) (st : State)
  : State -> Prop :=
| Elsewhere_now : Elsewhere w name version st st
| Elsewhere_lookup st' packageName packageVersion :
    Elsewhere w name version st st' ->
    (packageName, packageVersion) <> (name, version) ->
    has_at packageVersion = false ->
    Elsewhere w name version st
      (fetchLicenseForPackage w packageName packageVersion st').2
| Elsewhere_other st' st'' :
    Elsewhere w name version st st' -> cache st'' = cache st' ->
    Elsewhere w name version st st''.

(** The times at which the requests of a trace began, the most recent first. *)
Fixpoint request_times (tr : list Event) : list N :=
  match tr with
  | [] => []
  | Requested _ t :: rest => t :: request_times rest
  | _ :: rest => request_times rest
  end.

(** Consecutive requests begin at least [gap] milliseconds apart. *)
Fixpoint spaced (gap : N) (times : list N) : Prop :=
  match times with
  | [] => True
  | t2 :: older =>
      match older with
      | [] => True
      | t1 :: _ => (t1 + gap <= t2)%N
      end /\ spaced gap older
  end.

(** Every request of the trace follows the delay of 1001 ms at once. *)
Fixpoint delayed (tr : list Event) : Prop :=
  match tr with
  | [] => True
  | Requested _ _ :: earlier =>
      match earlier with
      | Slept ms :: _ => ms = 1001%N
      | _ => False
      end /\ delayed earlier
  | _ :: earlier => delayed earlier
  end.

(** The pacing invariant of the process: the requests so far were each sent
    right after the delay, at least 1001 ms apart, and none after the
    present. *)
Definition well_paced (st : State) : Prop :=
  spaced 1001 (request_times (trace st))
  /\ Forall (fun t => (t <= clock st)%N) (request_times (trace st))
  /\ delayed (trace st).

(** The files a trace wrote, the most recent first. *)
Fixpoint files_written (tr : list Event) : list (string * string) :=
  match tr with
  | [] => []
  | FileWritten name content :: rest => (name, content) :: files_written rest
  | _ :: rest => files_written rest
  end.

(** The progress lines that announce a lookup, the most recent first: the
    writes to the standard output that start with the unchecked box. *)
Fixpoint announced (tr : list Event) : list string :=
  match tr with
  | [] => []
  | StdoutWrite text :: rest =>
      if startsWith text "☐" then text :: announced rest else announced rest
  | _ :: rest => announced rest
  end.

(** Every value in the cache is truthy. *)
Definition cache_truthy (st : State) : Prop :=
  forall (c : gmap string JsVal) (k : string) (v : JsVal),
    cache st = Some c -> c !! k = Some v -> truthy v = true.

(** A structured license whose [type] is the empty string. *)
Definition empty_typed (v : JsVal) : Prop := js_get v "type" = Some (JStr "").

(** Neither the registry nor the cache holds a structured license whose
    [type] is the empty string. *)
Definition types_nonempty (w : World) (st : State) : Prop :=
  (forall n url license,
      declared_license (registry w n url) = Some license -> ~ empty_typed license)
  /\ (forall (c : gmap string JsVal) k v,
         cache st = Some c -> c !! k = Some v -> ~ empty_typed v).

(** The records one manifest contributes. *)
Definition records_of (w : World) (type : PackageDotJsonDependencyType)
  (filename : string) (packageData : Manifest) : list PackageDotJsonDependency :=
  match manifest_get packageData type with
  | None => []
  | Some packageDependencies =>
      map (dependency_of w filename) (Object_entries packageDependencies)
  end.

(** The last progress line of a package. *)
Definition resolved_line (type : PackageDotJsonDependencyType)
  (pkg : PackageDotJsonDependency) (s : string) : string :=
  replace_first "☐" (if startsWith s "[" then "✖" else "✔")
    (checkingDisplayMessage type pkg) ++ s ++ "." ++ newline.

(** The state in which the loop body ends normally, from the state [st1]
    in which the lookup ended. *)
Definition reported (type : PackageDotJsonDependencyType)
  (pkg : PackageDotJsonDependency) (s : string) (st1 : State) : State :=
  emit (StdoutWrite (resolved_line type pkg s))
    (emit (StdoutWrite (backupConsole (js_length (checkingDisplayMessage type pkg))))
       st1).

(** The test of line 149: [v !== null && typeof v === 'object']. *)
Definition is_object (v : JsVal) : bool :=
  negb (is_null v) && String.eqb (typeof v) "object".

(** What a trace handed to the reporting sink, the most recent first: the
    tables printed, the files written and the writes that failed. *)
Fixpoint sink_events (tr : list Event) : list Event :=
  match tr with
  | [] => []
  | ConsoleTable rows :: rest => ConsoleTable rows :: sink_events rest
  | FileWritten name content :: rest => FileWritten name content :: sink_events rest
  | FileWriteFailed name :: rest => FileWriteFailed name :: sink_events rest
  | _ :: rest => sink_events rest
  end.

(** [a] is falsy: [null] or the empty string. *)
Definition falsy (a : option string) : Prop := a = None \/ a = Some "".

(** A record without its license. *)
Definition identity_of (pkg : PackageDotJsonDependency) : string * string * string :=
  (projectName pkg, packageName pkg, packageVersion pkg).

(** [m] keeps the state property [I]. *)
Definition preserves {A} (I : State -> Prop) (m : M A) : Prop :=
  forall st, I st -> I (m st).2.

(** [s] holds the character [c]. *)
Fixpoint has_char (c : ascii) (s : string) : bool :=
  match s with
  | "" => false
  | String c' s' => Ascii.eqb c' c || has_char c s'
  end.

(** The number of times the character [c] occurs in [s]. *)
Fixpoint count_char (c : ascii) (s : string) : nat :=
  match s with
  | "" => 0
  | String c' s' => (if Ascii.eqb c' c then 1 else 0) + count_char c s'
  end.

(** [s.split(sep)] for a separator of one character. *)
Fixpoint split_char (sep : ascii) (s : string) : list string :=
  match s with
  | "" => [""]
  | String c s' =>
      if Ascii.eqb c sep then "" :: split_char sep s'
      else match split_char sep s' with
           | [] => [String c ""]
           | p :: ps => String c p :: ps
           end
  end.

(** [s.includes(pattern)] *)
Fixpoint includes (s pattern : string) : bool :=
  String.prefix pattern s
  || match s with
     | "" => false
     | String _ s' => includes s' pattern
     end.

Definition comma : ascii := ","%char.
Definition linefeed : ascii := ascii_of_nat 10.

(** What a reader of the CSV file sees who splits the text into lines and
    every line at its commas; the program writes no quotes, so there is
    nothing else to undo. *)
Definition csv_cells (text : string) : list (list string) :=
  split_char comma <$> split_char linefeed text.

(** The cells of the row that [toCsv] writes for a record. *)
Definition record_cells (obj : PackageDotJsonDependency) : list string :=
  join_element <$> record_values obj.

(** The URLs a trace requested, the most recent first. *)
Fixpoint requested_urls (tr : list Event) : list string :=
  match tr with
  | [] => []
  | Requested url _ :: rest => url :: requested_urls rest
  | _ :: rest => requested_urls rest
  end.

(** What a trace wrote to the standard output, the most recent first. *)
Fixpoint stdout_of (tr : list Event) : list string :=
  match tr with
  | [] => []
  | StdoutWrite text :: rest => text :: stdout_of rest
  | _ :: rest => stdout_of rest
  end.

(** The cache key of a record, and the URL the program requests for it. *)
Definition key_of (pkg : PackageDotJsonDependency) : string :=
  cacheKey_of (packageName pkg) (packageVersion pkg).

Definition url_of (pkg : PackageDotJsonDependency) : string :=
  registryUrl_of (packageName pkg) (packageVersion pkg).

(** The state after writing [texts] to the standard output, the last of
    them first. *)
Definition written (texts : list string) (st : State) : State :=
  foldr (fun text st' => emit (StdoutWrite text) st') st texts.


(** The time that has passed since the state [st0] pays for the requests
    sent since then, 1001 ms each. *)
Definition paid (st0 st : State) : Prop :=
  requests st0 <= requests st
  /\ (clock st0 + 1001 * N.of_nat (requests st - requests st0) <= clock st)%N.

(** The cache object of a state; empty while the slot is undefined. *)
Definition cache_map (st : State) : gmap string JsVal := default ∅ (cache st).

(** Every request is answered with a body whose [license] can be read. *)
Definition always_answered (w : World) : Prop :=
  forall n url, exists license, declared_license (registry w n url) = Some license.

(** Since the state [st0] the cache has gained an entry for every request. *)
Definition grown (st0 st : State) : Prop :=
  cache_truthy st
  /\ requests st + size (cache_map st0) <= requests st0 + size (cache_map st).

(** The test of line 105 on a parsed manifest. *)
Definition lacks (type : PackageDotJsonDependencyType) (packageData : Manifest)
  : bool :=
  match manifest_get packageData type with
  | None => true
  | Some _ => false
  end.

(** The warnings of a listing, the most recent first: one for each manifest
    that lacks the kind. *)
Definition warnings_of (type : PackageDotJsonDependencyType)
  (manifest_of : string -> Manifest) (filenames : list string) : list Event :=
  rev ((fun fn => ConsoleWarn (missing_kind_warning type fn))
         <$> List.filter (fun fn => lacks type (manifest_of fn)) filenames).

(** The registry declares the license [l] for a record: it answers some
    request for the URL of the record with a body whose [license] is [l]. *)
Definition declared_for (w : World) (name version : string) (l : JsVal) : Prop :=
  exists i, declared_license (registry w i (registryUrl_of name version)) = Some l.

(** Where a value cached for a pair can come from: the skip marker of the
    version, which is then a local specifier, or the license the registry
    declares for the pair, [[BLANK]] for a falsy one. *)
Definition origin (w : World) (name version : string) (x : JsVal) : Prop :=
  (is_local w version = true /\ x = JStr (skipped_marker version))
  \/ exists l, declared_for w name version l /\ x = js_or l (JStr "[BLANK]").

(** Every entry of the cache is truthy, and is stored under the key of a
    pair whose version holds no [@], and comes from that pair. *)
Definition cache_sound (w : World) (st : State) : Prop :=
  cache_truthy st
  /\ forall k x,
       cache_map st !! k = Some x ->
       exists name version,
         has_at version = false /\ k = cacheKey_of name version
         /\ origin w name version x.

(** Where the license [s] of a resolved record can come from. *)
Definition license_source (w : World) (pkg : PackageDotJsonDependency)
  (s : string) : Prop :=
  (is_local w (packageVersion pkg) = true /\ s = skipped_marker (packageVersion pkg))
  \/ (exists response, s = error_marker response)
  \/ (s = "[BLANK]"
      /\ exists l, declared_for w (packageName pkg) (packageVersion pkg) l
                   /\ truthy l = false)
  \/ declared_for w (packageName pkg) (packageVersion pkg) (JStr s)
  \/ (exists l, declared_for w (packageName pkg) (packageVersion pkg) l
                /\ is_object l = true /\ js_get l "type" = Some (JStr s)).

(** ** Sample worlds *)

Module Samples.

Definition two_digits (n : N) : string :=
  (if (n <? 10)%N then "0" else "") ++ pretty n.

Definition three_digits (n : N) : string :=
  (if (n <? 100)%N then "0" else "") ++ two_digits n.

(** [toISOString] of a process that starts at midnight, 1 January 2024
    (UTC), for the milliseconds of that day. *)
Definition iso_string (ms : N) : string :=
  "2024-01-01T" ++ two_digits (ms / 3600000 mod 24) ++ ":"
  ++ two_digits (ms / 60000 mod 60) ++ ":" ++ two_digits (ms / 1000 mod 60)
  ++ "." ++ three_digits (ms mod 1000) ++ "Z".

Definition not_found : FetchOutcome :=
  Rejected (Some {| status := 404; statusText := "Not Found" |}).

(** A registry that answers by URL from a table, and 404 otherwise. *)
Definition answers_of (table : list (string * JsVal)) : nat -> string -> FetchOutcome :=
  fun _ url =>
    match member_get url table with
    | Some data => Fulfilled data
    | None => not_found
    end.

Definition lower_ascii (c : ascii) : ascii :=
  let n := nat_of_ascii c in
  if (65 <=? n)%nat && (n <=? 90)%nat then ascii_of_nat (n + 32) else c.

(** The Kelvin sign, U+212A. *)
Definition kelvin_sign : string :=
  String (ascii_of_nat 226) (String (ascii_of_nat 132) (String (ascii_of_nat 170) "")).

(** The capital I with a dot above, U+0130. *)
Definition dotted_capital_i : string :=
  String (ascii_of_nat 196) (String (ascii_of_nat 176) "").

(** The combining dot above, U+0307. *)
Definition combining_dot : string :=
  String (ascii_of_nat 204) (String (ascii_of_nat 135) "").

(** [toLowerCase] of the sample worlds, on UTF-8 bytes: the capitals of
    ASCII, and the two capitals outside ASCII whose lower case holds an
    ASCII letter: the Kelvin sign becomes [k], the capital I with a dot
    becomes [i] and a combining dot.  The other characters are kept: no
    sample holds another capital, and no other character changes whether
    a lower-cased text begins with [file:] or [link:]. *)
Fixpoint lower_case (s : string) : string :=
  match s with
  | "" => ""
  | String c s' =>
      if Ascii.eqb c (ascii_of_nat 226) then
        match s' with
        | String c2 (String c3 rest) =>
            if Ascii.eqb c2 (ascii_of_nat 132) && Ascii.eqb c3 (ascii_of_nat 170)
            then String "k" (lower_case rest)
            else String c (lower_case s')
        | _ => String c (lower_case s')
        end
      else if Ascii.eqb c (ascii_of_nat 196) then
        match s' with
        | String c2 rest =>
            if Ascii.eqb c2 (ascii_of_nat 176)
            then String "i" (combining_dot ++ lower_case rest)
            else String c (lower_case s')
        | "" => String c ""
        end
      else String (lower_ascii c) (lower_case s')
  end.

(** A world with node-semver, the directory [packageJsons] holding
    [entries], the manifests [manifests] by path, and the registry
    [answers]; every suspension overruns by 2 ms and every write of a file
    succeeds. *)
Definition world_of (entries : list string) (manifests : list (string * Manifest))
  (answers : nat -> string -> FetchOutcome) : World :=
  {| semver_valid := NodeSemver.valid;
     semver_coerce := NodeSemver.coerce;
     readdir := fun dir =>
       if String.eqb dir "packageJsons" then Normal entries
       else Throw (HostError "ENOENT: no such file or directory");
     readManifest := fun path =>
       match member_get path manifests with
       | Some m => Normal m
       | None => Throw (HostError "ENOENT: no such file or directory")
       end;
     registry := answers;
     overrun := fun _ => 2%N;
     toISOString := iso_string;
     toLowerCase := lower_case;
     writeFileSync := fun _ _ _ => Normal tt |}.


(** A manifest that declares [deps] as its [dependencies] and nothing else. *)
Definition with_dependencies (deps : list (string * string)) : Manifest :=
  {| dependencies := Some deps; devDependencies := None;
     peerDependencies := None; optionalDependencies := None |}.

(** Two projects, as in the ordering example of the specification; the
    second package declares a structured license. *)
Definition two_projects : World :=
  world_of ["proj-a.json"; "README.md"; "proj-b.json"]
    [("packageJsons/proj-a.json", with_dependencies [("left-pad", "1.0.0")]);
     ("packageJsons/proj-b.json", with_dependencies [("right-pad", "^2.0.0")])]
    (answers_of
       [("https://registry.npmjs.org/left-pad/1.0.0",
         JObj [("name", JStr "left-pad"); ("license", JStr "WTFPL")]);
        ("https://registry.npmjs.org/right-pad/2.0.0",
         JObj [("name", JStr "right-pad");
               ("license", JObj [("type", JStr "MIT"); ("url", JStr "https://mit")])])]).

(** One project whose only dependency declares the license [license]. *)
Definition one_package (license : JsVal) : World :=
  world_of ["app.json"]
    [("packageJsons/app.json", with_dependencies [("widget", "1.4.0")])]
    (answers_of
       [("https://registry.npmjs.org/widget/1.4.0",
         JObj [("name", JStr "widget"); ("license", license)])]).

(** The registry body of the specification's example of a structured
    license without [type]. *)
Definition custom_license : World :=
  one_package (JObj [("name", JStr "Custom")]).

(** A structured license whose [type] is the empty string. *)
Definition empty_type : World := one_package (JObj [("type", JStr "")]).

(** Two projects that depend on the same package; the first request of the
    process times out, the later ones are answered. *)
Definition flaky : World :=
  world_of ["one.json"; "two.json"]
    [("packageJsons/one.json", with_dependencies [("widget", "1.4.0")]);
     ("packageJsons/two.json", with_dependencies [("widget", "1.4.0"); ("gadget", "2.0.0")])]
    (fun n url =>
       match n with
       | O => Rejected None
       | S _ =>
           if String.eqb url "https://registry.npmjs.org/widget/1.4.0"
           then Fulfilled (JObj [("license", JStr "ISC")])
           else not_found
       end).

(** The first request of the process times out; the registry answers every
    later one with the same license. *)
Definition any_version : World :=
  world_of ["app.json"]
    [("packageJsons/app.json", with_dependencies [("widget", "1.4.0")])]
    (fun n _ =>
       match n with
       | O => Rejected None
       | S _ => Fulfilled (JObj [("license", JStr "ISC")])
       end).

(** A project that depends on a local tarball whose file name carries a
    version; the registry knows a package of that name and version. *)
Definition local_tarball : World :=
  world_of ["app.json"]
    [("packageJsons/app.json",
      with_dependencies [("foo", "file:../vendor/foo-1.2.3.tgz")])]
    (answers_of
       [("https://registry.npmjs.org/foo/1.2.3",
         JObj [("name", JStr "foo"); ("license", JStr "MIT")])]).

(** A project that links a package of its workspace; the scheme of the
    specifier is written with the Kelvin sign.  The registry knows no
    package. *)
Definition linked : World :=
  world_of ["app.json"]
    [("packageJsons/app.json",
      with_dependencies [("ui-kit", "lin" ++ kelvin_sign ++ ":../ui-kit")])]
    (answers_of []).

(** The record of [linked]. *)
Definition ui_kit : PackageDotJsonDependency :=
  {| projectName := "app"; packageName := "ui-kit";
     packageVersion := "lin" ++ kelvin_sign ++ ":../ui-kit";
     packageLicense := None |}.

(** What the sample worlds read of a manifest by its file name. *)
Definition manifest_in (w : World) (filename : string) : Manifest :=
  match readManifest w (path_join packageFilesDir filename) with
  | Normal m => m
  | Throw _ => with_dependencies []
  end.

(** The records the sample worlds extract. *)
Definition widget_of (project : string) : PackageDotJsonDependency :=
  {| projectName := project; packageName := "widget";
     packageVersion := "1.4.0"; packageLicense := None |}.

Definition left_pad : PackageDotJsonDependency :=
  {| projectName := "proj-a"; packageName := "left-pad";
     packageVersion := "1.0.0"; packageLicense := None |}.

Definition right_pad : PackageDotJsonDependency :=
  {| projectName := "proj-b"; packageName := "right-pad";
     packageVersion := "2.0.0"; packageLicense := None |}.

(** A project whose second dependency has a name that is an array index. *)
Definition numbered_name : World :=
  world_of ["game.json"]
    [("packageJsons/game.json",
      with_dependencies [("left-pad", "1.0.0"); ("2048", "0.3.1")])]
    (answers_of []).

(** A project whose manifest declares the package [a] twice. *)
Definition twice_declared : World :=
  world_of ["app.json"]
    [("packageJsons/app.json",
      with_dependencies [("a", "1.0.0"); ("b", "2.0.0"); ("a", "3.0.0")])]
    (answers_of []).

(** A project that declares dependencies of both kinds; [left-pad] is among
    both. *)
Definition both_kinds : World :=
  world_of ["app.json"]
    [("packageJsons/app.json",
      {| dependencies := Some [("left-pad", "1.0.0")];
         devDependencies := Some [("jest", "^29.7.0"); ("left-pad", "1.0.0")];
         peerDependencies := None; optionalDependencies := None |})]
    (answers_of
       [("https://registry.npmjs.org/left-pad/1.0.0",
         JObj [("name", JStr "left-pad"); ("license", JStr "WTFPL")]);
        ("https://registry.npmjs.org/jest/29.7.0",
         JObj [("name", JStr "jest"); ("license", JStr "MIT")])]).

(** A directory whose second manifest cannot be read. *)
Definition unreadable : World :=
  world_of ["app.json"; "broken.json"; "lib.json"]
    [("packageJsons/app.json", with_dependencies [("widget", "1.4.0")]);
     ("packageJsons/lib.json", with_dependencies [("gadget", "2.0.0")])]
    (answers_of []).

(** Two projects that depend on the same package, and a registry that
    answers every request with the same license. *)
Definition all_mit : World :=
  world_of ["one.json"; "two.json"]
    [("packageJsons/one.json", with_dependencies [("widget", "1.4.0")]);
     ("packageJsons/two.json", with_dependencies [("widget", "1.4.0"); ("gadget", "2.0.0")])]
    (fun _ _ => Fulfilled (JObj [("license", JStr "MIT")])).

(** The records of [all_mit]. *)
Definition gadget : PackageDotJsonDependency :=
  {| projectName := "two"; packageName := "gadget";
     packageVersion := "2.0.0"; packageLicense := None |}.


(** The directory of [two_projects], in which [README.md] happens to be a
    parsable manifest. *)
Definition readable_readme : World :=
  world_of ["proj-a.json"; "README.md"; "proj-b.json"]
    [("packageJsons/proj-a.json", with_dependencies [("left-pad", "1.0.0")]);
     ("packageJsons/README.md", with_dependencies [("is-odd", "3.0.1")]);
     ("packageJsons/proj-b.json", with_dependencies [("right-pad", "^2.0.0")])]
    (answers_of []).

End Samples.

(** * Properties *)

(** Unfolds the operations of the monad and of the state. *)
Ltac run :=
  unfold bind, ret, throw, lift, perform, read, cache_write, cache_read,
    sleep, axios_get, set_cache, emit, advance, count_request;
  simpl.

(** ** Strings *)

Lemma prefix_app (p s : string) : String.prefix p (p ++ s) = true.
Proof.
  induction p as [|c p IH]; simpl.
  - by destruct s.
  - rewrite IH. by destruct (ascii_dec c c).
Qed.

(** The model of [semver] on the examples of the package's documentation. *)
Lemma semver_examples :
  NodeSemver.valid "1.2.3" = Some "1.2.3"
  /\ NodeSemver.valid "a.b.c" = None
  /\ version <$> NodeSemver.coerce "v2" = Some "2.0.0"
  /\ version <$> NodeSemver.coerce "42.6.7.9.3-alpha" = Some "42.6.7".
Proof. split_and!; by vm_compute. Qed.

Lemma flat_map_all_nil {A B} (f : A -> list B) (l : list A) :
  (forall x, In x l -> f x = []) -> flat_map f l = [].
Proof.
  induction l as [|x l IH]; intros H; simpl; [done|].
  rewrite (H x) by by left. apply IH. intros y Hy. apply H. by right.
Qed.

(** ** The monad *)

Section Monad.

Context {A B : Type}.

Lemma bind_normal (m : M A) (k : A -> M B) st a st' :
  m st = (Normal a, st') -> bind m k st = k a st'.
Proof. intros H. unfold bind. by rewrite H. Qed.

(** A normal completion of [bind] went through a normal completion of its
    first part. *)
Lemma bind_inv_normal (m : M A) (k : A -> M B) st b st'' :
  bind m k st = (Normal b, st'') ->
  exists a st', m st = (Normal a, st') /\ k a st' = (Normal b, st'').
Proof.
  unfold bind. destruct (m st) as [[a|e] st'] eqn:E; [eauto | discriminate].
Qed.

End Monad.

Section Preserves.

Context {A B : Type} (I : State -> Prop).

Lemma preserves_ret (a : A) : preserves I (ret a).
Proof. by intros st H. Qed.

Lemma preserves_throw (e : Exception) : preserves I (@throw A e).
Proof. by intros st H. Qed.

Lemma preserves_lift (c : Completion A) : preserves I (lift c).
Proof. by intros st H. Qed.

Lemma preserves_read (f : State -> A) : preserves I (read f).
Proof. by intros st H. Qed.

Lemma preserves_perform (f : State -> State) :
  (forall st, I st -> I (f st)) -> preserves I (perform f).
Proof. intros Hf st H. by apply Hf. Qed.

Lemma preserves_bind (m : M A) (k : A -> M B) :
  preserves I m -> (forall a, preserves I (k a)) -> preserves I (bind m k).
Proof.
  intros Hm Hk st H. unfold bind.
  specialize (Hm st H). destruct (m st) as [[a|e] st']; simpl in *.
  - by apply Hk.
  - done.
Qed.

End Preserves.

(** ** The cache *)

Section Cache.

Variable w : World.

Lemma has_at_app a b : has_at (a ++ "@" ++ b) = true.
Proof. induction a as [|c a IH]; simpl; [done|]. by rewrite IH, orb_true_r. Qed.

(** The last [@] of a text splits it in one way only. *)
Lemma at_split a b a' b' :
  has_at b = false -> has_at b' = false ->
  a ++ "@" ++ b = a' ++ "@" ++ b' -> a = a' /\ b = b'.
Proof.
  intros Hb Hb'. revert a'. induction a as [|c a IH]; intros [|c' a'] E.
  - change (String "@" b = String "@" b') in E. by injection E as ->.
  - change (String "@" b = String c' (a' ++ "@" ++ b')) in E.
    injection E as <- ->. by rewrite has_at_app in Hb.
  - change (String c (a ++ "@" ++ b) = String "@" b') in E.
    injection E as -> <-. by rewrite has_at_app in Hb'.
  - change (String c (a ++ "@" ++ b) = String c' (a' ++ "@" ++ b')) in E.
    injection E as <- E. by destruct (IH _ E) as [-> ->].
Qed.

(** A cache key is no inherited property name, so reading [cache[cacheKey]]
    finds an entry of the cache or nothing. *)
Lemma cacheKey_not_inherited n v : cacheKey_of n v ∉ Object_prototype_keys.
Proof.
  intros H. pose proof (has_at_app n v) as Ha. fold (cacheKey_of n v) in Ha.
  unfold Object_prototype_keys in H.
  repeat (apply elem_of_cons in H as [E|H]; [rewrite E in Ha; by vm_compute in Ha|]).
  by apply elem_of_nil in H.
Qed.

Lemma cache_lookup_ensure st k :
  cache_lookup (ensure_cache st).2 k = cache_lookup st k.
Proof.
  unfold ensure_cache, cache_lookup.
  destruct (cache st) eqn:E; simpl; rewrite ?E; [done|].
  by rewrite lookup_empty.
Qed.

Lemma cache_lookup_set_eq c st k :
  cache_lookup (set_cache c st) k = default JUndefined (c !! k).
Proof. done. Qed.

Lemma truthy_lookup_cache st k :
  truthy (cache_lookup st k) = true ->
  exists c, cache st = Some c /\ c !! k = Some (cache_lookup st k).
Proof.
  unfold cache_lookup. destruct (cache st) as [c|]; simpl; [|done].
  destruct (c !! k) as [v|] eqn:E; simpl; [eauto | done].
Qed.

(** Only existing entries are read back as truthy, so a hit leaves the
    state as it is. *)
Lemma ensure_cache_hit st k :
  truthy (cache_lookup st k) = true -> ensure_cache st = (Normal tt, st).
Proof.
  intros H. destruct (truthy_lookup_cache _ _ H) as (c & Hc & _).
  unfold ensure_cache. by rewrite Hc.
Qed.

Lemma after_request_trace url st :
  trace (after_request w url st)
  = Requested url (clock st + (1001 + overrun w (length (trace st))))
    :: Slept 1001 :: trace st.
Proof.
  unfold after_request, ensure_cache.
  destruct (cache st) eqn:E; simpl; by rewrite ?E.
Qed.

Lemma after_request_requests url st :
  requests (after_request w url st) = S (requests st).
Proof.
  unfold after_request, ensure_cache.
  destruct (cache st) eqn:E; simpl; by rewrite ?E.
Qed.

Lemma after_request_clock url st :
  clock (after_request w url st)
  = (clock st + (1001 + overrun w (length (trace st)))
     + overrun w (S (S (length (trace st)))))%N.
Proof.
  unfold after_request, ensure_cache.
  destruct (cache st) eqn:E; simpl; by rewrite ?E.
Qed.

Lemma after_request_cache url st :
  cache (after_request w url st) = Some (default ∅ (cache st)).
Proof.
  unfold after_request, ensure_cache.
  destruct (cache st) eqn:E; simpl; by rewrite ?E.
Qed.

Lemma cache_lookup_after_request url st k :
  cache_lookup (after_request w url st) k = cache_lookup st k.
Proof.
  unfold cache_lookup. rewrite after_request_cache. by destruct (cache st).
Qed.

(** What a call of [fetchLicenseForPackage] does on each of its paths. *)

Lemma fetch_hit n v st :
  fetch_path w n v st = CacheHit ->
  fetchLicenseForPackage w n v st
  = (Normal (cache_lookup st (cacheKey_of n v)), st).
Proof.
  unfold fetch_path. intros H.
  destruct (truthy (cache_lookup st (cacheKey_of n v))) eqn:Ht.
  - unfold fetchLicenseForPackage.
    rewrite (bind_normal _ _ _ _ _ (ensure_cache_hit _ _ Ht)).
    unfold bind, cache_read, read. by rewrite Ht.
  - destruct (is_local w v); [done|]. by destruct (declared_license _).
Qed.

Lemma fetch_miss_prefix n v st :
  truthy (cache_lookup st (cacheKey_of n v)) = false ->
  fetchLicenseForPackage w n v st
  = (if is_local w v then
       let packageLicense := JStr (skipped_marker v) in
       cache_write (cacheKey_of n v) packageLicense ;;; ret packageLicense
     else
       sleep w "Let's not DoS the npmjs.org registry" 1001 ;;;
       fetchResponse <- axios_get w (registryUrl_of n v) ;;
       match fetchResponse with
       | Fulfilled data =>
           match js_get data "license" with
           | Some license =>
               let packageLicense := js_or license (JStr "[BLANK]") in
               cache_write (cacheKey_of n v) packageLicense ;;;
               ret packageLicense
           | None => ret (JStr (error_marker None))
           end
       | Rejected response => ret (JStr (error_marker response))
       end) (ensure_cache st).2.
Proof.
  intros Ht. unfold fetchLicenseForPackage.
  unfold bind at 1. destruct (ensure_cache st) as [[[]|e] st0] eqn:E.
  - unfold bind at 1. unfold cache_read, read.
    assert (cache_lookup st0 (cacheKey_of n v) = cache_lookup st (cacheKey_of n v)) as ->.
    { replace st0 with (ensure_cache st).2 by by rewrite E.
      apply cache_lookup_ensure. }
    by rewrite Ht.
  - unfold ensure_cache in E. by destruct (cache st).
Qed.

Lemma fetch_skip n v st :
  fetch_path w n v st = LocalSkip ->
  fetchLicenseForPackage w n v st
  = (Normal (JStr (skipped_marker v)),
     set_cache (<[cacheKey_of n v := JStr (skipped_marker v)]> (default ∅ (cache st))) st).
Proof.
  unfold fetch_path. intros H.
  destruct (truthy (cache_lookup st (cacheKey_of n v))) eqn:Ht; [done|].
  destruct (is_local w v) eqn:Hl; [|by destruct (declared_license _)].
  rewrite (fetch_miss_prefix _ _ _ Ht), Hl.
  unfold ensure_cache. destruct (cache st) eqn:E; run; by rewrite ?E.
Qed.

Lemma fetch_success n v st :
  fetch_path w n v st = RegistrySuccess ->
  exists license,
    declared_license (registry w (requests st) (registryUrl_of n v)) = Some license
    /\ fetchLicenseForPackage w n v st
       = (Normal (js_or license (JStr "[BLANK]")),
          set_cache (<[cacheKey_of n v := js_or license (JStr "[BLANK]")]>
                       (default ∅ (cache st)))
            (after_request w (registryUrl_of n v) st)).
Proof.
  unfold fetch_path. intros H.
  destruct (truthy (cache_lookup st (cacheKey_of n v))) eqn:Ht; [done|].
  destruct (is_local w v) eqn:Hl; [done|].
  destruct (declared_license _) as [license|] eqn:Hd; [|done].
  exists license. split; [done|].
  rewrite (fetch_miss_prefix _ _ _ Ht), Hl.
  unfold after_request, ensure_cache.
  destruct (cache st) as [c|] eqn:Hc; simpl;
    unfold bind, sleep, axios_get; simpl;
    destruct (registry w (requests st) (registryUrl_of n v)) as [data|r];
    simpl in Hd; try done; rewrite Hd; simpl;
    unfold cache_write, perform, set_cache, ret; simpl; by rewrite ?Hc.
Qed.

Lemma fetch_failure n v st :
  fetch_path w n v st = RegistryFailure ->
  fetchLicenseForPackage w n v st
  = (Normal (JStr (error_marker
                     (failure_response
                        (registry w (requests st) (registryUrl_of n v))))),
     after_request w (registryUrl_of n v) st).
Proof.
  unfold fetch_path. intros H.
  destruct (truthy (cache_lookup st (cacheKey_of n v))) eqn:Ht; [done|].
  destruct (is_local w v) eqn:Hl; [done|].
  destruct (declared_license _) as [license|] eqn:Hd; [done|].
  rewrite (fetch_miss_prefix _ _ _ Ht), Hl.
  unfold after_request, ensure_cache.
  destruct (cache st) as [c|] eqn:Hc; simpl;
    unfold bind, sleep, axios_get; simpl;
    destruct (registry w (requests st) (registryUrl_of n v)) as [data|r];
    simpl in Hd; try done; by rewrite ?Hd.
Qed.

End Cache.

(** ** Lookups *)

Section Lookups.

Variable w : World.

Lemma truthy_js_or_blank license : truthy (js_or license (JStr "[BLANK]")) = true.
Proof. unfold js_or. by destruct (truthy license) eqn:E. Qed.

(** The four paths are all there is, and none of them throws. *)
Lemma fetch_normal n v st :
  exists license,
    fetchLicenseForPackage w n v st
    = (Normal license, (fetchLicenseForPackage w n v st).2).
Proof.
  destruct (fetch_path w n v st) eqn:P.
  - rewrite (fetch_hit _ _ _ _ P). eauto.
  - rewrite (fetch_skip _ _ _ _ P). eauto.
  - destruct (fetch_success _ _ _ _ P) as (l & _ & ->). eauto.
  - rewrite (fetch_failure _ _ _ _ P). eauto.
Qed.

Lemma path_hit n v st :
  fetch_path w n v st = CacheHit ->
  truthy (cache_lookup st (cacheKey_of n v)) = true.
Proof.
  unfold fetch_path.
  destruct (truthy (cache_lookup st (cacheKey_of n v))); [done|].
  destruct (is_local w v); [done|]. by destruct (declared_license _).
Qed.

(** Whatever a lookup returns is truthy. *)
Lemma fetch_truthy n v st license st' :
  fetchLicenseForPackage w n v st = (Normal license, st') ->
  truthy license = true.
Proof.
  destruct (fetch_path w n v st) eqn:P.
  - rewrite (fetch_hit _ _ _ _ P). intros [= <- <-]. by apply path_hit.
  - rewrite (fetch_skip _ _ _ _ P). by intros [= <- <-].
  - destruct (fetch_success _ _ _ _ P) as (l & _ & ->). intros [= <- <-].
    apply truthy_js_or_blank.
  - rewrite (fetch_failure _ _ _ _ P). intros [= <- <-].
    unfold error_marker. by destruct (failure_response _).
Qed.

(** A path other than a hit starts from a miss. *)
Lemma path_miss n v st :
  fetch_path w n v st <> CacheHit ->
  truthy (cache_lookup st (cacheKey_of n v)) = false.
Proof.
  unfold fetch_path.
  by destruct (truthy (cache_lookup st (cacheKey_of n v))).
Qed.

(** A lookup writes the cache at its own key only, and only after a miss:
    an entry that reads as truthy stays. *)
Lemma fetch_keeps_entry n v st k :
  truthy (cache_lookup st k) = true ->
  cache_lookup (fetchLicenseForPackage w n v st).2 k = cache_lookup st k.
Proof.
  intros Hx.
  assert (fetch_path w n v st <> CacheHit -> cacheKey_of n v <> k) as Hne.
  { intros P E. apply path_miss in P. rewrite E in P. congruence. }
  destruct (fetch_path w n v st) eqn:P.
  - by rewrite (fetch_hit _ _ _ _ P).
  - rewrite (fetch_skip _ _ _ _ P). simpl.
    rewrite cache_lookup_set_eq, lookup_insert_ne by by apply Hne.
    unfold cache_lookup. by destruct (cache st).
  - destruct (fetch_success _ _ _ _ P) as (l & _ & ->). simpl.
    rewrite cache_lookup_set_eq, lookup_insert_ne by by apply Hne.
    unfold cache_lookup. by destruct (cache st).
  - rewrite (fetch_failure _ _ _ _ P). simpl.
    apply cache_lookup_after_request.
Qed.

Lemma later_keeps_entry st st' k :
  Later w st st' ->
  truthy (cache_lookup st k) = true ->
  cache_lookup st' k = cache_lookup st k.
Proof.
  induction 1 as [|st' n v _ IH|st' st'' _ IH Hc]; intros Hx.
  - done.
  - rewrite <- (IH Hx). apply fetch_keeps_entry. by rewrite (IH Hx).
  - rewrite <- (IH Hx). unfold cache_lookup. by rewrite Hc.
Qed.

(** A lookup that finds its key in the cache returns the entry and changes
    nothing. *)
Lemma fetch_cached n v st :
  truthy (cache_lookup st (cacheKey_of n v)) = true ->
  fetchLicenseForPackage w n v st
  = (Normal (cache_lookup st (cacheKey_of n v)), st).
Proof.
  intros H. apply fetch_hit. unfold fetch_path. by rewrite H.
Qed.

(** What a lookup leaves under its key: the value it returned, unless the
    lookup failed. *)
Lemma fetch_stores n v st license st' :
  fetchLicenseForPackage w n v st = (Normal license, st') ->
  fetch_path w n v st <> RegistryFailure ->
  cache_lookup st' (cacheKey_of n v) = license.
Proof.
  destruct (fetch_path w n v st) eqn:P; intros E NF.
  - rewrite (fetch_hit _ _ _ _ P) in E. by injection E as <- <-.
  - rewrite (fetch_skip _ _ _ _ P) in E. injection E as <- <-.
    by rewrite cache_lookup_set_eq, lookup_insert_eq.
  - destruct (fetch_success _ _ _ _ P) as (l & _ & E'). rewrite E' in E.
    injection E as <- <-. by rewrite cache_lookup_set_eq, lookup_insert_eq.
  - done.
Qed.

(** The cache invariant of the program. *)
Lemma fetch_cache_truthy n v : preserves cache_truthy (fetchLicenseForPackage w n v).
Proof.
  intros st H.
  assert (forall c' x, (forall k v, c' !! k = Some v -> truthy v = true) ->
            truthy x = true ->
            cache_truthy (set_cache (<[cacheKey_of n v := x]> c') st)) as Hins.
  { intros c' x Hc' Hx c k y [= <-]. rewrite lookup_insert.
    case_decide; [by intros [= <-] | apply Hc']. }
  assert (forall k y, default ∅ (cache st) !! k = Some y -> truthy y = true) as Hd.
  { intros k y. destruct (cache st) as [c|] eqn:Hc; simpl.
    - by apply H.
    - by rewrite lookup_empty. }
  destruct (fetch_path w n v st) eqn:P.
  - by rewrite (fetch_hit _ _ _ _ P).
  - rewrite (fetch_skip _ _ _ _ P). simpl. by apply Hins.
  - destruct (fetch_success _ _ _ _ P) as (l & _ & ->). simpl.
    intros c k y [= <-]. rewrite lookup_insert.
    case_decide; [intros [= <-]; apply truthy_js_or_blank | apply Hd].
  - rewrite (fetch_failure _ _ _ _ P). simpl.
    intros c k y. rewrite after_request_cache. intros [= <-]. apply Hd.
Qed.

End Lookups.

(** ** State properties that the whole program keeps *)

Section Pipeline.

Variable w : World.
Variable I : State -> Prop.

Hypothesis fetch_I : forall n v, preserves I (fetchLicenseForPackage w n v).
Hypothesis stdout_I : forall text st, I st -> I (emit (StdoutWrite text) st).
Hypothesis warn_I : forall text st, I st -> I (emit (ConsoleWarn text) st).
Hypothesis table_I : forall rows st, I st -> I (emit (ConsoleTable rows) st).
Hypothesis file_I : forall name content st, I st -> I (emit (FileWritten name content) st).
Hypothesis failed_I : forall name st, I st -> I (emit (FileWriteFailed name) st).

Lemma normalize_license_preserves license : preserves I (normalize_license license).
Proof.
  unfold normalize_license.
  destruct (negb (is_null license) && String.eqb (typeof license) "object");
    [|apply preserves_ret].
  destruct (js_get license "type") as [[]|];
    (apply preserves_ret || apply preserves_throw).
Qed.

Lemma resolve_package_preserves type pkg : preserves I (resolve_package w type pkg).
Proof.
  unfold resolve_package.
  apply preserves_bind; [apply preserves_perform, stdout_I|intros _].
  apply preserves_bind; [apply fetch_I|intros license].
  apply preserves_bind; [apply normalize_license_preserves|intros license'].
  apply preserves_bind; [apply preserves_perform, stdout_I|intros _].
  destruct license'; try apply preserves_throw.
  apply preserves_bind; [apply preserves_perform, stdout_I|intros _].
  apply preserves_ret.
Qed.

Lemma resolve_packages_preserves type packages :
  preserves I (resolve_packages w type packages).
Proof.
  induction packages as [|pkg rest IH]; simpl.
  - apply preserves_ret.
  - apply preserves_bind; [apply resolve_package_preserves|intros pkg'].
    apply preserves_bind; [apply IH|intros rest']. apply preserves_ret.
Qed.

Lemma read_manifests_preserves type filenames acc :
  preserves I (read_manifests w type filenames acc).
Proof.
  revert acc. induction filenames as [|filename rest IH]; intros acc; simpl.
  - apply preserves_ret.
  - apply preserves_bind; [apply preserves_lift|intros packageData].
    destruct (manifest_get packageData type); [apply IH|].
    apply preserves_bind; [apply preserves_perform, warn_I|intros _]. apply IH.
Qed.

Lemma getDependencies_preserves type : preserves I (getDependencies w type).
Proof.
  unfold getDependencies.
  apply preserves_bind; [apply preserves_lift|intros names].
  apply read_manifests_preserves.
Qed.

Lemma writeCsvFile_preserves packages type :
  preserves I (writeCsvFile w packages type).
Proof.
  unfold writeCsvFile.
  apply preserves_bind; [apply preserves_lift|intros csvContent].
  apply preserves_bind; [apply preserves_read|intros stamp].
  intros st Hst. unfold fs_writeFileSync.
  destruct (writeFileSync w _ _ _); [by apply file_I|by apply failed_I].
Qed.

Lemma checkDependencies_preserves type : preserves I (checkDependencies w type).
Proof.
  unfold checkDependencies.
  apply preserves_bind; [apply getDependencies_preserves|intros packages].
  apply preserves_bind; [apply resolve_packages_preserves|intros packages'].
  apply preserves_bind; [apply preserves_perform, table_I|intros _].
  apply preserves_bind; [apply writeCsvFile_preserves|intros _].
  apply preserves_ret.
Qed.

Lemma init_preserves : preserves I (init w).
Proof.
  unfold init.
  apply preserves_bind; [apply checkDependencies_preserves|intros _].
  apply preserves_bind; [apply checkDependencies_preserves|intros _].
  apply preserves_ret.
Qed.

End Pipeline.

(** ** Pacing *)

Section Pacing.

Variable w : World.

Lemma well_paced_emit e st :
  (forall url t, e <> Requested url t) ->
  well_paced st -> well_paced (emit e st).
Proof.
  intros He H. unfold well_paced in *. simpl.
  destruct e; try done. by destruct (He url at_ms).
Qed.

Lemma well_paced_set_cache c st : well_paced st -> well_paced (set_cache c st).
Proof. done. Qed.

(** The delay before a request keeps the requests apart. *)
Lemma well_paced_after_request url st :
  well_paced st -> well_paced (after_request w url st).
Proof.
  intros (Hs & Hc & Hd). unfold well_paced.
  rewrite after_request_trace, after_request_clock. simpl. split_and!.
  - destruct (request_times (trace st)) as [|t1 older]; [done|].
    apply Forall_cons in Hc as [Ht1 _]. lia.
  - done.
  - constructor; [lia|].
    eapply Forall_impl; [exact Hc|]. simpl. intros t Ht. lia.
  - done.
  - done.
Qed.

Lemma fetch_well_paced n v : preserves well_paced (fetchLicenseForPackage w n v).
Proof.
  intros st H. destruct (fetch_path w n v st) eqn:P.
  - by rewrite (fetch_hit _ _ _ _ P).
  - by rewrite (fetch_skip _ _ _ _ P).
  - destruct (fetch_success _ _ _ _ P) as (l & _ & ->). simpl.
    by apply well_paced_set_cache, well_paced_after_request.
  - rewrite (fetch_failure _ _ _ _ P). by apply well_paced_after_request.
Qed.

Lemma init_well_paced : preserves well_paced (init w).
Proof.
  apply init_preserves; [apply fetch_well_paced|..]; intros;
    by apply well_paced_emit.
Qed.

Lemma well_paced_initial : well_paced initial_state.
Proof. by split_and!. Qed.

End Pacing.

(** ** What a lookup stores *)

Section Stores.

Variable w : World.

Lemma cache_truthy_emit e st : cache_truthy st -> cache_truthy (emit e st).
Proof. done. Qed.

Lemma init_cache_truthy : preserves cache_truthy (init w).
Proof.
  apply init_preserves; [apply fetch_cache_truthy|..]; intros;
    by apply cache_truthy_emit.
Qed.

Lemma cache_truthy_initial : cache_truthy initial_state.
Proof. by intros c k v. Qed.

(** What a lookup leaves at a key of the cache: what was there, its skip
    marker, or the license the registry declared ([[BLANK]] for a falsy
    one). *)
Lemma fetch_writes n v st k :
  let st' := (fetchLicenseForPackage w n v st).2 in
  cache_lookup st' k = cache_lookup st k
  \/ (k = cacheKey_of n v /\ is_local w v = true
      /\ cache_lookup st' k = JStr (skipped_marker v))
  \/ (k = cacheKey_of n v
      /\ exists license,
           declared_license (registry w (requests st) (registryUrl_of n v))
           = Some license
           /\ cache_lookup st' k = js_or license (JStr "[BLANK]")).
Proof.
  simpl. destruct (decide (k = cacheKey_of n v)) as [->|Hk].
  - destruct (fetch_path w n v st) eqn:P.
    + left. by rewrite (fetch_hit _ _ _ _ P).
    + right. left. rewrite (fetch_skip _ _ _ _ P). simpl.
      rewrite cache_lookup_set_eq, lookup_insert_eq. split_and!; [done| |done].
      unfold fetch_path in P.
      destruct (truthy (cache_lookup st (cacheKey_of n v))); [done|].
      destruct (is_local w v); [done|]. by destruct (declared_license _).
    + right. right. destruct (fetch_success _ _ _ _ P) as (l & Hl & ->).
      simpl. rewrite cache_lookup_set_eq, lookup_insert_eq. eauto.
    + left. rewrite (fetch_failure _ _ _ _ P). simpl.
      apply cache_lookup_after_request.
  - left. destruct (fetch_path w n v st) eqn:P.
    + by rewrite (fetch_hit _ _ _ _ P).
    + rewrite (fetch_skip _ _ _ _ P). simpl.
      rewrite cache_lookup_set_eq, lookup_insert_ne by done.
      unfold cache_lookup. by destruct (cache st).
    + destruct (fetch_success _ _ _ _ P) as (l & _ & ->). simpl.
      rewrite cache_lookup_set_eq, lookup_insert_ne by done.
      unfold cache_lookup. by destruct (cache st).
    + rewrite (fetch_failure _ _ _ _ P). simpl.
      apply cache_lookup_after_request.
Qed.

End Stores.

(** ** The loop body of [checkDependencies] *)

Section LoopBody.

Variable w : World.

(** A license that is a string is reported as it is. *)
Lemma resolve_package_string type pkg st s st1 :
  fetchLicenseForPackage w (packageName pkg) (packageVersion pkg)
    (emit (StdoutWrite (checkingDisplayMessage type pkg)) st)
  = (Normal (JStr s), st1) ->
  resolve_package w type pkg st
  = (Normal (set_packageLicense pkg (JStr s)), reported type pkg s st1).
Proof.
  intros E. unfold resolve_package.
  unfold bind at 1. unfold perform at 1. unfold bind at 1. by rewrite E.
Qed.



(** A license that is neither a string nor an object, such as a number,
    ends the run at the call of [startsWith]. *)
Lemma resolve_package_scalar type pkg st license st1 :
  fetchLicenseForPackage w (packageName pkg) (packageVersion pkg)
    (emit (StdoutWrite (checkingDisplayMessage type pkg)) st)
  = (Normal license, st1) ->
  is_object license = false ->
  (forall s, license <> JStr s) ->
  resolve_package w type pkg st
  = (Throw (TypeError "pkg.packageLicense.startsWith is not a function"),
     emit (StdoutWrite (backupConsole (js_length (checkingDisplayMessage type pkg))))
       st1).
Proof.
  intros E Ho Hs. unfold resolve_package.
  unfold bind at 1. unfold perform at 1. unfold bind at 1. rewrite E.
  unfold bind at 1. unfold normalize_license.
  unfold is_object in Ho. rewrite Ho. run.
  destruct license; try done. by destruct (Hs s).
Qed.

(** The loop body ends normally with a string in the license field, or
    throws. *)
Lemma resolve_package_normal type pkg st pkg' st' :
  resolve_package w type pkg st = (Normal pkg', st') ->
  exists license s st1,
    fetchLicenseForPackage w (packageName pkg) (packageVersion pkg)
      (emit (StdoutWrite (checkingDisplayMessage type pkg)) st)
    = (Normal license, st1)
    /\ (license = JStr s
        \/ (is_object license = true /\ js_get license "type" = Some (JStr s)))
    /\ pkg' = set_packageLicense pkg (JStr s)
    /\ st' = reported type pkg s st1.
Proof.
  unfold resolve_package.
  unfold bind at 1. unfold perform at 1. unfold bind at 1.
  destruct (fetchLicenseForPackage w _ _ _) as [[license|e] st1] eqn:E;
    [|done].
  unfold bind at 1. unfold normalize_license. fold (is_object license).
  destruct (is_object license) eqn:Ho.
  - destruct (js_get license "type") as [[| | | |t| |]|] eqn:G; try done.
    run. intros [= <- <-]. exists license, t, st1. auto.
  - run. destruct license as [| | | |s| |]; try done.
    intros [= <- <-]. exists (JStr s), s, st1. auto.
Qed.

End LoopBody.

(** ** Repeated lookups *)

Section Repeats.

Variable w : World.

(** A hit and a skip add no event and take no time. *)
Lemma fetch_quiet n v st :
  fetch_path w n v st = CacheHit \/ fetch_path w n v st = LocalSkip ->
  trace (fetchLicenseForPackage w n v st).2 = trace st
  /\ clock (fetchLicenseForPackage w n v st).2 = clock st
  /\ requests (fetchLicenseForPackage w n v st).2 = requests st.
Proof.
  intros [P|P].
  - by rewrite (fetch_hit _ _ _ _ P).
  - by rewrite (fetch_skip _ _ _ _ P).
Qed.

(** A lookup that reaches the network waits, then sends one request. *)
Lemma fetch_request n v st :
  fetch_path w n v st = RegistrySuccess \/ fetch_path w n v st = RegistryFailure ->
  requests (fetchLicenseForPackage w n v st).2 = S (requests st)
  /\ exists t,
       trace (fetchLicenseForPackage w n v st).2
       = Requested (registryUrl_of n v) t :: Slept 1001 :: trace st
       /\ (clock st + 1001 <= t)%N.
Proof.
  intros [P|P].
  - destruct (fetch_success _ _ _ _ P) as (l & _ & ->).
    unfold set_cache. cbn [snd trace requests].
    rewrite after_request_trace, after_request_requests.
    split; [done|]. eexists. split; [done|lia].
  - rewrite (fetch_failure _ _ _ _ P). cbn [snd].
    rewrite after_request_trace, after_request_requests.
    split; [done|]. eexists. split; [done|lia].
Qed.

(** The result of a lookup that did not fail is under its key, and a later
    lookup of the pair returns it and changes nothing. *)
Lemma fetch_repeat n v st license st1 st2 :
  fetchLicenseForPackage w n v st = (Normal license, st1) ->
  fetch_path w n v st <> RegistryFailure ->
  Later w st1 st2 ->
  cache_lookup st1 (cacheKey_of n v) = license
  /\ fetchLicenseForPackage w n v st2 = (Normal license, st2).
Proof.
  intros E NF HL.
  pose proof (fetch_stores _ _ _ _ _ _ E NF) as Hs.
  pose proof (fetch_truthy _ _ _ _ _ _ E) as Ht.
  assert (cache_lookup st2 (cacheKey_of n v) = license) as H2.
  { rewrite <- Hs. apply (later_keeps_entry w); [done|]. by rewrite Hs. }
  split; [done|].
  rewrite <- H2 at 1. apply fetch_cached. by rewrite H2.
Qed.

Lemma path_failure_not_local n v st :
  fetch_path w n v st = RegistryFailure -> is_local w v = false.
Proof.
  unfold fetch_path.
  destruct (truthy (cache_lookup st (cacheKey_of n v))); [done|].
  by destruct (is_local w v).
Qed.

(** A miss for a version that is not local reaches the network. *)
Lemma path_miss_network n v st :
  truthy (cache_lookup st (cacheKey_of n v)) = false ->
  is_local w v = false ->
  fetch_path w n v st = RegistrySuccess \/ fetch_path w n v st = RegistryFailure.
Proof.
  intros Hm Hl. unfold fetch_path. rewrite Hm, Hl.
  destruct (declared_license _); auto.
Qed.

Lemma path_local n v st :
  is_local w v = true ->
  fetch_path w n v st = CacheHit \/ fetch_path w n v st = LocalSkip.
Proof.
  intros Hl. unfold fetch_path. rewrite Hl.
  destruct (truthy (cache_lookup st (cacheKey_of n v))); auto.
Qed.

(** The key is the name and the version: the lookup of a pair leaves the
    entries of the other pairs as they were. *)
Lemma fetch_frame n v n' v' st :
  has_at v = false -> has_at v' = false -> (n', v') <> (n, v) ->
  cache_lookup (fetchLicenseForPackage w n' v' st).2 (cacheKey_of n v)
  = cache_lookup st (cacheKey_of n v).
Proof.
  intros Hv Hv' Hne.
  destruct (fetch_writes w n' v' st (cacheKey_of n v)) as [H|[(E & _)|(E & _)]];
    [done| |];
    unfold cacheKey_of in E; apply at_split in E as [-> ->]; done.
Qed.

Lemma elsewhere_keeps n v st st' :
  has_at v = false -> Elsewhere w n v st st' ->
  cache_lookup st' (cacheKey_of n v) = cache_lookup st (cacheKey_of n v).
Proof.
  intros Hv. induction 1 as [|st' n' v' _ IH Hne Hv'|st' st'' _ IH Hc].
  - done.
  - rewrite <- IH. by apply fetch_frame.
  - rewrite <- IH. unfold cache_lookup. by rewrite Hc.
Qed.

(** Every state of a run is at or after the states before it. *)
Lemma init_later st : Later w st (init w st).2.
Proof.
  apply (init_preserves w (Later w st)).
  - intros n v st' H. by apply Later_lookup.
  - intros text st' H. by eapply Later_other.
  - intros text st' H. by eapply Later_other.
  - intros rows st' H. by eapply Later_other.
  - intros name content st' H. by eapply Later_other.
  - intros name st' H. by eapply Later_other.
  - apply Later_now.
Qed.

End Repeats.

(** ** Extraction and the loop *)

Section Run.

Variable w : World.


(** The lookups and the progress lines hand nothing to the sink. *)
Lemma fetch_sink_events n v st :
  sink_events (trace (fetchLicenseForPackage w n v st).2) = sink_events (trace st).
Proof.
  destruct (fetch_path w n v st) eqn:P.
  - destruct (fetch_quiet w n v st) as (-> & _); auto.
  - destruct (fetch_quiet w n v st) as (-> & _); auto.
  - destruct (fetch_request w n v st) as (_ & t & -> & _); auto.
  - destruct (fetch_request w n v st) as (_ & t & -> & _); auto.
Qed.

Lemma resolve_packages_sink_events type packages st :
  sink_events (trace (resolve_packages w type packages st).2)
  = sink_events (trace st).
Proof.
  apply (resolve_packages_preserves w
           (fun st' => sink_events (trace st') = sink_events (trace st))).
  - intros n v st' <-. apply fetch_sink_events.
  - by intros text st' <-.
  - done.
Qed.

Lemma getDependencies_sink_events type st :
  sink_events (trace (getDependencies w type st).2) = sink_events (trace st).
Proof.
  apply (getDependencies_preserves w
           (fun st' => sink_events (trace st') = sink_events (trace st))).
  - by intros text st' <-.
  - done.
Qed.

Lemma files_written_sink_events tr tr' :
  sink_events tr = sink_events tr' -> files_written tr = files_written tr'.
Proof.
  assert (forall t, files_written t = files_written (sink_events t)) as H.
  { induction t as [|[] t IH]; simpl; congruence. }
  intros E. by rewrite (H tr), (H tr'), E.
Qed.

(** Extraction, manifest by manifest. *)
Lemma read_manifests_normal type filenames manifest_of acc st :
  (forall filename, In filename filenames ->
     readManifest w (path_join packageFilesDir filename) = Normal (manifest_of filename)) ->
  exists st',
    read_manifests w type filenames acc st
    = (Normal (acc ++ flat_map (fun fn => records_of w type fn (manifest_of fn))
                        filenames)%list,
       st').
Proof.
  revert acc st. induction filenames as [|filename rest IH]; intros acc st H; simpl.
  - rewrite app_nil_r. by eexists.
  - unfold bind at 1. unfold lift. rewrite (H filename) by by left.
    unfold records_of at 1.
    destruct (manifest_get (manifest_of filename) type) as [deps|].
    + destruct (IH (acc ++ map (dependency_of w filename) (Object_entries deps))%list st)
        as [st' ->]; [by intros; apply H; right|].
      rewrite <- app_assoc. by eexists.
    + unfold bind at 1. unfold perform at 1.
      destruct (IH acc (emit (ConsoleWarn (missing_kind_warning type filename)) st))
        as [st' ->]; [by intros; apply H; right|].
      by eexists.
Qed.

Lemma getDependencies_normal type names manifest_of st :
  readdir w packageFilesDir = Normal names ->
  (forall filename, In filename names -> endsWith filename ".json" = true ->
     readManifest w (path_join packageFilesDir filename) = Normal (manifest_of filename)) ->
  exists st',
    getDependencies w type st
    = (Normal (flat_map (fun fn => records_of w type fn (manifest_of fn))
                 (List.filter (fun fn => endsWith fn ".json") names)),
       st').
Proof.
  intros Hd Hm. unfold getDependencies. unfold bind at 1. unfold lift. rewrite Hd.
  apply (read_manifests_normal type _ manifest_of []).
  intros filename [Hin He]%filter_In. by apply Hm.
Qed.

(** ** Licenses at the sink *)

Lemma not_empty_typed_string s : ~ empty_typed (JStr s).
Proof. by intros [=]. Qed.

Lemma types_nonempty_emit e st : types_nonempty w st -> types_nonempty w (emit e st).
Proof. done. Qed.

(** A lookup returns no structured license with an empty [type], and puts
    none into the cache, when the registry and the cache hold none. *)
Lemma fetch_types_nonempty n v st license st' :
  types_nonempty w st ->
  fetchLicenseForPackage w n v st = (Normal license, st') ->
  ~ empty_typed license /\ types_nonempty w st'.
Proof.
  intros [Hw Hc] E.
  assert (forall k y, default ∅ (cache st) !! k = Some y -> ~ empty_typed y) as Hd.
  { intros k y. destruct (cache st) as [c|] eqn:Ec; simpl.
    - by apply Hc.
    - by rewrite lookup_empty. }
  assert (forall x st0,
            ~ empty_typed x ->
            types_nonempty w
              (set_cache (<[cacheKey_of n v := x]> (default ∅ (cache st))) st0)) as Hins.
  { intros x st0 Hx. split; [done|]. intros c k y [= <-]. rewrite lookup_insert.
    case_decide; [by intros [= <-] | apply Hd]. }
  destruct (fetch_path w n v st) eqn:P.
  - rewrite (fetch_hit _ _ _ _ P) in E. injection E as <- <-.
    split; [|done].
    destruct (truthy_lookup_cache st (cacheKey_of n v)) as (c & Ec & Ek);
      [by eapply path_hit|].
    by eapply Hc.
  - rewrite (fetch_skip _ _ _ _ P) in E. injection E as <- <-.
    split; [apply not_empty_typed_string|]. apply Hins, not_empty_typed_string.
  - destruct (fetch_success _ _ _ _ P) as (l & Hl & E'). rewrite E' in E.
    injection E as <- <-.
    assert (~ empty_typed (js_or l (JStr "[BLANK]"))) as Hx.
    { unfold js_or. destruct (truthy l); [by eapply Hw|].
      apply not_empty_typed_string. }
    split; [done|]. by apply Hins.
  - rewrite (fetch_failure _ _ _ _ P) in E. injection E as <- <-.
    split; [apply not_empty_typed_string|]. split; [done|].
    intros c k y. rewrite after_request_cache. intros [= <-]. apply Hd.
Qed.

(** Every record the loop returns has a string as its license. *)
Lemma resolve_packages_licensed type packages st resolved st' :
  resolve_packages w type packages st = (Normal resolved, st') ->
  Forall (fun pkg => exists s, packageLicense pkg = Some (JStr s)) resolved.
Proof.
  revert st resolved. induction packages as [|pkg rest IH]; intros st resolved; simpl.
  - by intros [= <- <-].
  - intros (pkg' & st1 & E1 & (rest' & st2 & E2 & E3)%bind_inv_normal)%bind_inv_normal.
    injection E3 as <- <-.
    apply resolve_package_normal in E1 as (license & s & st0 & _ & _ & -> & _).
    constructor; [by exists s|]. by eapply IH.
Qed.

Lemma resolve_packages_nonempty type packages st resolved st' :
  types_nonempty w st ->
  resolve_packages w type packages st = (Normal resolved, st') ->
  Forall (fun pkg => exists s, packageLicense pkg = Some (JStr s) /\ s <> "") resolved.
Proof.
  revert st resolved. induction packages as [|pkg rest IH]; intros st resolved H; simpl.
  - by intros [= <- <-].
  - intros (pkg' & st1 & E1 & (rest' & st2 & E2 & E3)%bind_inv_normal)%bind_inv_normal.
    injection E3 as <- <-.
    apply resolve_package_normal in E1 as (license & s & st0 & Ef & Hs & -> & ->).
    destruct (fetch_types_nonempty _ _ _ _ _ (types_nonempty_emit _ _ H) Ef)
      as [Hne H0].
    constructor.
    + exists s. split; [done|]. intros ->. destruct Hs as [->|[_ Ht]].
      * by apply fetch_truthy in Ef.
      * by apply Hne.
    + eapply IH; [|exact E2]. by do 2 apply types_nonempty_emit.
Qed.

(** ** The order of extraction and of resolution *)

Lemma member_get_None {A} k (members : list (string * A)) :
  k ∉ members.*1 -> member_get k members = None.
Proof.
  induction members as [|[k' v] rest IH]; [done|].
  rewrite fmap_cons, not_elem_of_cons. intros [Hk H]. simpl.
  rewrite IH by done. by destruct (String.eqb_spec k k').
Qed.

Lemma created_keys_NoDup {A} seen (members : list (string * A)) :
  NoDup members.*1 ->
  (forall k, k ∈ members.*1 -> k ∉ seen) ->
  created_keys seen members = members.*1.
Proof.
  revert seen. induction members as [|[k v] rest IH]; intros seen Hn Hs; [done|].
  rewrite fmap_cons in Hn, Hs |- *. apply NoDup_cons in Hn as [Hk Hn].
  cbn [created_keys fst].
  rewrite bool_decide_eq_false_2 by (apply Hs; by left).
  f_equal. apply IH; [done|]. intros k' Hk'.
  rewrite not_elem_of_cons. split.
  - by intros ->.
  - apply Hs. by right.
Qed.

Lemma filter_none {A} (p : A -> bool) (l : list A) :
  (forall x, In x l -> p x = false) -> List.filter p l = [].
Proof.
  induction l as [|x l IH]; intros H; simpl; [done|].
  rewrite (H x) by by left. apply IH. intros y Hy. apply H. by right.
Qed.

Lemma filter_all {A} (p : A -> bool) (l : list A) :
  (forall x, In x l -> p x = true) -> List.filter p l = l.
Proof.
  induction l as [|x l IH]; intros H; simpl; [done|].
  rewrite (H x) by by left. f_equal. apply IH. intros y Hy. apply H. by right.
Qed.

(** An object that names no member twice and has no array index among its
    names is enumerated in the order of its text. *)
Lemma Object_entries_declaration_order {A} (members : list (string * A)) :
  NoDup members.*1 ->
  (forall k, In k members.*1 -> array_index k = false) ->
  Object_entries members = members.
Proof.
  intros Hn Hi. unfold Object_entries, own_keys.
  rewrite created_keys_NoDup; [|done|by intros k _; apply not_elem_of_nil].
  rewrite filter_none by done.
  rewrite filter_all by by intros k Hk; rewrite (Hi k Hk).
  rewrite app_nil_l. clear Hi.
  induction members as [|[k v] rest IH]; [done|].
  rewrite fmap_cons in Hn |- *. apply NoDup_cons in Hn as [Hk Hn].
  cbn [omap list_omap fst member_get].
  rewrite member_get_None by done. rewrite String.eqb_refl.
  cbn [fmap option_fmap option_map]. f_equal.
  rewrite <- (IH Hn) at 2. apply list_omap_ext, Forall_Forall2_diag, Forall_forall.
  intros k' Hk'.
  destruct (member_get k' rest) eqn:E; [done|].
  destruct (String.eqb_spec k' k) as [->|]; [|done]. by destruct Hk.
Qed.

Lemma announced_fetch n v st :
  announced (trace (fetchLicenseForPackage w n v st).2) = announced (trace st).
Proof.
  destruct (fetch_path w n v st) eqn:P.
  - destruct (fetch_quiet w n v st) as (-> & _); auto.
  - destruct (fetch_quiet w n v st) as (-> & _); auto.
  - destruct (fetch_request w n v st) as (_ & t & -> & _); auto.
  - destruct (fetch_request w n v st) as (_ & t & -> & _); auto.
Qed.

Lemma message_box type pkg :
  startsWith (checkingDisplayMessage type pkg) "☐" = true.
Proof. done. Qed.

Lemma backupConsole_not_box n : startsWith (backupConsole n) "☐" = false.
Proof. done. Qed.

Lemma resolved_line_not_box type pkg s :
  startsWith (resolved_line type pkg s) "☐" = false.
Proof. unfold resolved_line. by destruct (startsWith s "["). Qed.

(** The loop body announces its package once, whatever becomes of it. *)
Lemma announced_resolve_package type pkg st :
  announced (trace (resolve_package w type pkg st).2)
  = checkingDisplayMessage type pkg :: announced (trace st).
Proof.
  assert (announced (trace (fetchLicenseForPackage w (packageName pkg)
                              (packageVersion pkg)
                              (emit (StdoutWrite (checkingDisplayMessage type pkg)) st)).2)
          = checkingDisplayMessage type pkg :: announced (trace st)) as H.
  { rewrite announced_fetch. unfold emit. cbn [trace announced].
    by rewrite message_box. }
  unfold resolve_package. unfold bind at 1. unfold perform at 1. unfold bind at 1.
  destruct (fetchLicenseForPackage w _ _ _) as [[license|e] st1]; [|done].
  simpl in H. unfold bind at 1. unfold normalize_license.
  destruct (negb (is_null license) && String.eqb (typeof license) "object").
  - destruct (js_get license "type") as [[| | | |t| |]|]; try done.
    unfold ret, bind, perform, emit. cbn [snd trace announced].
    fold (resolved_line type pkg t).
    by rewrite backupConsole_not_box, resolved_line_not_box.
  - destruct license as [| | | |s| |];
      unfold ret, bind, perform, throw, emit; cbn [snd trace announced];
      rewrite backupConsole_not_box; try done.
    fold (resolved_line type pkg s). by rewrite resolved_line_not_box.
Qed.

(** The loop goes through the sequence in order: the packages it announces
    are a beginning of the sequence, each once, and the whole of it when
    the loop completes; the records it returns are those it was given, in
    the same order, with their licenses. *)
Lemma resolve_packages_in_order type packages st :
  exists attempted,
    announced (trace (resolve_packages w type packages st).2)
    = (rev (checkingDisplayMessage type <$> take attempted packages)
       ++ announced (trace st))%list
    /\ forall resolved,
         (resolve_packages w type packages st).1 = Normal resolved ->
         attempted = length packages
         /\ identity_of <$> resolved = identity_of <$> packages.
Proof.
  revert st. induction packages as [|pkg rest IH]; intros st.
  - exists 0. split; [done|]. by intros resolved [= <-].
  - cbn [resolve_packages]. unfold bind, ret.
    pose proof (announced_resolve_package type pkg st) as Ha.
    pose proof (resolve_package_normal w type pkg st) as Hn.
    destruct (resolve_package w type pkg st) as [[pkg'|e] st1];
      cbn [snd] in Ha.
    + destruct (IH st1) as (k & Hk & Hr). exists (S k).
      destruct (resolve_packages w type rest st1) as [[resolved|e] st2];
        cbn [fst snd] in *.
      * split.
        -- rewrite Hk, Ha. cbn [take fmap list_fmap rev].
           by rewrite <- app_assoc.
        -- intros ? [= <-]. destruct (Hr resolved eq_refl) as [-> Hi].
           split; [done|]. rewrite !fmap_cons. f_equal; [|done].
           by destruct (Hn pkg' st1 eq_refl) as (? & ? & ? & _ & _ & -> & _).
      * split; [|done]. rewrite Hk, Ha. cbn [take fmap list_fmap rev].
        by rewrite <- app_assoc.
    + exists 1. split; [|done]. cbn [snd]. by rewrite Ha.
Qed.

End Run.

(** * The claims *)

(** C1 (as amended). When a run hands its records to the sink, that is, when
    [checkDependencies] completes normally, having printed the table and
    written the CSV file of these records, the license of every record is
    a string; and it is a non-empty string unless the registry (or the
    cache) holds a structured license whose [type] is the empty string. *)
Theorem C1_sink_license (w : World) (type : PackageDotJsonDependencyType)
  (st st' : State) (packages : list PackageDotJsonDependency) :
  checkDependencies w type st = (Normal packages, st') ->
  (exists name csv rest,
      trace st' = FileWritten name csv :: ConsoleTable packages :: rest
      /\ toCsv packages = Normal csv)
  /\ Forall (fun pkg => exists s, packageLicense pkg = Some (JStr s)) packages
  /\ (types_nonempty w st ->
      Forall (fun pkg => exists s, packageLicense pkg = Some (JStr s) /\ s <> "")
        packages).
Proof.
  unfold checkDependencies.
  intros (extracted & st1 & Eg & (resolved & st2 & Er & E)%bind_inv_normal)%bind_inv_normal.
  apply bind_inv_normal in E as ([] & st3 & [= <-] & E).
  apply bind_inv_normal in E as ([] & st4 & Ew & [= <- <-]).
  split_and!.
  - unfold writeCsvFile in Ew.
    apply bind_inv_normal in Ew as (csv & st5 & Ec & Ew).
    apply bind_inv_normal in Ew as (stamp & st6 & [= <- <-] & Ew).
    unfold fs_writeFileSync in Ew.
    destruct (writeFileSync w _ _ _); [|done]. injection Ew as <-.
    unfold lift in Ec. injection Ec as Ec <-. by eexists _, _, _.
  - by eapply resolve_packages_licensed.
  - intros H. eapply resolve_packages_nonempty; [|exact Er].
    replace st1 with (getDependencies w type st).2 by by rewrite Eg.
    apply getDependencies_preserves; [|done].
    intros text st0. apply types_nonempty_emit.
Qed.

(** The sample run of two projects hands two records to the sink, each with
    a non-empty string as its license. *)
Lemma C1_two_projects :
  exists packages,
    (checkDependencies Samples.two_projects Dependencies initial_state).1
    = Normal packages
    /\ packageLicense <$> packages = [Some (JStr "WTFPL"); Some (JStr "MIT")]
    /\ Forall (fun pkg => exists s, packageLicense pkg = Some (JStr s) /\ s <> "")
         packages.
Proof.
  eexists. split; [by vm_compute|]. split; [done|].
  eapply (C1_sink_license Samples.two_projects Dependencies initial_state
            (checkDependencies Samples.two_projects Dependencies initial_state).2).
  - by vm_compute.
  - split; [|done]. intros n url license. unfold empty_typed. simpl.
    unfold Samples.answers_of. simpl.
    repeat (destruct (String.eqb url _); simpl; [by intros [= <-]|]).
    done.
Defined.

(** Two sample runs against the claim as it was stated: a structured license
    whose [type] is the empty string reaches the sink as an empty license,
    and a structured license without [type] lets an exception leave the
    resolution of its package. *)
Lemma C1_empty_or_thrown :
  (checkDependencies Samples.empty_type Dependencies initial_state).1
  = Normal [set_packageLicense (Samples.widget_of "app") (JStr "")]
  /\ (checkDependencies Samples.custom_license Dependencies initial_state).1
     = Throw (Error "Unrecognized package license definition.").
Proof. split; by vm_compute. Qed.

(** A license that is a number: the call of [startsWith] throws, and the run
    ends before anything reaches the sink. *)
Lemma number_license_run :
  (checkDependencies (Samples.one_package (JNum 42)) Dependencies initial_state).1
  = Throw (TypeError "pkg.packageLicense.startsWith is not a function")
  /\ sink_events
       (trace (checkDependencies (Samples.one_package (JNum 42)) Dependencies
                 initial_state).2)
     = [].
Proof. split; by vm_compute. Qed.



(** C3. Resolving the same (name, version) pair again later in the run: when
    the first lookup did not end in an error, its result is in the cache
    under the pair's key, the later lookup returns the identical value and
    changes nothing (no request, no delay), so the two lookups together send
    at most one request.  When the first lookup ended in an error, the result
    is an [[ERROR: ...]] marker, the cache is as it was, and a later lookup
    of the pair that still misses the cache sends a request again; it does
    still miss, and so is sent again, after any number of lookups of other
    pairs, successful or not.  The key is the name and the version: the
    lookup of a pair leaves the entry of every other pair as it was.  The
    last two statements are for versions that hold no [@], as those that
    [semver] returns; the key of a version with an [@] in it can be the key
    of another pair. *)
Theorem C3_cache_idempotence (w : World) (n v : string) (st st1 st2 : State)
  (license : JsVal) :
  fetchLicenseForPackage w n v st = (Normal license, st1) ->
  Later w st1 st2 ->
  (fetch_path w n v st <> RegistryFailure ->
     cache_lookup st1 (cacheKey_of n v) = license
     /\ fetchLicenseForPackage w n v st2 = (Normal license, st2)
     /\ requests st1 <= S (requests st))
  /\ (fetch_path w n v st = RegistryFailure ->
        (exists marker,
            license = JStr marker /\ startsWith marker "[ERROR: " = true)
        /\ (forall k, cache_lookup st1 k = cache_lookup st k)
        /\ requests st1 = S (requests st)
        /\ (truthy (cache_lookup st2 (cacheKey_of n v)) = false ->
              requests (fetchLicenseForPackage w n v st2).2 = S (requests st2)
              /\ exists t,
                   trace (fetchLicenseForPackage w n v st2).2
                   = Requested (registryUrl_of n v) t :: Slept 1001 :: trace st2)
        /\ (forall st3,
              has_at v = false -> Elsewhere w n v st1 st3 ->
              truthy (cache_lookup st3 (cacheKey_of n v)) = false
              /\ requests (fetchLicenseForPackage w n v st3).2 = S (requests st3)
              /\ exists t,
                   trace (fetchLicenseForPackage w n v st3).2
                   = Requested (registryUrl_of n v) t :: Slept 1001 :: trace st3))
  /\ (forall n' v',
        has_at v = false -> has_at v' = false -> (n', v') <> (n, v) ->
        cache_lookup st1 (cacheKey_of n' v') = cache_lookup st (cacheKey_of n' v')).
Proof.
  intros E HL.
  assert (forall st0,
             fetch_path w n v st = RegistryFailure ->
             truthy (cache_lookup st0 (cacheKey_of n v)) = false ->
             requests (fetchLicenseForPackage w n v st0).2 = S (requests st0)
             /\ exists t,
                  trace (fetchLicenseForPackage w n v st0).2
                  = Requested (registryUrl_of n v) t :: Slept 1001 :: trace st0)
    as Hretry.
  { intros st0 P Hm.
    destruct (fetch_request w n v st0) as (-> & t & -> & _); [|eauto].
    apply path_miss_network; [done|]. by eapply path_failure_not_local. }
  split_and!; [| |intros n' v' Hv Hv' Hne;
                  replace st1 with (fetchLicenseForPackage w n v st).2
                    by (by rewrite E);
                  apply fetch_frame; [done|done|congruence]].
  - intros NF.
    destruct (fetch_repeat _ _ _ _ _ _ _ E NF HL) as [Hs H2].
    split_and!; [done|done|].
    replace st1 with (fetchLicenseForPackage w n v st).2 by by rewrite E.
    destruct (fetch_path w n v st) eqn:P; [| | |done].
    + destruct (fetch_quiet w n v st) as (_ & _ & ->); [by left|lia].
    + destruct (fetch_quiet w n v st) as (_ & _ & ->); [by right|lia].
    + destruct (fetch_request w n v st) as (-> & _); [by left|lia].
  - intros P. rewrite (fetch_failure _ _ _ _ P) in E. injection E as <- <-.
    split_and!.
    + eexists. split; [done|]. apply prefix_app.
    + intros k. apply cache_lookup_after_request.
    + apply after_request_requests.
    + intros Hm. by apply Hretry.
    + intros st3 Hv He.
      assert (truthy (cache_lookup st3 (cacheKey_of n v)) = false) as Hm.
      { rewrite (elsewhere_keeps w n v _ st3 Hv He).
        rewrite cache_lookup_after_request. unfold fetch_path in P.
        by destruct (truthy (cache_lookup st (cacheKey_of n v))). }
      split; [done|]. by apply Hretry.
Qed.

(** In the sample run, a second lookup of [left-pad@1.0.0], after the lookup
    of another package, returns the cached license and changes nothing.  In
    the world whose first request times out, the lookup of [widget@1.4.0]
    fails; after a lookup of [widget@2.0.0], which is answered and cached,
    the lookup of [widget@1.4.0] is sent again. *)
Lemma C3_second_lookup_is_cached :
  let st1 := (fetchLicenseForPackage Samples.two_projects "left-pad" "1.0.0"
                initial_state).2 in
  let st2 := (fetchLicenseForPackage Samples.two_projects "right-pad" "2.0.0" st1).2 in
  let f1 := (fetchLicenseForPackage Samples.any_version "widget" "1.4.0"
               initial_state).2 in
  let f2 := (fetchLicenseForPackage Samples.any_version "widget" "2.0.0" f1).2 in
  (fetchLicenseForPackage Samples.two_projects "left-pad" "1.0.0" st2
   = (Normal (JStr "WTFPL"), st2)
   /\ requests st1 = 1)
  /\ (cache_lookup f2 "widget@2.0.0" = JStr "ISC"
      /\ requests f2 = 2
      /\ requests (fetchLicenseForPackage Samples.any_version "widget" "1.4.0" f2).2
         = 3).
Proof.
  intros st1 st2 f1 f2. split.
  - destruct (C3_cache_idempotence Samples.two_projects "left-pad" "1.0.0"
                initial_state st1 st2 (JStr "WTFPL")) as (H & _ & _).
    + by vm_compute.
    + apply Later_lookup, Later_now.
    + destruct H as (_ & H & _); [by vm_compute|].
      split; [exact H|by vm_compute].
  - destruct (C3_cache_idempotence Samples.any_version "widget" "1.4.0"
                initial_state f1 f1 (JStr "[ERROR: undefined: undefined]"))
      as (_ & H & _).
    + by vm_compute.
    + apply Later_now.
    + destruct H as (_ & _ & _ & _ & H); [by vm_compute|].
      destruct (H f2) as (_ & Hr & _).
      * by vm_compute.
      * apply Elsewhere_lookup; [apply Elsewhere_now|done|by vm_compute].
      * split; [by vm_compute|]. split; [by vm_compute|]. exact Hr.
Defined.

(** The sample run whose first request times out: the lookup of the same
    pair for the second project is sent again, and answered. *)
Lemma flaky_run :
  (resolve_packages Samples.flaky Dependencies
     [Samples.widget_of "one"; Samples.widget_of "two"] initial_state).1
  = Normal [set_packageLicense (Samples.widget_of "one")
              (JStr "[ERROR: undefined: undefined]");
            set_packageLicense (Samples.widget_of "two") (JStr "ISC")]
  /\ requests (resolve_packages Samples.flaky Dependencies
                 [Samples.widget_of "one"; Samples.widget_of "two"] initial_state).2
     = 2.
Proof. split; by vm_compute. Qed.

(** C4 (as amended). For a version string that reaches the Registry Client
    and whose lower-cased form, as [toLowerCase] of the engine gives it,
    begins with [file:] or [link:], a lookup sends no request and waits for
    no delay, and it depends on nothing else of the world: neither on the
    registry, nor on the timer, nor on [semver].  When the lookup misses the
    cache it resolves to exactly [[SKIPPED: <that string>]] and stores it,
    so that every later lookup of the pair returns the same marker; in the
    loop, the record of such a package gets the marker as its license,
    without request or delay.  The version of a record is what
    [getCleanNpmPackageVersion] made of the raw specifier of the manifest,
    whatever the specifier is. *)
Theorem C4_local_specifier_skipped (w : World) (n v : string) (st st2 : State) :
  is_local w v = true ->
  Later w (fetchLicenseForPackage w n v st).2 st2 ->
  (forall filename name raw,
      packageVersion (dependency_of w filename (name, raw))
      = getCleanNpmPackageVersion w raw)
  /\ (trace (fetchLicenseForPackage w n v st).2 = trace st
      /\ clock (fetchLicenseForPackage w n v st).2 = clock st
      /\ requests (fetchLicenseForPackage w n v st).2 = requests st)
  /\ (forall w',
        is_local w' v = true ->
        fetchLicenseForPackage w' n v st = fetchLicenseForPackage w n v st)
  /\ (truthy (cache_lookup st (cacheKey_of n v)) = false ->
        (fetchLicenseForPackage w n v st).1 = Normal (JStr (skipped_marker v))
        /\ cache_lookup (fetchLicenseForPackage w n v st).2 (cacheKey_of n v)
           = JStr (skipped_marker v)
        /\ fetchLicenseForPackage w n v st2 = (Normal (JStr (skipped_marker v)), st2)
        /\ forall type pkg,
             packageName pkg = n -> packageVersion pkg = v ->
             exists pkg' st',
               resolve_package w type pkg st = (Normal pkg', st')
               /\ packageLicense pkg' = Some (JStr (skipped_marker v))
               /\ identity_of pkg' = identity_of pkg
               /\ request_times (trace st') = request_times (trace st)
               /\ clock st' = clock st /\ requests st' = requests st).
Proof.
  intros Hl HL.
  assert (forall w', is_local w' v = true ->
                     fetch_path w' n v st = fetch_path w n v st) as Hsame.
  { intros w' Hl'. unfold fetch_path. rewrite Hl, Hl'.
    by destruct (truthy (cache_lookup st (cacheKey_of n v))). }
  split_and!.
  - done.
  - apply fetch_quiet. by apply path_local.
  - apply fetch_quiet. by apply path_local.
  - apply fetch_quiet. by apply path_local.
  - intros w' Hl'. destruct (path_local w' n v st Hl') as [P|P].
    + rewrite (fetch_hit _ _ _ _ P). rewrite Hsame in P by done.
      by rewrite (fetch_hit _ _ _ _ P).
    + rewrite (fetch_skip _ _ _ _ P). rewrite Hsame in P by done.
      by rewrite (fetch_skip _ _ _ _ P).
  - intros Hm.
    assert (forall st0, cache st0 = cache st -> fetch_path w n v st0 = LocalSkip) as P.
    { intros st0 Hc. unfold fetch_path, cache_lookup. rewrite Hc.
      fold (cache_lookup st (cacheKey_of n v)). by rewrite Hm, Hl. }
    pose proof (fetch_skip _ _ _ _ (P st eq_refl)) as E.
    split_and!.
    + by rewrite E.
    + rewrite E. apply (fetch_repeat w n v st _ _ st2 E); [by rewrite P|].
      by rewrite E in HL.
    + apply (fetch_repeat w n v st _ _ st2 E); [by rewrite P|].
      by rewrite E in HL.
    + intros type pkg <- <-.
      eexists _, _. split.
      * apply resolve_package_string. by apply fetch_skip, P.
      * done.
Qed.

(** A lookup of a linked package misses the fresh cache, yields the marker
    without any event, and yields it again after another lookup.  So does
    a specifier whose scheme is written with the Kelvin sign, which
    [toLowerCase] turns into [k]: the marker holds the specifier as it
    came, and the registry, which knows no such package, is not asked. *)
Lemma C4_linked_package :
  let st1 := (fetchLicenseForPackage Samples.two_projects "ui-kit" "LINK:../ui-kit"
                initial_state).2 in
  let st2 := (fetchLicenseForPackage Samples.two_projects "left-pad" "1.0.0" st1).2 in
  let kelvin := "lin" ++ Samples.kelvin_sign ++ ":../ui-kit" in
  let st3 := (fetchLicenseForPackage Samples.two_projects "ui-kit" kelvin
                initial_state).2 in
  ((fetchLicenseForPackage Samples.two_projects "ui-kit" "LINK:../ui-kit"
      initial_state).1
   = Normal (JStr "[SKIPPED: LINK:../ui-kit]")
   /\ trace st1 = []
   /\ fetchLicenseForPackage Samples.two_projects "ui-kit" "LINK:../ui-kit" st2
      = (Normal (JStr "[SKIPPED: LINK:../ui-kit]"), st2))
  /\ (is_local Samples.two_projects kelvin = true
      /\ (fetchLicenseForPackage Samples.two_projects "ui-kit" kelvin
            initial_state).1
         = Normal (JStr ("[SKIPPED: lin" ++ Samples.kelvin_sign ++ ":../ui-kit]"))
      /\ cache_lookup st3 (cacheKey_of "ui-kit" kelvin)
         = JStr ("[SKIPPED: lin" ++ Samples.kelvin_sign ++ ":../ui-kit]")
      /\ requests st3 = 0 /\ trace st3 = []).
Proof.
  intros st1 st2 kelvin st3. split.
  - destruct (C4_local_specifier_skipped Samples.two_projects "ui-kit"
                "LINK:../ui-kit" initial_state st2) as (_ & (Ht & _) & _ & H).
    + by vm_compute.
    + apply Later_lookup, Later_now.
    + destruct H as (H1 & _ & H2 & _); [by vm_compute|]. by split_and!.
  - destruct (C4_local_specifier_skipped Samples.two_projects "ui-kit"
                kelvin initial_state st3) as (_ & (Ht & _ & Hr) & _ & H).
    + by vm_compute.
    + apply Later_now.
    + destruct H as (H1 & Hc & _); [by vm_compute|].
      split; [by vm_compute|]. by split_and!.
Defined.

(** In the sample project that depends on a local tarball, the specifier
    begins with [file:], yet extraction passes it to [semver], which coerces
    it to the version in the file name; the Registry Client never sees the
    specifier, and the pipeline asks the registry for that version instead
    of skipping the package. *)
Lemma C4_local_specifier_is_coerced :
  is_local Samples.local_tarball "file:../vendor/foo-1.2.3.tgz" = true
  /\ getCleanNpmPackageVersion Samples.local_tarball "file:../vendor/foo-1.2.3.tgz"
     = "1.2.3"
  /\ (checkDependencies Samples.local_tarball Dependencies initial_state).1
     = Normal [{| projectName := "app"; packageName := "foo";
                  packageVersion := "1.2.3"; packageLicense := Some (JStr "MIT") |}]
  /\ request_times
       (trace (checkDependencies Samples.local_tarball Dependencies initial_state).2)
     = [1003%N].
Proof. split_and!; by vm_compute. Qed.

(** C5. A lookup never throws: every call of [fetchLicenseForPackage]
    completes normally.  When the remote call fails, the result is the string
    [[ERROR: <status>: <statusText>]], with [undefined] for both when the
    failure carries no response.  In the loop, the record of a package whose
    lookup fails has that marker as its license, and the loop goes on with
    the packages after it. *)
Theorem C5_resolve_never_raises (w : World) :
  (forall n v st,
      exists license, (fetchLicenseForPackage w n v st).1 = Normal license)
  /\ (forall n v st,
         fetch_path w n v st = RegistryFailure ->
         (fetchLicenseForPackage w n v st).1
         = Normal (JStr (error_marker
                           (failure_response
                              (registry w (requests st) (registryUrl_of n v))))))
  /\ (forall r,
         error_marker (Some r)
         = "[ERROR: " ++ pretty (status r) ++ ": " ++ statusText r ++ "]")
  /\ error_marker None = "[ERROR: undefined: undefined]"
  /\ (forall type pkg rest st,
         fetch_path w (packageName pkg) (packageVersion pkg)
           (emit (StdoutWrite (checkingDisplayMessage type pkg)) st)
         = RegistryFailure ->
         exists marker pkg' st1,
           resolve_package w type pkg st = (Normal pkg', st1)
           /\ packageLicense pkg' = Some (JStr marker)
           /\ identity_of pkg' = identity_of pkg
           /\ marker
              = error_marker
                  (failure_response
                     (registry w (requests st)
                        (registryUrl_of (packageName pkg) (packageVersion pkg))))
           /\ startsWith marker "[ERROR: " = true
           /\ resolve_packages w type (pkg :: rest) st
              = (rest' <- resolve_packages w type rest ;; ret (pkg' :: rest')) st1).
Proof.
  split_and!.
  - intros n v st. destruct (fetch_normal w n v st) as [license ->]. eauto.
  - intros n v st P. by rewrite (fetch_failure _ _ _ _ P).
  - done.
  - done.
  - intros type pkg rest st P.
    pose proof (fetch_failure _ _ _ _ P) as E.
    pose proof (resolve_package_string _ _ _ _ _ _ E) as R.
    eexists _, _, _. split; [exact R|]. split; [done|]. split; [done|].
    split; [done|]. split; [apply prefix_app|].
    simpl. by rewrite (bind_normal _ _ _ _ _ R).
Qed.

(** In the sample world whose first request times out, the package of the
    first project gets an error marker and the loop goes on with the package
    of the second project. *)
Lemma C5_flaky_registry :
  exists pkg' st1,
    resolve_package Samples.flaky Dependencies (Samples.widget_of "one") initial_state
    = (Normal pkg', st1)
    /\ packageLicense pkg' = Some (JStr "[ERROR: undefined: undefined]")
    /\ resolve_packages Samples.flaky Dependencies
         [Samples.widget_of "one"; Samples.widget_of "two"] initial_state
       = (rest' <- resolve_packages Samples.flaky Dependencies [Samples.widget_of "two"] ;;
          ret (pkg' :: rest')) st1.
Proof.
  destruct (C5_resolve_never_raises Samples.flaky) as (_ & _ & _ & _ & H).
  destruct (H Dependencies (Samples.widget_of "one") [Samples.widget_of "two"]
              initial_state) as (marker & pkg' & st1 & E & Hl & _ & -> & _ & Hr);
    [by vm_compute|].
  by exists pkg', st1.
Defined.

(** C6 (as amended). Version normalization returns the string that
    [semver.valid] yields for the specifier when it is a strict semantic
    version, which is the version in canonical form and so not always the
    specifier itself; otherwise the version of the [SemVer] that
    [semver.coerce] extracts from it, when there is one; otherwise the
    specifier itself, unchanged. *)
Theorem C6_version_normalization (w : World) (v : string) :
  (forall s,
      semver_valid w v = Some s -> s <> "" ->
      getCleanNpmPackageVersion w v = s)
  /\ (forall c,
         falsy (semver_valid w v) -> semver_coerce w v = Some c ->
         version c <> "" ->
         getCleanNpmPackageVersion w v = version c)
  /\ (falsy (semver_valid w v) -> falsy (version <$> semver_coerce w v) ->
      getCleanNpmPackageVersion w v = v).
Proof.
  unfold getCleanNpmPackageVersion.
  assert (forall a b, falsy a -> or_else a b = b) as Hf.
  { by intros a b [->| ->]. }
  assert (forall s b, s <> "" -> or_else (Some s) b = s) as Ht.
  { intros s b Hs. simpl. by destruct (String.eqb_spec s ""). }
  split_and!.
  - intros s -> Hs. by apply Ht.
  - intros c Hv -> Hc. rewrite (Hf _ _ Hv). by apply Ht.
  - intros Hv Hc. by rewrite (Hf _ _ Hv), (Hf _ _ Hc).
Qed.

(** With node-semver: a canonical version comes back as it is, a range is
    coerced to its version, and a tag comes back as it is. *)
Lemma C6_node_semver :
  getCleanNpmPackageVersion Samples.two_projects "1.2.3-beta.1" = "1.2.3-beta.1"
  /\ getCleanNpmPackageVersion Samples.two_projects "^1.2.3" = "1.2.3"
  /\ getCleanNpmPackageVersion Samples.two_projects "latest" = "latest".
Proof.
  split_and!.
  - destruct (C6_version_normalization Samples.two_projects "1.2.3-beta.1")
      as (H & _ & _).
    apply H; [by vm_compute|done].
  - destruct (C6_version_normalization Samples.two_projects "^1.2.3") as (_ & H & _).
    by refine (H {| major := 1; minor := 2; patch := 3; prerelease := [];
                    version := "1.2.3" |} _ _ _); [by left|by vm_compute|].
  - apply (C6_version_normalization Samples.two_projects "latest"); by left.
Defined.

(** With node-semver: strict semantic versions that are not in canonical
    form, for their build metadata or their leading [v], are accepted by
    [semver.valid] and come back changed. *)
Lemma C6_strict_version_is_changed :
  NodeSemver.valid "1.2.3+build.7" = Some "1.2.3"
  /\ getCleanNpmPackageVersion Samples.two_projects "1.2.3+build.7" = "1.2.3"
  /\ "1.2.3" <> "1.2.3+build.7"
  /\ NodeSemver.valid "v1.2.3" = Some "1.2.3"
  /\ getCleanNpmPackageVersion Samples.two_projects "v1.2.3" = "1.2.3".
Proof. split_and!; try done; by vm_compute. Qed.

(** C7 (as amended). Extraction lists the records manifest by manifest, in
    the order in which the directory listing enumerates the [.json] files,
    and within a manifest in the order in which [Object.entries] enumerates
    the parsed dependency object.  That is the declaration order of the
    manifest whenever it names no package twice and no package name is an
    array index.  Resolution goes through the sequence in order, once per
    record: the packages it announces are a beginning of the sequence, all
    of it when the loop completes, and the records it returns are those of
    the sequence in the same order. *)
Theorem C7_extraction_order (w : World) (type : PackageDotJsonDependencyType)
  (names : list string) (manifest_of : string -> Manifest) (st : State) :
  readdir w packageFilesDir = Normal names ->
  (forall filename, In filename names -> endsWith filename ".json" = true ->
     readManifest w (path_join packageFilesDir filename) = Normal (manifest_of filename)) ->
  (exists st1,
      getDependencies w type st
      = (Normal (flat_map (fun fn => records_of w type fn (manifest_of fn))
                   (List.filter (fun fn => endsWith fn ".json") names)),
         st1))
  /\ (forall members : list (string * string),
         NoDup members.*1 ->
         (forall k, In k members.*1 -> array_index k = false) ->
         Object_entries members = members)
  /\ (forall packages st0,
         exists attempted,
           announced (trace (resolve_packages w type packages st0).2)
           = (rev (checkingDisplayMessage type <$> take attempted packages)
              ++ announced (trace st0))%list
           /\ forall resolved,
                (resolve_packages w type packages st0).1 = Normal resolved ->
                attempted = length packages
                /\ identity_of <$> resolved = identity_of <$> packages).
Proof.
  intros Hd Hm. split_and!.
  - by apply getDependencies_normal.
  - intros members Hn Hi. by apply Object_entries_declaration_order.
  - intros packages st0. apply resolve_packages_in_order.
Qed.

(** The ordering example of the specification: [proj-a] with [left-pad]
    comes before [proj-b] with [right-pad]. *)
Lemma C7_two_projects :
  exists st1,
    getDependencies Samples.two_projects Dependencies initial_state
    = (Normal [Samples.left_pad; Samples.right_pad], st1).
Proof.
  apply (C7_extraction_order Samples.two_projects Dependencies
           ["proj-a.json"; "README.md"; "proj-b.json"]
           (Samples.manifest_in Samples.two_projects) initial_state).
  - done.
  - intros filename [<-|[<-|[<-|[]]]]; by vm_compute.
Defined.

(** A manifest that declares [left-pad] and then [2048]: the records come
    out with [2048] first, for the name is an array index.  A manifest that
    declares [a], [b] and [a] again: one record for [a], with the version
    declared last, and then the record for [b]. *)
Lemma C7_not_declaration_order :
  dependencies (Samples.manifest_in Samples.numbered_name "game.json")
  = Some [("left-pad", "1.0.0"); ("2048", "0.3.1")]
  /\ (getDependencies Samples.numbered_name Dependencies initial_state).1
     = Normal [{| projectName := "game"; packageName := "2048";
                  packageVersion := "0.3.1"; packageLicense := None |};
               {| projectName := "game"; packageName := "left-pad";
                  packageVersion := "1.0.0"; packageLicense := None |}]
  /\ dependencies (Samples.manifest_in Samples.twice_declared "app.json")
     = Some [("a", "1.0.0"); ("b", "2.0.0"); ("a", "3.0.0")]
  /\ (getDependencies Samples.twice_declared Dependencies initial_state).1
     = Normal [{| projectName := "app"; packageName := "a";
                  packageVersion := "3.0.0"; packageLicense := None |};
               {| projectName := "app"; packageName := "b";
                  packageVersion := "2.0.0"; packageLicense := None |}].
Proof. split_and!; by vm_compute. Qed.

(** C8. A lookup that reaches the network (neither a cache hit nor a local
    skip) first waits the fixed delay of 1001 ms and only then sends its
    request, so the request begins at least 1001 ms after the lookup was
    entered; a cache hit and a skip add no event and take no time; and in a
    whole run, from the start of the process, every request follows its
    delay at once and any two consecutive requests begin at least 1001 ms
    apart. *)
Theorem C8_rate_limit (w : World) :
  (forall n v st,
      fetch_path w n v st = RegistrySuccess \/ fetch_path w n v st = RegistryFailure ->
      exists t,
        trace (fetchLicenseForPackage w n v st).2
        = Requested (registryUrl_of n v) t :: Slept 1001 :: trace st
        /\ (clock st + 1001 <= t)%N)
  /\ (forall n v st,
         fetch_path w n v st = CacheHit \/ fetch_path w n v st = LocalSkip ->
         trace (fetchLicenseForPackage w n v st).2 = trace st
         /\ clock (fetchLicenseForPackage w n v st).2 = clock st
         /\ requests (fetchLicenseForPackage w n v st).2 = requests st)
  /\ (forall n v st,
         well_paced st -> well_paced (fetchLicenseForPackage w n v st).2)
  /\ spaced 1001 (request_times (trace (init w initial_state).2))
  /\ delayed (trace (init w initial_state).2).
Proof.
  split_and!.
  - intros n v st P. by apply fetch_request.
  - intros n v st P. by apply fetch_quiet.
  - intros n v. apply fetch_well_paced.
  - apply init_well_paced, well_paced_initial.
  - apply init_well_paced, well_paced_initial.
Qed.

(** The first lookup of the sample run waits and then sends its request at
    1003 ms; the run sends its two requests 1005 ms apart.  The lookup of
    the linked package, whose scheme is written with the Kelvin sign, is a
    skip: it adds no event and takes no time. *)
Lemma C8_two_projects :
  (exists t,
      trace (fetchLicenseForPackage Samples.two_projects "left-pad" "1.0.0"
               initial_state).2
      = [Requested "https://registry.npmjs.org/left-pad/1.0.0" t; Slept 1001]
      /\ (1001 <= t)%N)
  /\ request_times (trace (init Samples.two_projects initial_state).2) = [2008; 1003]%N
  /\ spaced 1001 (request_times (trace (init Samples.two_projects initial_state).2))
  /\ (trace (fetchLicenseForPackage Samples.linked "ui-kit"
               (packageVersion Samples.ui_kit) initial_state).2 = []
      /\ clock (fetchLicenseForPackage Samples.linked "ui-kit"
                  (packageVersion Samples.ui_kit) initial_state).2 = 0%N
      /\ requests (fetchLicenseForPackage Samples.linked "ui-kit"
                     (packageVersion Samples.ui_kit) initial_state).2 = 0).
Proof.
  split; [|split; [|split]].
  - destruct (C8_rate_limit Samples.two_projects) as (H & _).
    destruct (H "left-pad" "1.0.0" initial_state) as (t & Ht & Hc);
      [left; by vm_compute|].
    exists t. split; [exact Ht|exact Hc].
  - by vm_compute.
  - apply (C8_rate_limit Samples.two_projects).
  - destruct (C8_rate_limit Samples.linked) as (_ & H & _).
    apply (H "ui-kit" (packageVersion Samples.ui_kit) initial_state).
    right. by vm_compute.
Defined.

(** C9. [toCsv] throws on an empty sequence, for it reads the keys of its
    first element, and returns a text for every other sequence.  So a run
    in which every manifest lacks the requested dependency kind extracts no
    record, prints an empty table, and then fails with that [TypeError] when
    it comes to write the CSV file: no file is written. *)
Theorem C9_empty_report_throws (w : World) (type : PackageDotJsonDependencyType)
  (names : list string) (manifest_of : string -> Manifest) (st : State) :
  readdir w packageFilesDir = Normal names ->
  (forall filename, In filename names -> endsWith filename ".json" = true ->
     readManifest w (path_join packageFilesDir filename) = Normal (manifest_of filename)
     /\ manifest_get (manifest_of filename) type = None) ->
  toCsv [] = Throw (TypeError "Cannot convert undefined or null to object")
  /\ (forall first rest, exists csv, toCsv (first :: rest) = Normal csv)
  /\ exists st',
       checkDependencies w type st
       = (Throw (TypeError "Cannot convert undefined or null to object"), st')
       /\ files_written (trace st') = files_written (trace st)
       /\ exists rest, trace st' = ConsoleTable [] :: rest.
Proof.
  intros Hd Hm. split; [done|]. split; [by eexists|].
  destruct (getDependencies_normal w type names manifest_of st Hd) as [st1 E].
  { intros filename Hin He. by apply Hm. }
  assert (flat_map (fun fn => records_of w type fn (manifest_of fn))
            (List.filter (fun fn => endsWith fn ".json") names) = []) as Hnil.
  { apply flat_map_all_nil. intros filename [Hin He]%filter_In.
    unfold records_of. by destruct (Hm filename Hin He) as [_ ->]. }
  rewrite Hnil in E.
  exists (emit (ConsoleTable []) st1). split_and!.
  - unfold checkDependencies. rewrite (bind_normal _ _ _ _ _ E). by simpl.
  - simpl. apply files_written_sink_events.
    replace st1 with (getDependencies w type st).2 by by rewrite E.
    apply getDependencies_sink_events.
  - by eexists.
Qed.

(** The sample projects declare no [devDependencies]: that run fails at the
    CSV and writes nothing. *)
Lemma C9_no_devDependencies :
  exists st',
    checkDependencies Samples.two_projects DevDependencies initial_state
    = (Throw (TypeError "Cannot convert undefined or null to object"), st')
    /\ files_written (trace st') = []
    /\ exists rest, trace st' = ConsoleTable [] :: rest.
Proof.
  apply (C9_empty_report_throws Samples.two_projects DevDependencies
           ["proj-a.json"; "README.md"; "proj-b.json"]
           (Samples.manifest_in Samples.two_projects) initial_state).
  - done.
  - intros filename [<-|[<-|[<-|[]]]]; by vm_compute.
Defined.

(** C10 (as amended). Every value the program stores in the License Cache is
    truthy: the [[SKIPPED: ...]] marker of a local specifier, or the license
    that the registry declared, stored as it came whenever it is truthy,
    whatever its type (a string that is not empty, a structured value, a
    number other than zero, [true]), and [[BLANK]] in place of a falsy
    one.  So the invariant holds after every lookup and throughout a run,
    and the cache lookup by truthiness never takes a stored entry for a
    missing one. *)
Theorem C10_cache_values_truthy (w : World) :
  (forall n v st,
      cache_truthy st -> cache_truthy (fetchLicenseForPackage w n v st).2)
  /\ cache_truthy (init w initial_state).2
  /\ (forall st c k x,
         cache_truthy st -> cache st = Some c -> c !! k = Some x ->
         truthy (cache_lookup st k) = true)
  /\ (forall n v st k,
         let st' := (fetchLicenseForPackage w n v st).2 in
         cache_lookup st' k = cache_lookup st k
         \/ (k = cacheKey_of n v /\ is_local w v = true
             /\ cache_lookup st' k = JStr (skipped_marker v))
         \/ (k = cacheKey_of n v
             /\ exists license,
                  declared_license (registry w (requests st) (registryUrl_of n v))
                  = Some license
                  /\ cache_lookup st' k = js_or license (JStr "[BLANK]")))
  /\ (forall license,
         truthy license = true -> js_or license (JStr "[BLANK]") = license)
  /\ (forall license,
         truthy license = false -> js_or license (JStr "[BLANK]") = JStr "[BLANK]")
  /\ (forall n v st license,
         truthy (cache_lookup st (cacheKey_of n v)) = false ->
         is_local w v = false ->
         declared_license (registry w (requests st) (registryUrl_of n v))
         = Some license ->
         truthy license = true ->
         cache_lookup (fetchLicenseForPackage w n v st).2 (cacheKey_of n v)
         = license).
Proof.
  split_and!.
  - intros n v. apply fetch_cache_truthy.
  - apply init_cache_truthy, cache_truthy_initial.
  - intros st c k x H Hc Hk. unfold cache_lookup. rewrite Hc. simpl.
    rewrite Hk. simpl. by eapply H.
  - apply fetch_writes.
  - intros license H. unfold js_or. by rewrite H.
  - intros license H. unfold js_or. by rewrite H.
  - intros n v st license Hm Hl Hd Ht.
    assert (fetch_path w n v st = RegistrySuccess) as P.
    { unfold fetch_path. by rewrite Hm, Hl, Hd. }
    destruct (fetch_success _ _ _ _ P) as (l & Hl' & ->).
    rewrite Hd in Hl'. injection Hl' as <-. cbn [snd].
    rewrite cache_lookup_set_eq, lookup_insert_eq. cbn.
    unfold js_or. by rewrite Ht.
Qed.

(** The cache of the sample run holds truthy values only, after its first
    lookup and at its end. *)
Lemma C10_two_projects :
  cache_truthy (fetchLicenseForPackage Samples.two_projects "left-pad" "1.0.0"
                  initial_state).2
  /\ cache_truthy (init Samples.two_projects initial_state).2.
Proof.
  split.
  - apply (C10_cache_values_truthy Samples.two_projects). by intros c k v.
  - apply (C10_cache_values_truthy Samples.two_projects).
Defined.

(** In the sample run the structured license of [right-pad] is stored in the
    cache as the registry sent it: an object, not a string.  So is a
    license that is a number. *)
Lemma C10_structured_license_is_cached :
  (exists c,
      cache (init Samples.two_projects initial_state).2 = Some c
      /\ c !! "right-pad@2.0.0"
         = Some (JObj [("type", JStr "MIT"); ("url", JStr "https://mit")])
      /\ typeof (JObj [("type", JStr "MIT"); ("url", JStr "https://mit")]) = "object")
  /\ (exists c,
        cache (fetchLicenseForPackage (Samples.one_package (JNum 42)) "widget" "1.4.0"
                 initial_state).2 = Some c
        /\ c !! "widget@1.4.0" = Some (JNum 42)
        /\ typeof (JNum 42) = "number").
Proof.
  split.
  - eexists. split; [by vm_compute|]. split; [by vm_compute|done].
  - eexists. split; [by vm_compute|]. split; [by vm_compute|done].
Qed.

(** * Further properties of the program *)

(** ** Texts *)

Section Text.

Lemma append_assoc (a b c : string) : (a ++ b) ++ c = a ++ b ++ c.
Proof.
  induction a as [|x a IH]; [done|].
  change (String x ((a ++ b) ++ c) = String x (a ++ b ++ c)). by rewrite IH.
Qed.

Lemma append_empty (a : string) : a ++ "" = a.
Proof.
  induction a as [|x a IH]; [done|].
  change (String x (a ++ "") = String x a). by rewrite IH.
Qed.

Lemma rev_app_app a b c :
  String.rev_app (a ++ b) c = String.rev_app b (String.rev_app a c).
Proof. revert c. induction a as [|x a IH]; intros c; simpl; [done|]. apply IH. Qed.

Lemma rev_app_rev a c : String.rev_app a c = String.rev a ++ c.
Proof.
  unfold String.rev. revert c. induction a as [|x a IH]; intros c; simpl; [done|].
  rewrite (IH (String x c)), (IH (String x "")). by rewrite append_assoc.
Qed.

Lemma rev_append a b : String.rev (a ++ b) = String.rev b ++ String.rev a.
Proof. unfold String.rev at 1. rewrite rev_app_app. apply rev_app_rev. Qed.

Lemma endsWith_app a p : endsWith (a ++ p) p = true.
Proof. unfold endsWith. rewrite rev_append. apply prefix_app. Qed.

Lemma prefix_inv p s : String.prefix p s = true -> exists t, s = p ++ t.
Proof.
  revert s. induction p as [|a p IH]; intros s H.
  - by exists s.
  - destruct s as [|b s]; [done|]. cbn [String.prefix] in H.
    destruct (ascii_dec a b) as [<-|]; [|done].
    destruct (IH s H) as [t ->]. by exists t.
Qed.

Lemma has_char_app c a b : has_char c (a ++ b) = has_char c a || has_char c b.
Proof. induction a as [|x a IH]; simpl; [done|]. by rewrite IH, orb_assoc. Qed.

Lemma count_char_app c a b : count_char c (a ++ b) = count_char c a + count_char c b.
Proof. induction a as [|x a IH]; simpl; [done|]. rewrite IH. lia. Qed.


Lemma split_char_length sep s : length (split_char sep s) = S (count_char sep s).
Proof.
  induction s as [|x s IH]; simpl; [done|].
  destruct (Ascii.eqb x sep); simpl; [by rewrite IH|].
  destruct (split_char sep s); simpl in *; lia.
Qed.

(** A text without the separator is one piece. *)
Lemma split_char_whole sep s : has_char sep s = false -> split_char sep s = [s].
Proof.
  induction s as [|x s IH]; simpl; [done|].
  destruct (Ascii.eqb x sep); [done|]. intros H. by rewrite (IH H).
Qed.

Lemma split_char_app sep a b :
  has_char sep a = false ->
  split_char sep (a ++ String sep b) = a :: split_char sep b.
Proof.
  induction a as [|x a IH]; simpl.
  - by rewrite Ascii.eqb_refl.
  - destruct (Ascii.eqb x sep); [done|]. intros H. by rewrite (IH H).
Qed.

(** Splitting undoes joining when no part holds the separator. *)
Lemma split_char_join sep part parts :
  Forall (fun p => has_char sep p = false) (part :: parts) ->
  split_char sep (join (String sep "") (part :: parts)) = part :: parts.
Proof.
  revert part. induction parts as [|q parts IH]; intros part H.
  - apply split_char_whole. by apply Forall_inv in H.
  - apply Forall_cons in H as [Hp H].
    change (join (String sep "") (part :: q :: parts))
      with (part ++ String sep (join (String sep "") (q :: parts))).
    rewrite split_char_app by done. by rewrite IH.
Qed.

Lemma has_char_join c sep parts :
  has_char c sep = false ->
  Forall (fun p => has_char c p = false) parts ->
  has_char c (join sep parts) = false.
Proof.
  intros Hs. induction parts as [|p parts IH]; intros H; [done|].
  apply Forall_cons in H as [Hp H].
  destruct parts as [|q parts]; [done|].
  change (join sep (p :: q :: parts)) with (p ++ sep ++ join sep (q :: parts)).
  rewrite !has_char_app, Hp, Hs. by apply IH.
Qed.

Lemma count_char_join c part parts :
  count_char c (join (String c "") (part :: parts))
  = length parts + sum_list (count_char c <$> (part :: parts)).
Proof.
  revert part. induction parts as [|q parts IH]; intros part.
  - simpl. lia.
  - change (join (String c "") (part :: q :: parts))
      with (part ++ String c (join (String c "") (q :: parts))).
    rewrite count_char_app. cbn [count_char]. rewrite Ascii.eqb_refl, IH.
    rewrite !fmap_cons. cbn [sum_list sum_list_with length]. unfold id. lia.
Qed.



End Text.

(** ** The CSV text *)

Section Csv.

Lemma record_keys_plain obj c :
  c = comma \/ c = linefeed ->
  Forall (fun k => has_char c k = false) (record_keys obj).
Proof.
  intros [-> | ->]; unfold record_keys; destruct (packageLicense obj);
    repeat constructor.
Qed.

Lemma record_cells_cons obj : exists cell cells, record_cells obj = cell :: cells.
Proof. unfold record_cells, record_values. simpl. eauto. Qed.

Lemma record_keys_cons obj : exists k ks, record_keys obj = k :: ks.
Proof. unfold record_keys. simpl. eauto. Qed.

(** The text of [toCsv] is its lines joined: the header, then a row for
    each record. *)
Lemma toCsv_lines first rest :
  toCsv (first :: rest)
  = Normal (join (String linefeed "")
              (join (String comma "") (record_keys first)
               :: ((fun obj => join (String comma "") (record_cells obj))
                     <$> (first :: rest)))).
Proof. done. Qed.

Lemma split_lines first rest :
  Forall (fun obj => Forall (fun cell => has_char linefeed cell = false)
                       (record_cells obj)) (first :: rest) ->
  exists csv,
    toCsv (first :: rest) = Normal csv
    /\ split_char linefeed csv
       = join (String comma "") (record_keys first)
         :: ((fun obj => join (String comma "") (record_cells obj))
               <$> (first :: rest)).
Proof.
  intros H. eexists. split; [apply toCsv_lines|].
  apply split_char_join. constructor.
  - apply has_char_join; [done|]. apply record_keys_plain. by right.
  - apply Forall_fmap. eapply Forall_impl; [exact H|].
    intros obj Hobj. unfold compose. by apply has_char_join.
Qed.

Lemma split_cells obj :
  Forall (fun cell => has_char comma cell = false) (record_cells obj) ->
  split_char comma (join (String comma "") (record_cells obj)) = record_cells obj.
Proof.
  intros H. destruct (record_cells_cons obj) as (cell & cells & E).
  rewrite E in *. by apply split_char_join.
Qed.

Lemma count_cells obj :
  length (split_char comma (join (String comma "") (record_cells obj)))
  = length (record_cells obj) + sum_list (count_char comma <$> record_cells obj).
Proof.
  rewrite split_char_length.
  destruct (record_cells_cons obj) as (cell & cells & E). rewrite E.
  rewrite count_char_join. simpl. lia.
Qed.

End Csv.

(** Reading the text of [toCsv] back. *)
Lemma toCsv_cells (first : PackageDotJsonDependency)
  (rest : list PackageDotJsonDependency) :
  Forall (fun obj =>
            Forall (fun cell => has_char comma cell = false
                                /\ has_char linefeed cell = false)
              (record_cells obj)) (first :: rest) ->
  exists csv,
    toCsv (first :: rest) = Normal csv
    /\ csv_cells csv = record_keys first :: (record_cells <$> (first :: rest)).
Proof.
  intros H.
  destruct (split_lines first rest) as (csv & E & Hl).
  { eapply Forall_impl; [exact H|]. intros obj Hobj. cbv beta in *.
    eapply Forall_impl; [exact Hobj|]. by intros cell [_ ?]. }
  exists csv. split; [done|]. unfold csv_cells. rewrite Hl, fmap_cons. f_equal.
  - destruct (record_keys_cons first) as (k & ks & Ek). rewrite Ek.
    apply split_char_join. rewrite <- Ek. apply record_keys_plain. by left.
  - rewrite <- list_fmap_compose. apply Forall_fmap_ext.
    eapply Forall_impl; [exact H|]. intros obj Hobj. unfold compose.
    apply split_cells. eapply Forall_impl; [exact Hobj|]. by intros cell [? _].
Qed.

(** X1. The CSV text can be read back: when no cell of any record holds a
    comma or a line feed, splitting the text of [toCsv] into lines and the
    lines at their commas yields the header, which is the list of the keys
    of the first record, and then for every record, in order, a row with
    exactly the values of the record. *)
Theorem X1_csv_read_back (first : PackageDotJsonDependency)
  (rest : list PackageDotJsonDependency) :
  Forall (fun obj =>
            Forall (fun cell => has_char comma cell = false
                                /\ has_char linefeed cell = false)
              (record_cells obj)) (first :: rest) ->
  exists csv,
    toCsv (first :: rest) = Normal csv
    /\ csv_cells csv = record_keys first :: (record_cells <$> (first :: rest)).
Proof. apply toCsv_cells. Qed.

(** The report of the sample run of two projects, read back. *)
Lemma X1_two_projects :
  exists csv,
    toCsv [set_packageLicense Samples.left_pad (JStr "WTFPL");
           set_packageLicense Samples.right_pad (JStr "MIT")] = Normal csv
    /\ csv_cells csv
       = [["projectName"; "packageName"; "packageVersion"; "packageLicense"];
          ["proj-a"; "left-pad"; "1.0.0"; "WTFPL"];
          ["proj-b"; "right-pad"; "2.0.0"; "MIT"]].
Proof.
  apply (X1_csv_read_back (set_packageLicense Samples.left_pad (JStr "WTFPL"))
           [set_packageLicense Samples.right_pad (JStr "MIT")]).
  repeat constructor.
Defined.

(** X2. [toCsv] escapes nothing: when no cell holds a line feed, the text
    has one line for the header and one for each record, and the row of a
    record has as many cells as the record has values, plus one for every
    comma inside its values.  So a comma in a license shifts the columns of
    its row. *)
Theorem X2_csv_no_escaping (first : PackageDotJsonDependency)
  (rest : list PackageDotJsonDependency) :
  Forall (fun obj => Forall (fun cell => has_char linefeed cell = false)
                       (record_cells obj)) (first :: rest) ->
  exists csv,
    toCsv (first :: rest) = Normal csv
    /\ length <$> csv_cells csv
       = length (record_keys first)
         :: ((fun obj => length (record_cells obj)
                         + sum_list (count_char comma <$> record_cells obj))
               <$> (first :: rest)).
Proof.
  intros H. destruct (split_lines first rest H) as (csv & E & Hl).
  exists csv. split; [done|]. unfold csv_cells. rewrite Hl, !fmap_cons. f_equal.
  - destruct (record_keys_cons first) as (k & ks & Ek). rewrite Ek.
    rewrite split_char_join; [done|]. rewrite <- Ek. apply record_keys_plain. by left.
  - rewrite <- !list_fmap_compose. f_equal; [apply count_cells|].
    apply list_fmap_ext. intros i obj _. unfold compose. apply count_cells.
Qed.

(** A license with a comma in it: four cells in the header, five in the
    row. *)
Lemma X2_license_with_comma :
  exists csv,
    toCsv [set_packageLicense Samples.left_pad (JStr "MIT, Apache-2.0")] = Normal csv
    /\ length <$> csv_cells csv = [4; 5].
Proof.
  apply (X2_csv_no_escaping
           (set_packageLicense Samples.left_pad (JStr "MIT, Apache-2.0")) []).
  repeat constructor.
Defined.

(** ** The report of a run *)

Section Report.

Variable w : World.

Lemma writeCsvFile_unfold type packages st :
  writeCsvFile w packages type st
  = match toCsv packages with
    | Normal content =>
        fs_writeFileSync w
          ("." ++ type_name type ++ "."
           ++ replace_colons (toISOString w (clock st)) ++ ".csv")
          content st
    | Throw e => (Throw e, st)
    end.
Proof. by destruct packages. Qed.


(** The end of [checkDependencies]: the table, then the file unless there
    is no record; the write of the file can fail. *)
Lemma report_outcome type packages st :
  (perform (emit (ConsoleTable packages)) ;;;
   writeCsvFile w packages type ;;;
   ret packages) st
  = match toCsv packages with
    | Normal csv =>
        match writeFileSync w (S (length (trace st)))
                ("." ++ type_name type ++ "."
                 ++ replace_colons (toISOString w (clock st)) ++ ".csv") csv with
        | Normal _ =>
            (Normal packages,
             emit (FileWritten ("." ++ type_name type ++ "."
                                ++ replace_colons (toISOString w (clock st)) ++ ".csv")
                     csv)
               (emit (ConsoleTable packages) st))
        | Throw e =>
            (Throw e,
             emit (FileWriteFailed ("." ++ type_name type ++ "."
                                    ++ replace_colons (toISOString w (clock st))
                                    ++ ".csv"))
               (emit (ConsoleTable packages) st))
        end
    | Throw e => (Throw e, emit (ConsoleTable packages) st)
    end.
Proof.
  unfold bind, perform. cbv beta iota. rewrite writeCsvFile_unfold.
  destruct (toCsv packages) as [csv|e]; [|done].
  unfold fs_writeFileSync. cbn [emit trace length clock].
  by destruct (writeFileSync w _ _ _).
Qed.

Lemma checkDependencies_unfold type st :
  checkDependencies w type st
  = match getDependencies w type st with
    | (Normal extracted, st1) =>
        match resolve_packages w type extracted st1 with
        | (Normal packages, st2) =>
            (perform (emit (ConsoleTable packages)) ;;;
             writeCsvFile w packages type ;;;
             ret packages) st2
        | (Throw e, st2) => (Throw e, st2)
        end
    | (Throw e, st1) => (Throw e, st1)
    end.
Proof. done. Qed.

(** What a normal completion of [checkDependencies] went through. *)
Lemma checkDependencies_normal type st packages st' :
  checkDependencies w type st = (Normal packages, st') ->
  exists extracted st1 st2 csv,
    getDependencies w type st = (Normal extracted, st1)
    /\ resolve_packages w type extracted st1 = (Normal packages, st2)
    /\ packages <> []
    /\ toCsv packages = Normal csv
    /\ st' = emit (FileWritten ("." ++ type_name type ++ "."
                                ++ replace_colons (toISOString w (clock st2)) ++ ".csv")
                     csv)
               (emit (ConsoleTable packages) st2).
Proof.
  rewrite checkDependencies_unfold.
  destruct (getDependencies w type st) as [[extracted|e] st1]; [|done].
  destruct (resolve_packages w type extracted st1) as [[resolved|e] st2] eqn:Er;
    [|done].
  rewrite report_outcome. destruct resolved as [|first rest]; [done|].
  destruct (toCsv (first :: rest)) as [csv|e] eqn:Ec; [|done].
  destruct (writeFileSync w _ _ _); [|done].
  intros [= <- <-]. by exists extracted, st1, st2, csv.
Qed.

Lemma checkDependencies_files type st packages st' :
  checkDependencies w type st = (Normal packages, st') ->
  exists csv,
    toCsv packages = Normal csv
    /\ files_written (trace st')
       = ("." ++ type_name type ++ "."
          ++ replace_colons (toISOString w (clock st')) ++ ".csv", csv)
         :: files_written (trace st).
Proof.
  intros (extracted & st1 & st2 & csv & Eg & Er & _ & Ec & ->)%checkDependencies_normal.
  exists csv. split; [done|]. cbn [emit trace files_written clock]. f_equal.
  apply files_written_sink_events.
  replace st2 with (resolve_packages w type extracted st1).2 by by rewrite Er.
  rewrite resolve_packages_sink_events.
  replace st1 with (getDependencies w type st).2 by by rewrite Eg.
  apply getDependencies_sink_events.
Qed.

Lemma csv_names_differ type type' stamp stamp' :
  type <> type' ->
  "." ++ type_name type ++ "." ++ stamp ++ ".csv"
  <> "." ++ type_name type' ++ "." ++ stamp' ++ ".csv".
Proof. intros H. destruct type, type'; try done; intros [=]. Qed.

End Report.



(** ** The cache during a run *)

(** X4. Cache keys tell the pairs apart: two (name, version) pairs whose
    versions hold no [@] have the same cache key only if they are the same
    pair.  The name may hold an [@], as the names of scoped packages do. *)
Theorem X4_cache_key_injective (n v n' v' : string) :
  has_at v = false -> has_at v' = false ->
  cacheKey_of n v = cacheKey_of n' v' ->
  n = n' /\ v = v'.
Proof. apply at_split. Qed.

(** A scoped package: the key is split at its last [@]. *)
Lemma X4_scoped_package :
  cacheKey_of "@babel/core" "7.24.0" = "@babel/core@7.24.0"
  /\ ("@babel/core" = "@babel/core" /\ "7.24.0" = "7.24.0").
Proof.
  split; [done|].
  by apply (X4_cache_key_injective "@babel/core" "7.24.0" "@babel/core" "7.24.0").
Defined.

(** X5. Nothing is evicted from the cache or overwritten in it: an entry
    that reads as truthy before a run of [checkDependencies], or of [init],
    reads as the same value after it. *)
Theorem X5_cache_entries_kept (w : World) (type : PackageDotJsonDependencyType)
  (st : State) (k : string) :
  truthy (cache_lookup st k) = true ->
  cache_lookup (checkDependencies w type st).2 k = cache_lookup st k
  /\ cache_lookup (init w st).2 k = cache_lookup st k.
Proof.
  intros H. split.
  - apply (later_keeps_entry w); [|done].
    apply (checkDependencies_preserves w (Later w st)).
    + intros n v st' HL. by apply Later_lookup.
    + intros text st' HL. by eapply Later_other.
    + intros text st' HL. by eapply Later_other.
    + intros rows st' HL. by eapply Later_other.
    + intros name content st' HL. by eapply Later_other.
    + intros name st' HL. by eapply Later_other.
    + apply Later_now.
  - apply (later_keeps_entry w); [|done]. apply init_later.
Qed.

(** The entry of [left-pad@1.0.0] survives a whole run of the sample. *)
Lemma X5_left_pad :
  let st := (fetchLicenseForPackage Samples.two_projects "left-pad" "1.0.0"
               initial_state).2 in
  cache_lookup st "left-pad@1.0.0" = JStr "WTFPL"
  /\ cache_lookup (checkDependencies Samples.two_projects Dependencies st).2
       "left-pad@1.0.0"
     = cache_lookup st "left-pad@1.0.0"
  /\ cache_lookup (init Samples.two_projects st).2 "left-pad@1.0.0"
     = cache_lookup st "left-pad@1.0.0".
Proof.
  intros st. split; [by vm_compute|].
  apply (X5_cache_entries_kept Samples.two_projects Dependencies st "left-pad@1.0.0").
  by vm_compute.
Defined.

(** ** Requests *)

Section Budget.

Variable w : World.

(** A lookup sends at most one request, and one that sends a request takes
    1001 ms at least. *)
Lemma fetch_budget n v st :
  let st' := (fetchLicenseForPackage w n v st).2 in
  (requests st' = requests st /\ clock st' = clock st)
  \/ (requests st' = S (requests st) /\ (clock st + 1001 <= clock st')%N).
Proof.
  simpl. destruct (fetch_path w n v st) eqn:P.
  - left. rewrite (fetch_hit _ _ _ _ P). done.
  - left. rewrite (fetch_skip _ _ _ _ P). done.
  - right. destruct (fetch_success _ _ _ _ P) as (l & _ & ->).
    unfold set_cache. cbn [snd clock requests].
    rewrite after_request_requests, after_request_clock. split; [done|lia].
  - right. rewrite (fetch_failure _ _ _ _ P). cbn [snd].
    rewrite after_request_requests, after_request_clock. split; [done|lia].
Qed.

Lemma fetch_paid st0 n v : preserves (paid st0) (fetchLicenseForPackage w n v).
Proof.
  intros st [Hr Hc]. unfold paid.
  destruct (fetch_budget n v st) as [[-> ->]|[-> Ht]]; [done|].
  split; [lia|].
  replace (S (requests st) - requests st0) with (S (requests st - requests st0))
    by lia.
  lia.
Qed.

Lemma paid_emit st0 e st : paid st0 st -> paid st0 (emit e st).
Proof. done. Qed.

Lemma paid_refl st : paid st st.
Proof. split; [done|]. rewrite Nat.sub_diag. simpl. lia. Qed.

(** After its lookup the loop body only writes to the standard output. *)
Lemma resolve_package_end type pkg st :
  exists texts,
    (resolve_package w type pkg st).2
    = written texts
        (fetchLicenseForPackage w (packageName pkg) (packageVersion pkg)
           (emit (StdoutWrite (checkingDisplayMessage type pkg)) st)).2.
Proof.
  unfold resolve_package. unfold bind at 1. unfold perform at 1.
  unfold bind at 1.
  destruct (fetchLicenseForPackage w _ _ _) as [[license|e] st1];
    [|by exists []].
  unfold bind at 1. unfold normalize_license.
  destruct (negb (is_null license) && String.eqb (typeof license) "object").
  - destruct (js_get license "type") as [[| | | |t| |]|];
      try by exists [].
    run. by eexists [_; _].
  - destruct license; run; try by eexists [_].
    by eexists [_; _].
Qed.

Lemma written_state texts st :
  cache (written texts st) = cache st /\ clock (written texts st) = clock st
  /\ requests (written texts st) = requests st
  /\ requested_urls (trace (written texts st)) = requested_urls (trace st).
Proof. induction texts as [|text texts IH]; [done|]. exact IH. Qed.

(** The loop body changes the cache, the clock and the request counter as
    its lookup does, and requests what its lookup requests. *)
Lemma resolve_package_state type pkg st :
  let st1 := (fetchLicenseForPackage w (packageName pkg) (packageVersion pkg)
                (emit (StdoutWrite (checkingDisplayMessage type pkg)) st)).2 in
  let st' := (resolve_package w type pkg st).2 in
  cache st' = cache st1 /\ clock st' = clock st1 /\ requests st' = requests st1
  /\ requested_urls (trace st') = requested_urls (trace st1).
Proof.
  cbv zeta. destruct (resolve_package_end type pkg st) as [texts ->].
  apply written_state.
Qed.

Lemma fetch_requested_urls n v st :
  let st' := (fetchLicenseForPackage w n v st).2 in
  (requests st' = requests st
   /\ requested_urls (trace st') = requested_urls (trace st))
  \/ (requests st' = S (requests st) /\ is_local w v = false
      /\ requested_urls (trace st') = registryUrl_of n v :: requested_urls (trace st)).
Proof.
  simpl. destruct (fetch_path w n v st) eqn:P.
  - left. by destruct (fetch_quiet w n v st) as (-> & _ & ->); [left|].
  - left. by destruct (fetch_quiet w n v st) as (-> & _ & ->); [right|].
  - right. destruct (fetch_request w n v st) as (-> & t & -> & _); [by left|].
    split_and!; [done| |done].
    unfold fetch_path in P.
    destruct (truthy (cache_lookup st (cacheKey_of n v))); [done|].
    by destruct (is_local w v).
  - right. destruct (fetch_request w n v st) as (-> & t & -> & _); [by right|].
    split_and!; [done| |done]. by eapply path_failure_not_local.
Qed.

Lemma resolve_package_requested type pkg st :
  let st' := (resolve_package w type pkg st).2 in
  (requests st' = requests st
   /\ requested_urls (trace st') = requested_urls (trace st))
  \/ (requests st' = S (requests st) /\ is_local w (packageVersion pkg) = false
      /\ requested_urls (trace st') = url_of pkg :: requested_urls (trace st)).
Proof.
  simpl. destruct (resolve_package_state type pkg st) as (_ & _ & -> & ->).
  apply (fetch_requested_urls (packageName pkg) (packageVersion pkg)
           (emit (StdoutWrite (checkingDisplayMessage type pkg)) st)).
Qed.

(** The loop requests the URLs of some of its records, in order, one
    request for each, and none for a local version. *)
Lemma resolve_packages_requested type packages st :
  exists asked,
    sublist asked packages
    /\ Forall (fun pkg => is_local w (packageVersion pkg) = false) asked
    /\ requested_urls (trace (resolve_packages w type packages st).2)
       = (rev (url_of <$> asked) ++ requested_urls (trace st))%list
    /\ requests (resolve_packages w type packages st).2
       = requests st + length asked.
Proof.
  revert st. induction packages as [|pkg rest IH]; intros st.
  - exists []. by split_and!.
  - cbn [resolve_packages]. unfold bind, ret.
    pose proof (resolve_package_requested type pkg st) as Hp.
    destruct (resolve_package w type pkg st) as [[pkg'|e] st1]; cbn [snd] in Hp.
    + destruct (IH st1) as (asked & Hs & Hl & Hu & Hr).
      assert ((let (c, st'0) := resolve_packages w type rest st1 in
               match c with
               | Normal a => (Normal (pkg' :: a), st'0)
               | Throw e => (Throw e, st'0)
               end).2 = (resolve_packages w type rest st1).2) as ->.
      { by destruct (resolve_packages w type rest st1) as [[]]. }
      destruct Hp as [[Er Eu]|(Er & Hloc & Eu)].
      * exists asked. rewrite Hu, Hr, Er, Eu. split_and!; try done.
        by apply sublist_cons.
      * exists (pkg :: asked). rewrite Hu, Hr, Er, Eu. split_and!.
        -- by apply sublist_skip.
        -- by constructor.
        -- rewrite fmap_cons. cbn [rev]. by rewrite <- app_assoc.
        -- simpl. lia.
    + destruct Hp as [[Er Eu]|(Er & Hloc & Eu)]; cbn [snd]; rewrite Er, Eu.
      * exists []. split_and!; [apply sublist_nil_l|done|done|simpl; lia].
      * exists [pkg]. split_and!; [|by repeat constructor|done|simpl; lia].
        apply sublist_skip, sublist_nil_l.
Qed.

(** Extraction reads the directory and the manifests and warns; it touches
    nothing else. *)
Lemma getDependencies_state type st :
  let st' := (getDependencies w type st).2 in
  cache st' = cache st /\ clock st' = clock st /\ requests st' = requests st
  /\ requested_urls (trace st') = requested_urls (trace st)
  /\ announced (trace st') = announced (trace st)
  /\ stdout_of (trace st') = stdout_of (trace st).
Proof.
  apply (getDependencies_preserves w
           (fun st' => cache st' = cache st /\ clock st' = clock st
                       /\ requests st' = requests st
                       /\ requested_urls (trace st') = requested_urls (trace st)
                       /\ announced (trace st') = announced (trace st)
                       /\ stdout_of (trace st') = stdout_of (trace st))).
  - by intros text st'.
  - done.
Qed.

End Budget.

(** X6. Requests take their time: at the end of a run of
    [checkDependencies], and of [init], the clock has advanced by at least
    1001 ms for every request the run sent, whether the lookups succeeded
    or failed. *)
Theorem X6_requests_take_time (w : World) (type : PackageDotJsonDependencyType)
  (st : State) :
  (requests st <= requests (checkDependencies w type st).2
   /\ (clock st
       + 1001 * N.of_nat (requests (checkDependencies w type st).2 - requests st)
       <= clock (checkDependencies w type st).2)%N)
  /\ (requests st <= requests (init w st).2
      /\ (clock st + 1001 * N.of_nat (requests (init w st).2 - requests st)
          <= clock (init w st).2)%N).
Proof.
  split.
  - apply (checkDependencies_preserves w (paid st)); try (intros; by apply paid_emit).
    + apply fetch_paid.
    + apply paid_refl.
  - apply (init_preserves w (paid st)); try (intros; by apply paid_emit).
    + apply fetch_paid.
    + apply paid_refl.
Qed.

(** X7. What a run asks of the registry: the URLs that [checkDependencies]
    requests are, in order, the URLs
    [https://registry.npmjs.org/<name>/<version>] of some of the extracted
    records, at most one request for each record, and none for a record
    whose version is a [file:] or [link:] specifier; extraction itself
    requests nothing. *)
Theorem X7_requests_of_a_run (w : World) (type : PackageDotJsonDependencyType)
  (st st1 : State) (packages : list PackageDotJsonDependency) :
  getDependencies w type st = (Normal packages, st1) ->
  exists asked,
    sublist asked packages
    /\ Forall (fun pkg => is_local w (packageVersion pkg) = false) asked
    /\ requested_urls (trace (checkDependencies w type st).2)
       = (rev (url_of <$> asked) ++ requested_urls (trace st))%list
    /\ requests (checkDependencies w type st).2 = requests st + length asked
    /\ length asked <= length packages.
Proof.
  intros Eg.
  destruct (getDependencies_state w type st) as (_ & _ & Hr & Hu & _).
  rewrite Eg in Hr, Hu. cbn [snd] in Hr, Hu.
  destruct (resolve_packages_requested w type packages st1)
    as (asked & Hs & Hl & Eu & Er).
  exists asked. rewrite checkDependencies_unfold, Eg.
  destruct (resolve_packages w type packages st1) as [[resolved|e] st2];
    cbn [snd] in Eu, Er.
  - rewrite report_outcome.
    split_and!; [done|done| | |by apply sublist_length].
    + destruct (toCsv resolved); [destruct (writeFileSync w _ _ _)|];
        cbn [snd emit trace requested_urls]; by rewrite Eu, Hu.
    + destruct (toCsv resolved); [destruct (writeFileSync w _ _ _)|];
        cbn [snd emit requests]; by rewrite Er, Hr.
  - cbn [snd]. rewrite Eu, Er, Hu, Hr.
    split_and!; [done|done|done|done|by apply sublist_length].
Qed.

(** The sample run of two projects requests the URLs of its two records. *)
Lemma X7_two_projects :
  exists asked,
    sublist asked [Samples.left_pad; Samples.right_pad]
    /\ Forall (fun pkg => is_local Samples.two_projects (packageVersion pkg) = false)
         asked
    /\ requested_urls
         (trace (checkDependencies Samples.two_projects Dependencies initial_state).2)
       = (rev (url_of <$> asked) ++ [])%list
    /\ requests (checkDependencies Samples.two_projects Dependencies initial_state).2
       = 0 + length asked
    /\ length asked <= 2.
Proof.
  apply (X7_requests_of_a_run Samples.two_projects Dependencies initial_state
           (getDependencies Samples.two_projects Dependencies initial_state).2).
  by vm_compute.
Defined.

Section Once.

Variable w : World.

Lemma cache_map_set c st : cache_map (set_cache c st) = c.
Proof. done. Qed.

Lemma cache_map_after_request url st :
  cache_map (after_request w url st) = cache_map st.
Proof. unfold cache_map. by rewrite after_request_cache. Qed.

(** In a cache of truthy values, a key that reads as falsy is absent. *)
Lemma cache_map_miss st k :
  cache_truthy st -> truthy (cache_lookup st k) = false -> cache_map st !! k = None.
Proof.
  unfold cache_truthy, cache_lookup, cache_map. intros Ht Hm.
  destruct (cache st) as [c|]; simpl in *; [|apply lookup_empty].
  destruct (c !! k) as [x|] eqn:E; [|done].
  simpl in Hm. rewrite (Ht c k x eq_refl E) in Hm. done.
Qed.

Lemma fetch_grown st0 n v :
  always_answered w -> preserves (grown st0) (fetchLicenseForPackage w n v).
Proof.
  intros answered st [Ht Hg]. split; [by apply fetch_cache_truthy|].
  destruct (fetch_path w n v st) eqn:P.
  - by rewrite (fetch_hit _ _ _ _ P).
  - rewrite (fetch_skip _ _ _ _ P). cbn [snd]. rewrite cache_map_set.
    fold (cache_map st).
    rewrite map_size_insert_None
      by (apply cache_map_miss; [done|]; by apply (path_miss w); rewrite P).
    unfold set_cache. cbn [requests]. lia.
  - destruct (fetch_success _ _ _ _ P) as (l & _ & ->).
    cbn [snd]. rewrite cache_map_set. fold (cache_map st).
    rewrite map_size_insert_None
      by (apply cache_map_miss; [done|]; by apply (path_miss w); rewrite P).
    unfold set_cache. cbn [requests]. rewrite after_request_requests. lia.
  - exfalso. unfold fetch_path in P.
    destruct (truthy (cache_lookup st (cacheKey_of n v))); [done|].
    destruct (is_local w v); [done|].
    destruct (answered (requests st) (registryUrl_of n v)) as [l Hl].
    by rewrite Hl in P.
Qed.

Lemma grown_emit st0 e st : grown st0 st -> grown st0 (emit e st).
Proof. done. Qed.

Lemma grown_refl st : cache_truthy st -> grown st st.
Proof. intros H. split; [done|lia]. Qed.

(** A lookup adds its own key to the cache, or nothing. *)
Lemma fetch_dom n v st :
  dom (cache_map (fetchLicenseForPackage w n v st).2)
  ⊆ dom (cache_map st) ∪ {[cacheKey_of n v]}.
Proof.
  destruct (fetch_path w n v st) eqn:P.
  - rewrite (fetch_hit _ _ _ _ P). apply union_subseteq_l.
  - rewrite (fetch_skip _ _ _ _ P). cbn [snd]. rewrite cache_map_set.
    fold (cache_map st). by rewrite dom_insert_L, (comm_L (∪)).
  - destruct (fetch_success _ _ _ _ P) as (l & _ & ->). cbn [snd].
    rewrite cache_map_set. fold (cache_map st).
    by rewrite dom_insert_L, (comm_L (∪)).
  - rewrite (fetch_failure _ _ _ _ P). cbn [snd].
    rewrite cache_map_after_request. apply union_subseteq_l.
Qed.

Lemma dom_step (D D1 D2 S : gset string) (k : string) :
  D1 ⊆ D ∪ {[k]} -> D2 ⊆ D1 ∪ S -> D2 ⊆ D ∪ ({[k]} ∪ S).
Proof.
  intros H1 H2 x Hx. apply H2 in Hx. rewrite !elem_of_union in *.
  destruct Hx as [Hx|Hx]; [|tauto].
  apply H1 in Hx. rewrite elem_of_union in Hx. tauto.
Qed.

Lemma resolve_packages_dom type packages st :
  dom (cache_map (resolve_packages w type packages st).2)
  ⊆ dom (cache_map st) ∪ list_to_set (key_of <$> packages).
Proof.
  revert st. induction packages as [|pkg rest IH]; intros st.
  - apply union_subseteq_l.
  - cbn [resolve_packages]. unfold bind, ret.
    assert (dom (cache_map (resolve_package w type pkg st).2)
            ⊆ dom (cache_map st) ∪ {[key_of pkg]}) as Hp.
    { unfold cache_map at 1.
      destruct (resolve_package_state w type pkg st) as (-> & _).
      apply (fetch_dom (packageName pkg) (packageVersion pkg)
               (emit (StdoutWrite (checkingDisplayMessage type pkg)) st)). }
    rewrite fmap_cons, list_to_set_cons.
    destruct (resolve_package w type pkg st) as [[pkg'|e] st1]; cbn [snd] in Hp |- *.
    + specialize (IH st1). apply (dom_step _ _ _ _ _ Hp).
      by destruct (resolve_packages w type rest st1) as [[resolved|e] st2].
    + apply (dom_step _ _ _ _ _ Hp). apply union_subseteq_l.
Qed.

(** The keys of [keys] that the state [st] does not hold, each once. *)
Lemma size_grown_bound st (c : gmap string JsVal) (keys : list string) :
  cache_truthy st ->
  dom c ⊆ dom (cache_map st) ∪ list_to_set keys ->
  size c
  <= size (cache_map st)
     + length (List.filter (fun k => negb (truthy (cache_lookup st k)))
                 (remove_dups keys)).
Proof.
  intros Ht H. rewrite <- !size_dom.
  etrans; [apply (subseteq_size _ _ H)|].
  rewrite size_union_alt.
  apply Nat.add_le_mono_l.
  etrans; [apply (subseteq_size _
                    (list_to_set (List.filter
                                    (fun k => negb (truthy (cache_lookup st k)))
                                    (remove_dups keys))))|].
  - intros x [Hx Hn]%elem_of_difference.
    apply elem_of_list_to_set, list_elem_of_In, filter_In. split.
    + apply list_elem_of_In, elem_of_remove_dups. by apply elem_of_list_to_set in Hx.
    + destruct (truthy (cache_lookup st x)) eqn:E; [|done].
      destruct Hn. apply elem_of_dom. unfold cache_map.
      destruct (truthy_lookup_cache _ _ E) as (c' & Hc & Hk).
      rewrite Hc. by eexists.
  - rewrite size_list_to_set; [done|].
    apply NoDup_ListNoDup, List.NoDup_filter, NoDup_ListNoDup, NoDup_remove_dups.
Qed.

Lemma resolve_packages_budget type packages st :
  always_answered w -> cache_truthy st ->
  requests (resolve_packages w type packages st).2
  <= requests st
     + length (List.filter (fun k => negb (truthy (cache_lookup st k)))
                 (remove_dups (key_of <$> packages))).
Proof.
  intros Ha Ht.
  assert (grown st (resolve_packages w type packages st).2) as [_ Hg].
  { apply (resolve_packages_preserves w (grown st)).
    - intros n v. by apply fetch_grown.
    - intros text st'. apply grown_emit.
    - by apply grown_refl. }
  pose proof (size_grown_bound st _ _ Ht (resolve_packages_dom type packages st)).
  lia.
Qed.

End Once.

(** X8. The cache saves requests: when every request is answered with a
    body whose license can be read, a run of [checkDependencies] sends at
    most one request for each distinct cache key [<name>@<version>] among
    the extracted records that the cache does not hold when the run starts,
    however often a package occurs in the manifests. *)
Theorem X8_one_request_per_key (w : World) (type : PackageDotJsonDependencyType)
  (packages : list PackageDotJsonDependency) (st st1 : State) :
  always_answered w -> cache_truthy st ->
  getDependencies w type st = (Normal packages, st1) ->
  requests (checkDependencies w type st).2
  <= requests st
     + length (List.filter (fun k => negb (truthy (cache_lookup st k)))
                 (remove_dups (key_of <$> packages))).
Proof.
  intros Ha Ht Eg.
  destruct (getDependencies_state w type st) as (Hc & _ & Hr & _).
  rewrite Eg in Hc, Hr. cbn [snd] in Hc, Hr.
  assert (cache_truthy st1) as Ht1.
  { intros c k x. rewrite Hc. apply Ht. }
  pose proof (resolve_packages_budget w type packages st1 Ha Ht1) as Hb.
  assert (forall k, cache_lookup st1 k = cache_lookup st k) as Hk.
  { intros k. unfold cache_lookup. by rewrite Hc. }
  rewrite (filter_ext _ (fun k => negb (truthy (cache_lookup st k)))) in Hb
    by (intros k; by rewrite Hk).
  rewrite checkDependencies_unfold, Eg.
  destruct (resolve_packages w type packages st1) as [[resolved|e] st2];
    cbn [snd] in Hb |- *.
  - rewrite report_outcome.
    destruct (toCsv resolved); [destruct (writeFileSync w _ _ _)|];
      cbn [snd emit requests]; lia.
  - lia.
Qed.

(** Three records with two distinct keys: two requests at most in a first
    run, and none in a second run, which finds both keys in the cache. *)
Lemma X8_all_mit :
  let packages :=
    [Samples.widget_of "one"; Samples.widget_of "two"; Samples.gadget] in
  let st := (checkDependencies Samples.all_mit Dependencies initial_state).2 in
  requests st <= 0 + 2
  /\ requests (checkDependencies Samples.all_mit Dependencies st).2
     <= requests st + 0.
Proof.
  intros packages st. split.
  - apply (X8_one_request_per_key Samples.all_mit Dependencies packages initial_state
             (getDependencies Samples.all_mit Dependencies initial_state).2).
    + intros n url. by eexists.
    + apply cache_truthy_initial.
    + by vm_compute.
  - apply (X8_one_request_per_key Samples.all_mit Dependencies packages st
             (getDependencies Samples.all_mit Dependencies st).2).
    + intros n url. by eexists.
    + apply (checkDependencies_preserves Samples.all_mit cache_truthy);
        try (intros; by apply cache_truthy_emit).
      * apply fetch_cache_truthy.
      * apply cache_truthy_initial.
    + by vm_compute.
Defined.

(** ** Extraction *)

Section Entries.

Context {A : Type}.










End Entries.



Section ProjectName.

Lemma rev_not_empty s : s <> "" -> String.rev s <> "".
Proof.
  destruct s as [|c s]; [done|]. intros _.
  change (String c s) with (String c "" ++ s). rewrite rev_append.
  change (String.rev (String c "")) with (String c "").
  by destruct (String.rev s).
Qed.

Lemma not_dots base : (base ++ ".json" =? "..") = false.
Proof.
  apply String.eqb_neq. destruct base as [|c [|c' [|c'' base]]]; try done.
Qed.

(** The extension of a name that ends in [.json], unless the name is
    [.json] itself. *)
Lemma path_extname_json base : base <> "" -> path_extname (base ++ ".json") = ".json".
Proof.
  intros Hb. unfold path_extname. rewrite rev_append, not_dots.
  change (String.rev ".json") with "nosj.".
  pose proof (rev_not_empty base Hb) as Hr.
  destruct (String.rev base) as [|c r]; [done|]. done.
Qed.

(** No occurrence of [.json] begins before an occurrence and runs into
    it: only the first character of [.json] is a dot. *)
Lemma prefix_json_app s rest :
  s <> "" -> String.prefix ".json" s = false ->
  String.prefix ".json" (s ++ ".json" ++ rest) = false.
Proof.
  intros Hs Hp.
  destruct (String.prefix ".json" (s ++ ".json" ++ rest)) eqn:E; [|done].
  exfalso. apply prefix_inv in E as [t E].
  destruct s as [|c1 [|c2 [|c3 [|c4 [|c5 s]]]]]; try done.
  injection E as -> -> -> -> -> _.
  pose proof (prefix_app ".json" s) as Hq.
  change (".json" ++ s)
    with (String "." (String "j" (String "s" (String "o" (String "n" s))))) in Hq.
  congruence.
Qed.

(** Removing the first [.json] of a name removes the one that follows a
    beginning without [.json]. *)
Lemma replace_first_json a rest :
  includes a ".json" = false ->
  replace_first ".json" "" (a ++ ".json" ++ rest) = a ++ rest.
Proof.
  induction a as [|c a IH]; intros H.
  - change ("" ++ ".json" ++ rest) with (".json" ++ rest).
    unfold replace_first. destruct (".json" ++ rest) eqn:E; [done|].
    rewrite <- E, prefix_app. rewrite E. by injection E as <- <-.
  - cbn [includes] in H. apply orb_false_iff in H as [Hp Hi].
    change (String c a ++ ".json" ++ rest) with (String c (a ++ ".json" ++ rest)).
    cbn [replace_first].
    change (String c (a ++ ".json" ++ rest)) with (String c a ++ ".json" ++ rest).
    rewrite prefix_json_app by done.
    change (String c a ++ rest) with (String c (a ++ rest)). f_equal. by apply IH.
Qed.

End ProjectName.

(** X10. The project name of a record is the file name of its manifest
    without the extension [.json], for every file name [<base>.json] whose
    base is not empty and does not hold [.json] itself.  When the base does
    hold [.json], it is the first [.json] of the name that is removed, and
    the extension stays. *)
Theorem X10_project_name (w : World) (entry : string * string) :
  (forall base,
      base <> "" -> includes base ".json" = false ->
      endsWith (base ++ ".json") ".json" = true
      /\ projectName (dependency_of w (base ++ ".json") entry) = base)
  /\ (forall a b,
         includes a ".json" = false ->
         endsWith (a ++ ".json" ++ b ++ ".json") ".json" = true
         /\ projectName (dependency_of w (a ++ ".json" ++ b ++ ".json") entry)
            = a ++ b ++ ".json").
Proof.
  split.
  - intros base Hb Hi. split; [apply endsWith_app|].
    unfold dependency_of. cbn [projectName]. rewrite path_extname_json by done.
    pose proof (replace_first_json base "" Hi) as H.
    change (".json" ++ "") with ".json" in H. rewrite H. apply append_empty.
  - intros a b Hi. split.
    + rewrite <- (append_assoc ".json" b ".json"), <- (append_assoc a _ ".json").
      apply endsWith_app.
    + unfold dependency_of. cbn [projectName].
      replace (path_extname (a ++ ".json" ++ b ++ ".json")) with ".json".
      * by apply replace_first_json.
      * rewrite <- (append_assoc ".json" b ".json"), <- (append_assoc a _ ".json").
        symmetry. apply path_extname_json. by destruct a.
Qed.

(** A base with a dot in it, and a base with [.json] in it. *)
Lemma X10_file_names :
  projectName (dependency_of Samples.two_projects "web.app.json" ("left-pad", "1.0.0"))
  = "web.app"
  /\ projectName (dependency_of Samples.two_projects "app.json.old.json"
                    ("left-pad", "1.0.0"))
     = "app.old.json".
Proof.
  destruct (X10_project_name Samples.two_projects ("left-pad", "1.0.0"))
    as [H1 H2].
  split.
  - by apply (H1 "web.app").
  - by apply (H2 "app" ".old").
Defined.

Section Manifests.

Variable w : World.

Lemma read_manifests_trace type filenames manifest_of acc st :
  (forall filename, In filename filenames ->
     readManifest w (path_join packageFilesDir filename) = Normal (manifest_of filename)) ->
  trace (read_manifests w type filenames acc st).2
  = (warnings_of type manifest_of filenames ++ trace st)%list.
Proof.
  revert acc st. induction filenames as [|filename rest IH]; intros acc st H.
  - done.
  - cbn [read_manifests]. unfold bind at 1. unfold lift.
    rewrite (H filename) by by left.
    unfold warnings_of, lacks. cbn [List.filter].
    destruct (manifest_get (manifest_of filename) type) as [deps|] eqn:E.
    + apply IH. intros fn Hfn. apply H. by right.
    + unfold bind at 1. unfold perform at 1.
      rewrite IH by (intros fn Hfn; apply H; by right).
      rewrite fmap_cons. cbn [rev]. rewrite <- app_assoc. done.
Qed.

(** A manifest that cannot be read, after manifests that can, ends the
    extraction with its exception. *)
Lemma read_manifests_throw type before filename after e acc st :
  Forall (fun fn => exists m, readManifest w (path_join packageFilesDir fn) = Normal m)
    before ->
  readManifest w (path_join packageFilesDir filename) = Throw e ->
  (read_manifests w type (before ++ filename :: after) acc st).1 = Throw e.
Proof.
  intros Hb He. revert acc st. induction Hb as [|fn before [m Hm] Hb IH]; intros acc st.
  - cbn [app read_manifests]. unfold bind at 1. unfold lift. by rewrite He.
  - cbn [app read_manifests]. unfold bind at 1. unfold lift. rewrite Hm.
    destruct (manifest_get m type); [apply IH|].
    unfold bind at 1. unfold perform at 1. apply IH.
Qed.

End Manifests.

(** X11. When the manifests can be read, extraction writes one warning for
    every [.json] file whose manifest lacks the requested kind, in the
    order of the directory listing, and does nothing else that could be
    observed: no other event, no request, no change of the cache or of the
    clock. *)
Theorem X11_missing_kind_warnings (w : World) (type : PackageDotJsonDependencyType)
  (names : list string) (manifest_of : string -> Manifest) (st : State) :
  readdir w packageFilesDir = Normal names ->
  (forall filename, In filename names -> endsWith filename ".json" = true ->
     readManifest w (path_join packageFilesDir filename) = Normal (manifest_of filename)) ->
  let st' := (getDependencies w type st).2 in
  trace st'
  = (warnings_of type manifest_of (List.filter (fun fn => endsWith fn ".json") names)
     ++ trace st)%list
  /\ cache st' = cache st /\ clock st' = clock st /\ requests st' = requests st.
Proof.
  intros Hd Hm. cbv zeta. split.
  - unfold getDependencies. unfold bind at 1. unfold lift. rewrite Hd.
    apply read_manifests_trace. intros filename [Hin He]%filter_In. by apply Hm.
  - by destruct (getDependencies_state w type st) as (? & ? & ? & _).
Qed.

(** The two sample projects declare no [devDependencies]: two warnings, the
    one for [proj-a.json] first. *)
Lemma X11_two_projects :
  let st' := (getDependencies Samples.two_projects DevDependencies initial_state).2 in
  trace st'
  = ([ConsoleWarn (missing_kind_warning DevDependencies "proj-b.json");
      ConsoleWarn (missing_kind_warning DevDependencies "proj-a.json")]
     ++ [])%list
  /\ cache st' = None /\ clock st' = 0%N /\ requests st' = 0.
Proof.
  apply (X11_missing_kind_warnings Samples.two_projects DevDependencies
           ["proj-a.json"; "README.md"; "proj-b.json"]
           (Samples.manifest_in Samples.two_projects) initial_state).
  - done.
  - intros filename [<-|[<-|[<-|[]]]]; by vm_compute.
Defined.

(** X12. One manifest that cannot be read or parsed ends the run: when the
    [.json] files before it can be read, [checkDependencies] throws the
    exception of that manifest before it looks up any package.  No package
    is announced, no request is sent, the cache and the clock are as they
    were, and neither a table nor a file is produced, also not for the
    manifests that were read. *)
Theorem X12_unreadable_manifest (w : World) (type : PackageDotJsonDependencyType)
  (names before after : list string) (filename : string) (e : Exception)
  (st : State) :
  readdir w packageFilesDir = Normal names ->
  List.filter (fun fn => endsWith fn ".json") names = (before ++ filename :: after)%list ->
  Forall (fun fn => exists m, readManifest w (path_join packageFilesDir fn) = Normal m)
    before ->
  readManifest w (path_join packageFilesDir filename) = Throw e ->
  exists st',
    checkDependencies w type st = (Throw e, st')
    /\ cache st' = cache st /\ clock st' = clock st /\ requests st' = requests st
    /\ announced (trace st') = announced (trace st)
    /\ sink_events (trace st') = sink_events (trace st).
Proof.
  intros Hd Hf Hb He.
  assert ((getDependencies w type st).1 = Throw e) as Hg.
  { unfold getDependencies. unfold bind at 1. unfold lift. rewrite Hd, Hf.
    by apply read_manifests_throw. }
  pose proof (getDependencies_state w type st) as Hs.
  pose proof (getDependencies_sink_events w type st) as Hk.
  exists (getDependencies w type st).2. rewrite checkDependencies_unfold.
  destruct (getDependencies w type st) as [[extracted|e'] st1];
    cbn [fst snd] in *; [done|].
  injection Hg as ->. by destruct Hs as (? & ? & ? & _ & ? & _).
Qed.

(** The sample directory whose second manifest is missing. *)
Lemma X12_broken_manifest :
  exists st',
    checkDependencies Samples.unreadable Dependencies initial_state
    = (Throw (HostError "ENOENT: no such file or directory"), st')
    /\ cache st' = None /\ clock st' = 0%N /\ requests st' = 0
    /\ announced (trace st') = []
    /\ sink_events (trace st') = [].
Proof.
  apply (X12_unreadable_manifest Samples.unreadable Dependencies
           ["app.json"; "broken.json"; "lib.json"] ["app.json"] ["lib.json"]
           "broken.json" _ initial_state).
  - done.
  - done.
  - repeat constructor. by eexists.
  - done.
Defined.

(** ** The console *)

Section Console.

Variable w : World.




End Console.




(** ** The end of a run *)



(** X16. [init] checks the [dependencies] and then the [devDependencies],
    the second in the state that the first has left.  When the first check
    throws, [init] throws the same exception and the [devDependencies] are
    not looked at; and [init] completes only if both checks complete, each
    with at least one record. *)
Theorem X16_init_outcome (w : World) (st : State) :
  (forall e st1,
      checkDependencies w Dependencies st = (Throw e, st1) ->
      init w st = (Throw e, st1))
  /\ (forall st',
         init w st = (Normal tt, st') ->
         exists deps st1 devs,
           checkDependencies w Dependencies st = (Normal deps, st1)
           /\ checkDependencies w DevDependencies st1 = (Normal devs, st')
           /\ deps <> [] /\ devs <> []).
Proof.
  split.
  - intros e st1 E. unfold init. unfold bind at 1. by rewrite E.
  - unfold init.
    intros st' (deps & st1 & E1 & (devs & st2 & E2 & [= <-])%bind_inv_normal)%bind_inv_normal.
    exists deps, st1, devs. split_and!; [done|done| |].
    + by apply checkDependencies_normal in E1 as (? & ? & ? & ? & _ & _ & ? & _).
    + by apply checkDependencies_normal in E2 as (? & ? & ? & ? & _ & _ & ? & _).
Qed.

(** The sample project with dependencies of both kinds completes. *)
Lemma X16_both_kinds :
  exists deps st1 devs,
    checkDependencies Samples.both_kinds Dependencies initial_state
    = (Normal deps, st1)
    /\ checkDependencies Samples.both_kinds DevDependencies st1
       = (Normal devs, (init Samples.both_kinds initial_state).2)
    /\ deps <> [] /\ devs <> [].
Proof.
  apply (X16_init_outcome Samples.both_kinds initial_state). by vm_compute.
Defined.

(** X17. A run of [init] that completes has written exactly two files, the
    report of the [dependencies] and then the report of the
    [devDependencies]; their names begin with [.dependencies.] and with
    [.devDependencies.], so the second report never overwrites the first,
    even when the clock reads the same for both. *)
Theorem X17_init_two_files (w : World) (st st' : State) :
  init w st = (Normal tt, st') ->
  exists name1 csv1 name2 csv2,
    files_written (trace st')
    = (name2, csv2) :: (name1, csv1) :: files_written (trace st)
    /\ startsWith name1 ".dependencies." = true
    /\ startsWith name2 ".devDependencies." = true
    /\ name1 <> name2.
Proof.
  unfold init.
  intros (deps & st1 & E1 & (devs & st2 & E2 & [= <-])%bind_inv_normal)%bind_inv_normal.
  apply checkDependencies_files in E1 as (csv1 & _ & F1).
  apply checkDependencies_files in E2 as (csv2 & _ & F2).
  rewrite F1 in F2. eexists _, csv1, _, csv2. split; [exact F2|].
  split_and!.
  - exact (prefix_app ".dependencies." _).
  - exact (prefix_app ".devDependencies." _).
  - by apply csv_names_differ.
Qed.

(** The two reports of the sample project with both kinds. *)
Lemma X17_both_kinds :
  exists name1 csv1 name2 csv2,
    files_written (trace (init Samples.both_kinds initial_state).2)
    = [(name2, csv2); (name1, csv1)]
    /\ startsWith name1 ".dependencies." = true
    /\ startsWith name2 ".devDependencies." = true
    /\ name1 <> name2.
Proof.
  apply (X17_init_two_files Samples.both_kinds initial_state
           (init Samples.both_kinds initial_state).2).
  by vm_compute.
Defined.

(** X18. Projects without [devDependencies] end the program with an
    exception: when no manifest declares [devDependencies] and the check of
    the [dependencies] completes, [init] throws the [TypeError] of [toCsv]
    on an empty sequence, after it has written the report of the
    [dependencies] and no other file. *)
Theorem X18_init_without_devDependencies (w : World) (names : list string)
  (manifest_of : string -> Manifest) (st st1 : State)
  (deps : list PackageDotJsonDependency) :
  readdir w packageFilesDir = Normal names ->
  (forall filename, In filename names -> endsWith filename ".json" = true ->
     readManifest w (path_join packageFilesDir filename) = Normal (manifest_of filename)
     /\ devDependencies (manifest_of filename) = None) ->
  checkDependencies w Dependencies st = (Normal deps, st1) ->
  exists st',
    init w st = (Throw (TypeError "Cannot convert undefined or null to object"), st')
    /\ files_written (trace st') = files_written (trace st1)
    /\ length (files_written (trace st')) = S (length (files_written (trace st))).
Proof.
  intros Hd Hm E1.
  destruct (getDependencies_normal w DevDependencies names manifest_of st1 Hd)
    as [st2 E2].
  { intros filename Hin He. by apply Hm. }
  assert (flat_map (fun fn => records_of w DevDependencies fn (manifest_of fn))
            (List.filter (fun fn => endsWith fn ".json") names) = []) as Hnil.
  { apply flat_map_all_nil. intros filename [Hin He]%filter_In.
    unfold records_of. simpl. by destruct (Hm filename Hin He) as [_ ->]. }
  rewrite Hnil in E2.
  assert (files_written (trace st2) = files_written (trace st1)) as Hf.
  { apply files_written_sink_events.
    replace st2 with (getDependencies w DevDependencies st1).2 by by rewrite E2.
    apply getDependencies_sink_events. }
  exists (emit (ConsoleTable []) st2). split_and!.
  - unfold init. rewrite (bind_normal _ _ _ _ _ E1).
    unfold bind at 1. rewrite checkDependencies_unfold, E2. by simpl.
  - done.
  - simpl. rewrite Hf.
    by apply checkDependencies_files in E1 as (csv & _ & ->).
Qed.

(** The sample run of two projects ends so, with one file written. *)
Lemma X18_two_projects :
  exists st',
    init Samples.two_projects initial_state
    = (Throw (TypeError "Cannot convert undefined or null to object"), st')
    /\ files_written (trace st')
       = files_written
           (trace (checkDependencies Samples.two_projects Dependencies initial_state).2)
    /\ length (files_written (trace st')) = 1.
Proof.
  eapply (X18_init_without_devDependencies Samples.two_projects
            ["proj-a.json"; "README.md"; "proj-b.json"]
            (Samples.manifest_in Samples.two_projects) initial_state).
  - done.
  - intros filename [<-|[<-|[<-|[]]]]; by vm_compute.
  - by vm_compute.
Defined.

Section Failures.

Variable w : World.

(** The loop body throws one of its two exceptions, or none. *)
Lemma resolve_package_throw type pkg st e st' :
  resolve_package w type pkg st = (Throw e, st') ->
  e = Error "Unrecognized package license definition."
  \/ e = TypeError "pkg.packageLicense.startsWith is not a function".
Proof.
  unfold resolve_package. unfold bind at 1. unfold perform at 1. unfold bind at 1.
  destruct (fetch_normal w (packageName pkg) (packageVersion pkg)
              (emit (StdoutWrite (checkingDisplayMessage type pkg)) st))
    as [license ->].
  unfold bind at 1. unfold normalize_license.
  destruct (negb (is_null license) && String.eqb (typeof license) "object").
  - destruct (js_get license "type") as [[| | | |t| |]|]; run;
      intros [= <- <-]; auto.
  - destruct license; run; intros [= <- <-]; auto.
Qed.

Lemma resolve_packages_throw type packages st e st' :
  resolve_packages w type packages st = (Throw e, st') ->
  e = Error "Unrecognized package license definition."
  \/ e = TypeError "pkg.packageLicense.startsWith is not a function".
Proof.
  revert st. induction packages as [|pkg rest IH]; intros st; [done|].
  cbn [resolve_packages]. unfold bind, ret.
  destruct (resolve_package w type pkg st) as [[pkg'|e1] st1] eqn:E1.
  - destruct (resolve_packages w type rest st1) as [[resolved|e2] st2] eqn:E2;
      [done|].
    intros [= <- <-]. by eapply IH.
  - intros [= <- <-]. by eapply resolve_package_throw.
Qed.

(** The loop returns no record only when it was given none. *)
Lemma resolve_packages_nil type packages st st' :
  resolve_packages w type packages st = (Normal [], st') -> packages = [].
Proof.
  destruct packages as [|pkg rest]; [done|].
  cbn [resolve_packages]. unfold bind, ret.
  destruct (resolve_package w type pkg st) as [[pkg'|e1] st1]; [|done].
  by destruct (resolve_packages w type rest st1) as [[resolved|e2] st2].
Qed.

(** An exception of the extraction loop is that of one of its manifests. *)
Lemma read_manifests_throw_inv type filenames acc st e st' :
  read_manifests w type filenames acc st = (Throw e, st') ->
  exists filename,
    In filename filenames
    /\ readManifest w (path_join packageFilesDir filename) = Throw e.
Proof.
  revert acc st. induction filenames as [|filename rest IH]; intros acc st; [done|].
  cbn [read_manifests]. unfold bind at 1. unfold lift.
  destruct (readManifest w (path_join packageFilesDir filename)) as [m|e1] eqn:Em.
  - destruct (manifest_get m type).
    + intros (fn & Hin & Hfn)%IH. exists fn. split; [by right|done].
    + unfold bind at 1. unfold perform at 1.
      intros (fn & Hin & Hfn)%IH. exists fn. split; [by right|done].
  - intros [= <- <-]. exists filename. split; [by left|done].
Qed.

End Failures.

(** X19. The ways in which a run can fail: when [checkDependencies] throws,
    the exception is that of reading the directory, or that of reading or
    parsing one of its [.json] files, or the error of a structured license
    without a string [type], or the [TypeError] of calling [startsWith] on
    a license that is no string, or the [TypeError] of [toCsv] when
    extraction has found no record, or that of [fs.writeFileSync] on the
    report of the records.  Nothing else ends a run; a failed request never
    does. *)
Theorem X19_failure_causes (w : World) (type : PackageDotJsonDependencyType)
  (st st' : State) (e : Exception) :
  checkDependencies w type st = (Throw e, st') ->
  readdir w packageFilesDir = Throw e
  \/ (exists names filename,
         readdir w packageFilesDir = Normal names
         /\ In filename names /\ endsWith filename ".json" = true
         /\ readManifest w (path_join packageFilesDir filename) = Throw e)
  \/ e = Error "Unrecognized package license definition."
  \/ e = TypeError "pkg.packageLicense.startsWith is not a function"
  \/ (e = TypeError "Cannot convert undefined or null to object"
      /\ (getDependencies w type st).1 = Normal [])
  \/ (exists packages csv name events,
         packages <> []
         /\ toCsv packages = Normal csv
         /\ writeFileSync w events name csv = Throw e).
Proof.
  rewrite checkDependencies_unfold.
  destruct (getDependencies w type st) as [[extracted|e1] st1] eqn:Eg.
  - destruct (resolve_packages w type extracted st1) as [[resolved|e2] st2] eqn:Er.
    + rewrite report_outcome. destruct resolved as [|first rest].
      * intros [= <- <-]. do 4 right. left. split; [done|].
        by rewrite (resolve_packages_nil _ _ _ _ _ Er).
      * destruct (toCsv (first :: rest)) as [csv|e0] eqn:Ec; [|done].
        destruct (writeFileSync w _ _ _) as [u|e0] eqn:Ew; [done|].
        intros [= <- <-]. do 5 right. eexists (first :: rest), csv, _, _.
        split; [done|]. split; [done|exact Ew].
    + intros [= <- <-]. right. right.
      destruct (resolve_packages_throw _ _ _ _ _ _ Er); auto.
  - intros [= <- <-]. unfold getDependencies in Eg. unfold bind at 1 in Eg.
    unfold lift in Eg.
    destruct (readdir w packageFilesDir) as [names|e0] eqn:Ed.
    + right. left.
      apply read_manifests_throw_inv in Eg as (fn & [Hin He]%filter_In & Hfn).
      by exists names, fn.
    + left. by injection Eg as ->.
Qed.

(** The sample run with a number for a license fails in one of these
    ways. *)
Lemma X19_number_license :
  let w := Samples.one_package (JNum 42) in
  let e := TypeError "pkg.packageLicense.startsWith is not a function" in
  (checkDependencies w Dependencies initial_state).1 = Throw e
  /\ (readdir w packageFilesDir = Throw e
      \/ (exists names filename,
             readdir w packageFilesDir = Normal names
             /\ In filename names /\ endsWith filename ".json" = true
             /\ readManifest w (path_join packageFilesDir filename) = Throw e)
      \/ e = Error "Unrecognized package license definition."
      \/ e = TypeError "pkg.packageLicense.startsWith is not a function"
      \/ (e = TypeError "Cannot convert undefined or null to object"
          /\ (getDependencies w Dependencies initial_state).1 = Normal [])
      \/ (exists packages csv name events,
             packages <> []
             /\ toCsv packages = Normal csv
             /\ writeFileSync w events name csv = Throw e)).
Proof.
  intros w e. split; [by vm_compute|].
  apply (X19_failure_causes w Dependencies initial_state
           (checkDependencies w Dependencies initial_state).2 e).
  by vm_compute.
Defined.

(** ** Local specifiers in the pipeline *)

Section SemverText.

Variable w : World.
Hypothesis lower_case_w : toLowerCase w = Samples.lower_case.

Lemma pretty_N_go_head x s :
  (0 < x)%N -> exists d s', pretty_N_go x s = String (pretty_N_char d) s'.
Proof.
  revert s. induction (N.lt_wf_0 x) as [x _ IH]; intros s Hx.
  rewrite pretty_N_go_step by done.
  destruct (decide (x `div` 10 = 0)%N) as [->|Hd].
  - rewrite pretty_N_go_0. eauto.
  - apply IH; [by apply N.div_lt|by apply N.neq_0_lt_0].
Qed.

(** A printed number begins with a digit. *)
Lemma pretty_N_head (n : N) : exists d s', pretty n = String (pretty_N_char d) s'.
Proof.
  unfold pretty, pretty_N. destruct (decide (n = 0%N)) as [->|Hn].
  - by exists 0%N, "".
  - apply pretty_N_go_head. lia.
Qed.

(** A text that begins with a digit is no local specifier. *)
Lemma is_local_digit d s : is_local w (String (pretty_N_char d) s) = false.
Proof.
  unfold is_local. rewrite lower_case_w.
  unfold pretty_N_char. by repeat case_match.
Qed.

Lemma parse_format v sv :
  NodeSemver.parse v = Some sv ->
  version sv
  = NodeSemver.format (major sv) (minor sv) (patch sv) (prerelease sv).
Proof.
  unfold NodeSemver.parse. intros H.
  repeat (case_match; simplify_option_eq; try done).
Qed.

Lemma parse_not_local v sv :
  NodeSemver.parse v = Some sv -> is_local w (version sv) = false.
Proof.
  intros ->%parse_format. unfold NodeSemver.format.
  destruct (pretty_N_head (major sv)) as (d & s' & ->).
  apply is_local_digit.
Qed.

(** What node-semver returns begins with a digit, so it is no local
    specifier. *)
Lemma valid_not_local v s : NodeSemver.valid v = Some s -> is_local w s = false.
Proof.
  unfold NodeSemver.valid.
  destruct (NodeSemver.parse v) as [sv|] eqn:E; [|done].
  intros [= <-]. by eapply parse_not_local.
Qed.

Lemma coerce_not_local v c :
  NodeSemver.coerce v = Some c -> is_local w (version c) = false.
Proof.
  unfold NodeSemver.coerce.
  destruct (NodeSemver.coerce_match true v) as [[[major minor] patch]|]; [|done].
  apply parse_not_local.
Qed.

End SemverText.

(** X20. Which packages the pipeline skips: when [semver] returns no local
    specifier (its versions begin with a digit), the version of an
    extracted record is a [file:] or [link:] specifier, in the sense of the
    test of the Registry Client on the lower-cased version, exactly when
    the specifier of the manifest is one and [semver] can neither validate
    nor coerce it; the version of the record is then the specifier itself.
    A local specifier that [semver] can coerce, for a version number in its
    path, is not skipped. *)
Theorem X20_local_in_the_pipeline (w : World) (filename name raw : string) :
  (forall v s, semver_valid w v = Some s -> is_local w s = false) ->
  (forall v c, semver_coerce w v = Some c -> is_local w (version c) = false) ->
  (is_local w (packageVersion (dependency_of w filename (name, raw))) = true
   <-> (is_local w raw = true /\ falsy (semver_valid w raw)
        /\ falsy (version <$> semver_coerce w raw)))
  /\ (is_local w (packageVersion (dependency_of w filename (name, raw))) = true ->
      packageVersion (dependency_of w filename (name, raw)) = raw).
Proof.
  intros Hv Hc. unfold dependency_of. cbn [packageVersion snd].
  unfold getCleanNpmPackageVersion, or_else, falsy.
  destruct (semver_valid w raw) as [s|] eqn:Ev.
  - destruct (String.eqb_spec s "") as [->|Hs].
    + destruct (semver_coerce w raw) as [c|] eqn:Ec; cbn [fmap option_fmap option_map].
      * destruct (String.eqb_spec (version c) "") as [E|Hn].
        -- rewrite E. split; [|done]. split; [auto|tauto].
        -- rewrite (Hc _ _ Ec). split; [|done]. split; [done|].
           intros (_ & _ & [[=]|[=]]). done.
      * split; [|done]. split; [auto|tauto].
    + rewrite (Hv _ _ Ev). split; [|done]. split; [done|].
      intros (_ & [[=]|[=]] & _). done.
  - destruct (semver_coerce w raw) as [c|] eqn:Ec; cbn [fmap option_fmap option_map].
    + destruct (String.eqb_spec (version c) "") as [E|Hn].
      * rewrite E. split; [|done]. split; [auto|tauto].
      * rewrite (Hc _ _ Ec). split; [|done]. split; [done|].
        intros (_ & _ & [[=]|[=]]). done.
    + split; [|done]. split; [auto|tauto].
Qed.

(** With node-semver: a linked directory without a number in its path is
    skipped, also when its scheme is written with the Kelvin sign; the
    tarball with a version in its file name is not. *)
Lemma X20_node_semver :
  let kelvin := "lin" ++ Samples.kelvin_sign ++ ":../ui-kit" in
  (is_local Samples.two_projects
     (packageVersion (dependency_of Samples.two_projects "app.json"
                        ("ui-kit", "link:../ui-kit"))) = true
   /\ packageVersion (dependency_of Samples.two_projects "app.json"
                        ("ui-kit", "link:../ui-kit"))
      = "link:../ui-kit")
  /\ (is_local Samples.two_projects
        (packageVersion (dependency_of Samples.two_projects "app.json"
                           ("ui-kit", kelvin))) = true
      /\ packageVersion (dependency_of Samples.two_projects "app.json"
                           ("ui-kit", kelvin))
         = kelvin)
  /\ is_local Samples.local_tarball
       (packageVersion (dependency_of Samples.local_tarball "app.json"
                          ("foo", "file:../vendor/foo-1.2.3.tgz"))) = false.
Proof.
  intros kelvin. split; [|split; [|by vm_compute]].
  - destruct (X20_local_in_the_pipeline Samples.two_projects "app.json" "ui-kit"
                "link:../ui-kit") as [H1 H2].
    + apply (valid_not_local Samples.two_projects eq_refl).
    + apply (coerce_not_local Samples.two_projects eq_refl).
    + assert (is_local Samples.two_projects
                (packageVersion (dependency_of Samples.two_projects "app.json"
                                   ("ui-kit", "link:../ui-kit"))) = true) as H.
      { apply H1. split_and!; [done|by left|by left]. }
      split; [exact H|exact (H2 H)].
  - destruct (X20_local_in_the_pipeline Samples.two_projects "app.json" "ui-kit"
                kelvin) as [H1 H2].
    + apply (valid_not_local Samples.two_projects eq_refl).
    + apply (coerce_not_local Samples.two_projects eq_refl).
    + assert (is_local Samples.two_projects
                (packageVersion (dependency_of Samples.two_projects "app.json"
                                   ("ui-kit", kelvin))) = true) as H.
      { apply H1. split_and!; [by vm_compute|by left|by left]. }
      split; [exact H|exact (H2 H)].
Defined.

(** ** From the manifests to the report *)

(** X21. The report of a run that completes lists the extraction: the CSV
    file that [checkDependencies] writes, read back, has the header
    [projectName,packageName,packageVersion,packageLicense] and then one
    row for every extracted record, in the order of extraction, with the
    project, the name and the version of that record and with its license,
    provided no such value holds a comma or a line feed. *)
Theorem X21_report_lists_extraction (w : World)
  (type : PackageDotJsonDependencyType) (st st1 st' : State)
  (extracted packages : list PackageDotJsonDependency) :
  getDependencies w type st = (Normal extracted, st1) ->
  checkDependencies w type st = (Normal packages, st') ->
  Forall (fun obj =>
            Forall (fun cell => has_char comma cell = false
                                /\ has_char linefeed cell = false)
              (record_cells obj)) packages ->
  exists name csv,
    files_written (trace st') = (name, csv) :: files_written (trace st)
    /\ csv_cells csv
       = ["projectName"; "packageName"; "packageVersion"; "packageLicense"]
         :: (record_cells <$> packages)
    /\ identity_of <$> packages = identity_of <$> extracted
    /\ Forall (fun pkg =>
                 exists s,
                   packageLicense pkg = Some (JStr s)
                   /\ record_cells pkg
                      = [projectName pkg; packageName pkg; packageVersion pkg; s])
         packages.
Proof.
  intros Eg E Hp.
  pose proof (checkDependencies_files w type st packages st' E) as (csv & Ec & Hf).
  apply checkDependencies_normal in E
    as (extracted' & st1' & st2 & csv' & Eg' & Er & Hne & _ & _).
  rewrite Eg in Eg'. injection Eg' as <- <-.
  pose proof (resolve_packages_licensed w type extracted st1 packages st2 Er) as Hl.
  eexists _, csv. split; [exact Hf|]. split_and!.
  - destruct packages as [|first rest]; [done|].
    destruct (toCsv_cells first rest Hp) as (csv0 & Ec0 & Hc).
    rewrite Ec in Ec0. injection Ec0 as <-. rewrite Hc. f_equal.
    apply Forall_cons in Hl as [[s Hs] _]. unfold record_keys. by rewrite Hs.
  - destruct (resolve_packages_in_order w type extracted st1) as (k & _ & Hr).
    apply Hr. by rewrite Er.
  - eapply Forall_impl; [exact Hl|]. intros pkg [s Hs]. exists s.
    split; [done|]. unfold record_cells, record_values. by rewrite Hs.
Qed.

(** The report of the sample run of two projects. *)
Lemma X21_two_projects :
  exists name csv,
    files_written
      (trace (checkDependencies Samples.two_projects Dependencies initial_state).2)
    = (name, csv) :: []
    /\ csv_cells csv
       = ["projectName"; "packageName"; "packageVersion"; "packageLicense"]
         :: (record_cells <$> [set_packageLicense Samples.left_pad (JStr "WTFPL");
                               set_packageLicense Samples.right_pad (JStr "MIT")])
    /\ identity_of <$> [set_packageLicense Samples.left_pad (JStr "WTFPL");
                        set_packageLicense Samples.right_pad (JStr "MIT")]
       = identity_of <$> [Samples.left_pad; Samples.right_pad]
    /\ Forall (fun pkg =>
                 exists s,
                   packageLicense pkg = Some (JStr s)
                   /\ record_cells pkg
                      = [projectName pkg; packageName pkg; packageVersion pkg; s])
         [set_packageLicense Samples.left_pad (JStr "WTFPL");
          set_packageLicense Samples.right_pad (JStr "MIT")].
Proof.
  apply (X21_report_lists_extraction Samples.two_projects Dependencies initial_state
           (getDependencies Samples.two_projects Dependencies initial_state).2
           (checkDependencies Samples.two_projects Dependencies initial_state).2
           [Samples.left_pad; Samples.right_pad]).
  - by vm_compute.
  - by vm_compute.
  - repeat constructor.
Defined.

(** ** What extraction reads *)

Section Ignored.

Variables w w' : World.

Hypothesis same_valid : forall v, semver_valid w v = semver_valid w' v.
Hypothesis same_coerce : forall v, semver_coerce w v = semver_coerce w' v.

Lemma dependency_of_same filename entry :
  dependency_of w filename entry = dependency_of w' filename entry.
Proof.
  unfold dependency_of, getCleanNpmPackageVersion.
  by rewrite same_valid, same_coerce.
Qed.

Lemma bind_same {A B} (m m' : M A) (k k' : A -> M B) st :
  m st = m' st -> (forall a st1, k a st1 = k' a st1) ->
  bind m k st = bind m' k' st.
Proof.
  intros Hm Hk. unfold bind. rewrite <- Hm.
  destruct (m st) as [[a|e] st1]; [apply Hk|done].
Qed.

Lemma read_manifests_same type filenames acc st :
  (forall fn, In fn filenames ->
     readManifest w (path_join packageFilesDir fn)
     = readManifest w' (path_join packageFilesDir fn)) ->
  read_manifests w type filenames acc st = read_manifests w' type filenames acc st.
Proof.
  revert acc st. induction filenames as [|filename rest IH]; intros acc st H; [done|].
  cbn [read_manifests]. apply bind_same.
  - unfold lift. by rewrite (H filename) by by left.
  - intros m st1. destruct (manifest_get m type) as [deps|].
    + rewrite (map_ext _ _ (dependency_of_same filename)).
      apply IH. intros fn Hfn. apply H. by right.
    + apply bind_same; [done|]. intros _ st2.
      apply IH. intros fn Hfn. apply H. by right.
Qed.

End Ignored.

(** X22. Extraction reads the [.json] files of the directory and nothing
    else: two worlds with the same directory listing, the same content of
    every listed file whose name ends in [.json] and the same [semver] give
    the same records, the same warnings and the same exception.  So an
    entry of another name is never read: whether it could be read or
    parsed, and what it holds, makes no difference. *)
Theorem X22_other_files_ignored (w w' : World)
  (type : PackageDotJsonDependencyType) (st : State) :
  readdir w packageFilesDir = readdir w' packageFilesDir ->
  (forall names fn,
      readdir w packageFilesDir = Normal names ->
      In fn names -> endsWith fn ".json" = true ->
      readManifest w (path_join packageFilesDir fn)
      = readManifest w' (path_join packageFilesDir fn)) ->
  (forall v, semver_valid w v = semver_valid w' v) ->
  (forall v, semver_coerce w v = semver_coerce w' v) ->
  getDependencies w type st = getDependencies w' type st.
Proof.
  intros Hd Hm Hv Hc. unfold getDependencies. unfold bind, lift.
  rewrite <- Hd.
  destruct (readdir w packageFilesDir) as [names|e] eqn:E; [|done].
  apply read_manifests_same; [done|done|].
  intros fn [Hin He]%filter_In. by eapply Hm.
Qed.

(** A [README.md] that is a parsable manifest changes nothing. *)
Lemma X22_readable_readme :
  getDependencies Samples.two_projects Dependencies initial_state
  = getDependencies Samples.readable_readme Dependencies initial_state.
Proof.
  apply (X22_other_files_ignored Samples.two_projects Samples.readable_readme).
  - done.
  - intros names fn [= <-] [<-|[<-|[<-|[]]]]; by vm_compute.
  - done.
  - done.
Defined.

(** ** Where the licenses come from *)

Section Sound.

Variable w : World.

Lemma cache_sound_emit e st : cache_sound w st -> cache_sound w (emit e st).
Proof. done. Qed.

Lemma cache_sound_initial : cache_sound w initial_state.
Proof.
  split; [apply cache_truthy_initial|]. intros k x. unfold cache_map. simpl.
  by rewrite lookup_empty.
Qed.

Lemma cache_sound_insert n v x st st0 :
  has_at v = false -> cache_sound w st -> truthy x = true -> origin w n v x ->
  cache_sound w (set_cache (<[cacheKey_of n v := x]> (default ∅ (cache st))) st0).
Proof.
  intros Hv [Ht Hs] Hx Ho. split.
  - intros c k y [= <-]. rewrite lookup_insert. case_decide; [by intros [= <-]|].
    destruct (cache st) as [c|] eqn:Ec; simpl; [by apply Ht|by rewrite lookup_empty].
  - intros k y. rewrite cache_map_set. rewrite lookup_insert.
    case_decide as Hk.
    + intros [= <-]. by exists n, v.
    + apply Hs.
Qed.

(** A lookup of a pair whose version holds no [@] keeps the cache sound,
    and returns a value of the pair or an error marker. *)
Lemma fetch_sound n v st :
  has_at v = false -> cache_sound w st ->
  cache_sound w (fetchLicenseForPackage w n v st).2
  /\ exists license,
       (fetchLicenseForPackage w n v st).1 = Normal license
       /\ (origin w n v license \/ exists response, license = JStr (error_marker response)).
Proof.
  intros Hv Hs. pose proof Hs as [Ht Hc].
  destruct (fetch_path w n v st) eqn:P.
  - rewrite (fetch_hit _ _ _ _ P). split; [done|]. eexists. split; [done|]. left.
    destruct (truthy_lookup_cache st (cacheKey_of n v)) as (c & Ec & Ek);
      [by eapply path_hit|].
    destruct (Hc (cacheKey_of n v) (cache_lookup st (cacheKey_of n v)))
      as (n0 & v0 & Hv0 & Hk & Ho).
    { unfold cache_map. by rewrite Ec. }
    by destruct (at_split _ _ _ _ Hv Hv0 Hk) as [-> ->].
  - rewrite (fetch_skip _ _ _ _ P). cbn [fst snd].
    assert (is_local w v = true) as Hl.
    { unfold fetch_path in P.
      destruct (truthy (cache_lookup st (cacheKey_of n v))); [done|].
      destruct (is_local w v); [done|]. by destruct (declared_license _). }
    split.
    + apply cache_sound_insert; [done|done|done|by left].
    + eexists. split; [done|]. left. by left.
  - destruct (fetch_success _ _ _ _ P) as (l & Hl & ->). cbn [fst snd].
    assert (origin w n v (js_or l (JStr "[BLANK]"))) as Ho.
    { right. exists l. split; [by eexists|done]. }
    split.
    + apply cache_sound_insert; [done|done|apply truthy_js_or_blank|done].
    + eexists. split; [done|]. by left.
  - rewrite (fetch_failure _ _ _ _ P). cbn [fst snd]. split.
    + split.
      * intros c k y. rewrite after_request_cache. intros [= <-].
        destruct (cache st) as [c|] eqn:Ec; simpl; [by apply Ht|by rewrite lookup_empty].
      * intros k y. rewrite cache_map_after_request. apply Hc.
    + eexists. split; [done|]. right. by eexists.
Qed.

Lemma resolve_package_sound type pkg st pkg' st' :
  has_at (packageVersion pkg) = false -> cache_sound w st ->
  resolve_package w type pkg st = (Normal pkg', st') ->
  cache_sound w st'
  /\ exists s, packageLicense pkg' = Some (JStr s) /\ license_source w pkg' s.
Proof.
  intros Hv Hs E.
  apply resolve_package_normal in E as (license & s & st1 & Ef & Hl & -> & ->).
  destruct (fetch_sound (packageName pkg) (packageVersion pkg)
              (emit (StdoutWrite (checkingDisplayMessage type pkg)) st) Hv)
    as [Hs1 (license' & El & Ho)]; [by apply cache_sound_emit|].
  rewrite Ef in Hs1, El. cbn [fst snd] in Hs1, El. injection El as <-.
  split; [done|]. exists s. split; [done|].
  unfold license_source. cbn [set_packageLicense packageName packageVersion].
  destruct Ho as [[[Hloc ->]|(l & Hd & ->)]|[r ->]].
  - destruct Hl as [[= <-]|[[=] _]]. by left.
  - unfold js_or in Hl. destruct (truthy l) eqn:Etl.
    + destruct Hl as [->|[Ho Hty]].
      * do 3 right. by left.
      * do 4 right. by exists l.
    + destruct Hl as [[= <-]|[[=] _]]. do 2 right. left. split; [done|]. by exists l.
  - destruct Hl as [[= <-]|[[=] _]]. right. left. by eexists.
Qed.

Lemma resolve_packages_sound type packages st resolved st' :
  Forall (fun pkg => has_at (packageVersion pkg) = false) packages ->
  cache_sound w st ->
  resolve_packages w type packages st = (Normal resolved, st') ->
  cache_sound w st'
  /\ Forall (fun pkg => exists s, packageLicense pkg = Some (JStr s)
                                  /\ license_source w pkg s) resolved.
Proof.
  intros Hp. revert st resolved. induction Hp as [|pkg rest Hv Hp IH]; intros st resolved Hs.
  - by intros [= <- <-].
  - cbn [resolve_packages].
    intros (pkg' & st1 & E1 & (rest' & st2 & E2 & E3)%bind_inv_normal)%bind_inv_normal.
    injection E3 as <- <-.
    destruct (resolve_package_sound _ _ _ _ _ Hv Hs E1) as [Hs1 H1].
    destruct (IH _ _ Hs1 E2) as [Hs2 H2].
    split; [done|]. by constructor.
Qed.

End Sound.

(** X23. No license is invented: when the versions of the extracted
    records hold no [@] and the cache is sound, as it is when the process
    starts, every license in the result of a run of [checkDependencies]
    that completes is the marker [[SKIPPED: <version>]] of a record whose
    version is a local specifier, an
    [[ERROR: ...]] marker, [[BLANK]] for a falsy license that the registry
    declares at the URL of the record, a string that the registry declares
    there, or the [type] of a license object that it declares there; and
    the cache is sound again after the run. *)
Theorem X23_licenses_come_from_the_registry (w : World)
  (type : PackageDotJsonDependencyType) (st st1 st' : State)
  (extracted packages : list PackageDotJsonDependency) :
  cache_sound w st ->
  getDependencies w type st = (Normal extracted, st1) ->
  Forall (fun pkg => has_at (packageVersion pkg) = false) extracted ->
  checkDependencies w type st = (Normal packages, st') ->
  Forall (fun pkg => exists s, packageLicense pkg = Some (JStr s)
                               /\ license_source w pkg s) packages
  /\ cache_sound w st'.
Proof.
  intros Hs Eg Hp E.
  apply checkDependencies_normal in E
    as (extracted' & st1' & st2 & csv & Eg' & Er & _ & _ & ->).
  rewrite Eg in Eg'. injection Eg' as <- <-.
  assert (cache_sound w st1) as Hs1.
  { replace st1 with (getDependencies w type st).2 by by rewrite Eg.
    apply (getDependencies_preserves w (cache_sound w)); [|done].
    intros text st0. apply cache_sound_emit. }
  destruct (resolve_packages_sound w type extracted st1 packages st2 Hp Hs1 Er)
    as [Hs2 H].
  split; [done|]. by do 2 apply cache_sound_emit.
Qed.

(** The sample run of two projects: [WTFPL] is declared for [left-pad],
    and [MIT] is the type of the license object declared for [right-pad].
    The sample run with a linked package, whose scheme is written with the
    Kelvin sign: its license is the skip marker of a local version. *)
Lemma X23_two_projects :
  (Forall (fun pkg => exists s, packageLicense pkg = Some (JStr s)
                                /\ license_source Samples.two_projects pkg s)
     [set_packageLicense Samples.left_pad (JStr "WTFPL");
      set_packageLicense Samples.right_pad (JStr "MIT")]
   /\ cache_sound Samples.two_projects
        (checkDependencies Samples.two_projects Dependencies initial_state).2)
  /\ (Forall (fun pkg => exists s, packageLicense pkg = Some (JStr s)
                                   /\ license_source Samples.linked pkg s)
        [set_packageLicense Samples.ui_kit
           (JStr (skipped_marker (packageVersion Samples.ui_kit)))]
      /\ cache_sound Samples.linked
           (checkDependencies Samples.linked Dependencies initial_state).2).
Proof.
  split.
  - apply (X23_licenses_come_from_the_registry Samples.two_projects Dependencies
             initial_state
             (getDependencies Samples.two_projects Dependencies initial_state).2
             (checkDependencies Samples.two_projects Dependencies initial_state).2
             [Samples.left_pad; Samples.right_pad]).
    + apply cache_sound_initial.
    + by vm_compute.
    + by repeat constructor.
    + by vm_compute.
  - apply (X23_licenses_come_from_the_registry Samples.linked Dependencies
             initial_state
             (getDependencies Samples.linked Dependencies initial_state).2
             (checkDependencies Samples.linked Dependencies initial_state).2
             [Samples.ui_kit]).
    + apply cache_sound_initial.
    + by vm_compute.
    + by repeat constructor.
    + by vm_compute.
Defined.
